(** * brand-kit-gen: the colour collector and classifier

    A shallow embedding of [utils/color_utils.py],
    [extractors/color_extractor.py] and of the colour part of
    [brand_kit_gen.extract_brand_identity], with the properties of the
    specification stated over it; and of [BrandIdentity.initials],
    [BrandExtractor._domain_to_name], [HTMLGenerator._hex_to_rgb_str] and
    the image cache of [app.py], with properties read off the code.

    Modelling conventions.
    - A Python [str] is a [string] of ASCII characters (code points below
      128); characters above 127 are plain symbols: no whitespace, no digit,
      no letter, no case.  Python has white space ([U+0085], [U+00A0]) and
      letters above 127: the theorem on the semantic hint, which tells what
      the patterns match in any text, is stated for [ascii_text].
    - A Python [int] is a [Z].
    - A Python [float] is a rational of [Q] with exact arithmetic; rounding is
      not modelled.  The one irrational operation, [x ** 2.4] in [luminance],
      is a parameter [pow24] of the development: every general theorem
      holds for any function put in its place.  [pow_2_4], a fixed-point
      evaluation of the power, instantiates it to run the code.
    - [color_distance(a, b) > t] is decided on the squared distance
      ([d ** 0.5 > t] iff [d > t * t] for [t >= 0]).
    - Exceptions are the [Raise] results of the [result] monad; [dict]s are
      insertion-ordered association lists with unique keys, as Python's are.
    - The interpreter's limit on the length of integer literals given to
      [int()] is not modelled.
    - The cache of [app.py] is a module variable; its functions take the
      cache and return it, and a [KeyError] is the result [None]. *)

From Stdlib Require Import String Ascii List ZArith QArith Bool Lia Arith Lqa.
Import ListNotations.

Local Open Scope string_scope.
Local Open Scope Z_scope.

(** ** Exceptions *)

Inductive exn : Type := ValueError | IndexError | ZeroDivisionError.

Inductive result (A : Type) : Type :=
| Ok (a : A)
| Raise (e : exn).

Arguments Ok {A} a.
Arguments Raise {A} e.

Definition bind {A B : Type} (m : result A) (f : A -> result B) : result B :=
  match m with
  | Ok a => f a
  | Raise e => Raise e
  end.

Notation "x <- m ;; k" := (bind m (fun x => k))
  (at level 61, m at next level, right associativity).

(** ** Python's [str] *)

Module PyStr.

Definition code (c : ascii) : nat := nat_of_ascii c.

Definition in_range (lo hi : nat) (c : ascii) : bool :=
  (Nat.leb lo (code c) && Nat.leb (code c) hi)%bool.

(** [str.isspace], [str.strip] and the pattern [\s]: tab to carriage
    return, the four separators 28-31, and the space. *)
Definition isspace (c : ascii) : bool :=
  (in_range 9 13 c || in_range 28 32 c)%bool.

(** C's [isspace], the white space [int()] skips in an ASCII string. *)
Definition c_isspace (c : ascii) : bool :=
  (in_range 9 13 c || Ascii.eqb c " ")%bool.

Definition isdigit (c : ascii) : bool := in_range 48 57 c.

Definition isupper (c : ascii) : bool := in_range 65 90 c.

Definition islower (c : ascii) : bool := in_range 97 122 c.

(** The pattern [\w]. *)
Definition isword (c : ascii) : bool :=
  (isdigit c || isupper c || islower c || Ascii.eqb c "_")%bool.

Definition lower_char (c : ascii) : ascii :=
  if isupper c then ascii_of_nat (code c + 32) else c.

Fixpoint lower (s : string) : string :=
  match s with
  | EmptyString => EmptyString
  | String c t => String (lower_char c) (lower t)
  end.

Fixpoint forallb (p : ascii -> bool) (s : string) : bool :=
  match s with
  | EmptyString => true
  | String c t => (p c && forallb p t)%bool
  end.

(** [s.lstrip(chars)], with the set of characters as a predicate. *)
Fixpoint lstrip (p : ascii -> bool) (s : string) : string :=
  match s with
  | EmptyString => EmptyString
  | String c t => if p c then lstrip p t else s
  end.

Fixpoint rstrip (p : ascii -> bool) (s : string) : string :=
  match s with
  | EmptyString => EmptyString
  | String c t =>
      match rstrip p t with
      | EmptyString => if p c then EmptyString else String c EmptyString
      | r => String c r
      end
  end.

(** [s.strip()] *)
Definition strip (s : string) : string := rstrip isspace (lstrip isspace s).

(** [s.startswith(p)] *)
Definition startswith (s p : string) : bool := String.prefix p s.

(** [''.join(c * 2 for c in s)] *)
Fixpoint double_chars (s : string) : string :=
  match s with
  | EmptyString => EmptyString
  | String c t => String c (String c (double_chars t))
  end.

(** The slice [s[i:j]] for [0 <= i <= j]. *)
Definition slice (i j : nat) (s : string) : string := substring i (j - i) s.

(** The characters of [s] in front of its suffix of length [n]. *)
Definition take_until (s : string) (n : nat) : string :=
  substring 0 (String.length s - n) s.

(** [str.isalnum] on a character. *)
Definition isalnum (c : ascii) : bool := (isdigit c || isupper c || islower c)%bool.

Definition upper_char (c : ascii) : ascii :=
  if islower c then ascii_of_nat (code c - 32) else c.

(** [s.upper()] *)
Fixpoint upper (s : string) : string :=
  match s with
  | EmptyString => EmptyString
  | String c t => String (upper_char c) (upper t)
  end.

(** [s.capitalize()] *)
Definition capitalize (s : string) : string :=
  match s with
  | EmptyString => EmptyString
  | String c t => String (upper_char c) (lower t)
  end.

(** [''.join(c for c in s if p(c))] *)
Fixpoint filter (p : ascii -> bool) (s : string) : string :=
  match s with
  | EmptyString => EmptyString
  | String c t => if p c then String c (filter p t) else filter p t
  end.

(** [any(p(c) for c in s)] *)
Fixpoint existsb (p : ascii -> bool) (s : string) : bool :=
  match s with
  | EmptyString => false
  | String c t => (p c || existsb p t)%bool
  end.

(** [s.split(sep)] for a separator of one character: the pieces between
    the separators, empty ones included; never an empty list. *)
Fixpoint split_char (sep : ascii) (s : string) : list string :=
  match s with
  | EmptyString => [EmptyString]
  | String c t =>
      if Ascii.eqb c sep then EmptyString :: split_char sep t
      else
        match split_char sep t with
        | w :: ws => String c w :: ws
        | [] => [String c EmptyString]
        end
  end.

(** [s.split()]: the words between runs of white space. *)
Fixpoint split (s : string) : list string :=
  match s with
  | EmptyString => []
  | String c t =>
      if isspace c then split t
      else
        match t with
        | EmptyString => [String c EmptyString]
        | String d _ =>
            if isspace d then String c EmptyString :: split t
            else
              match split t with
              | w :: ws => String c w :: ws
              | [] => [String c EmptyString]
              end
        end
  end.

(** [sep.join(l)] *)
Fixpoint join (sep : string) (l : list string) : string :=
  match l with
  | [] => EmptyString
  | [w] => w
  | w :: l' => w ++ sep ++ join sep l'
  end.

(** [s[0]]; the empty string raises [IndexError]. *)
Definition first (s : string) : result ascii :=
  match s with
  | EmptyString => Raise IndexError
  | String c _ => Ok c
  end.

(** [s[1:]] *)
Definition tail (s : string) : string :=
  match s with
  | EmptyString => EmptyString
  | String _ t => t
  end.

End PyStr.

(** ** Python's [int(s, base)] and the format [{:02x}] *)

Module PyInt.

Definition digit_value (base : Z) (c : ascii) : option Z :=
  let v :=
    if PyStr.isdigit c then Some (Z.of_nat (PyStr.code c) - 48)
    else if PyStr.in_range 97 122 c then Some (Z.of_nat (PyStr.code c) - 87)
    else if PyStr.in_range 65 90 c then Some (Z.of_nat (PyStr.code c) - 55)
    else None in
  match v with
  | Some d => if d <? base then Some d else None
  | None => None
  end.

(** The digits of a literal, single underscores allowed between them;
    returns the value, the number of digits and what follows. *)
Fixpoint scan_digits (base : Z) (s : string) (after_underscore : bool)
    (acc : Z) (ndigits : nat) : option (Z * nat * string) :=
  match s with
  | EmptyString => if after_underscore then None else Some (acc, ndigits, s)
  | String c t =>
      match digit_value base c with
      | Some d => scan_digits base t false (acc * base + d) (S ndigits)
      | None =>
          if Ascii.eqb c "_" then
            if after_underscore then None
            else scan_digits base t true acc ndigits
          else if after_underscore then None
          else Some (acc, ndigits, s)
      end
  end.

(** [int(s, base)] for [base] 10 or 16; [None] is [ValueError].  White
    space around, an optional sign, for base 16 an optional [0x] prefix,
    then the digits. *)
Definition int (s : string) (base : Z) : option Z :=
  let s1 := PyStr.lstrip PyStr.c_isspace s in
  let '(sign, s2) :=
    match s1 with
    | String "+" t => (1, t)
    | String "-" t => (-1, t)
    | _ => (1, s1)
    end in
  let s3 :=
    match s2 with
    | String "0" (String x t) =>
        if ((base =? 16) && (Ascii.eqb x "x" || Ascii.eqb x "X"))%bool then
          match t with
          | String "_" t' => t'
          | _ => t
          end
        else s2
    | _ => s2
    end in
  match s3 with
  | String "_" _ => None
  | _ =>
      match scan_digits base s3 false 0 0 with
      | Some (v, S _, rest) =>
          if PyStr.forallb PyStr.c_isspace rest then Some (sign * v) else None
      | _ => None
      end
  end.

Definition hex_char (d : Z) : ascii :=
  if d <? 10 then ascii_of_nat (Z.to_nat (d + 48))
  else ascii_of_nat (Z.to_nat (d + 87)).

(** The lowercase hexadecimal digits of a positive number in front of
    [acc]; [fuel] bounds the number of digits. *)
Fixpoint hex_digits (fuel : nat) (n : Z) (acc : string) : string :=
  match fuel with
  | O => acc
  | S fuel' =>
      if n <=? 0 then acc
      else hex_digits fuel' (n / 16) (String (hex_char (n mod 16)) acc)
  end.

(** [format(n, 'x')] *)
Definition format_x (n : Z) : string :=
  if n =? 0 then "0"
  else if n <? 0 then String "-" (hex_digits (S (Z.to_nat (Z.log2 (- n)))) (- n) "")
  else hex_digits (S (Z.to_nat (Z.log2 n))) n "".

(** [format(n, '02x')]: zero padding to two characters, after the sign. *)
Definition format_02x (n : Z) : string :=
  let s := format_x n in
  match s with
  | String c EmptyString => String "0" s
  | _ => s
  end.

(** The decimal digits of a positive number in front of [acc]. *)
Fixpoint dec_digits (fuel : nat) (n : Z) (acc : string) : string :=
  match fuel with
  | O => acc
  | S fuel' =>
      if n <=? 0 then acc
      else dec_digits fuel' (n / 10)
             (String (ascii_of_nat (Z.to_nat (n mod 10 + 48))) acc)
  end.

(** [str(n)] *)
Definition str (n : Z) : string :=
  if n =? 0 then "0"
  else if n <? 0 then String "-" (dec_digits (S (Z.to_nat (Z.log2 (- n)))) (- n) "")
  else dec_digits (S (Z.to_nat (Z.log2 n))) n "".

End PyInt.

(** ** Python's [re]: a backtracking matcher

    The patterns of the program are built from literals, character
    classes, greedy repetitions of a class, concatenation, alternation,
    optional parts, capturing groups and the word boundary.  The matcher
    returns the ways a pattern matches at a position in the order Python's
    backtracking tries them, so that the first one is the match Python
    reports. *)

Module Re.

Inductive regex : Type :=
| Eps                                               (* the empty pattern *)
| Lit (c : ascii)                                   (* a character *)
| Class (p : ascii -> bool)                         (* [...] , \d, \s, \w *)
| Rep (p : ascii -> bool) (lo : nat) (hi : option nat) (* [...]{lo,hi}, greedy *)
| Cat (r1 r2 : regex)                               (* r1 r2 *)
| Alt (r1 r2 : regex)                               (* r1|r2 *)
| Opt (r : regex)                                   (* r? *)
| Group (n : nat) (r : regex)                       (* ( r ), the n-th group *)
| WordBoundary.                                     (* \b *)

(** A literal string. *)
Fixpoint lit (s : string) : regex :=
  match s with
  | EmptyString => Eps
  | String c t => Cat (Lit c) (lit t)
  end.

(** The patterns of a sequence, one after the other. *)
Fixpoint seq (rs : list regex) : regex :=
  match rs with
  | [] => Eps
  | [r] => r
  | r :: rs' => Cat r (seq rs')
  end.

Definition star (p : ascii -> bool) : regex := Rep p 0 None.
Definition plus (p : ascii -> bool) : regex := Rep p 1 None.

(** The state of a match attempt: the groups closed so far, the last one
    first; the character in front of the position; the text from the
    position on. *)
Record cursor : Type := Cursor {
  groups : list (nat * string);
  prev : option ascii;
  rest : string
}.

Definition below (n : nat) (hi : option nat) : bool :=
  match hi with
  | None => true
  | Some h => Nat.ltb n h
  end.

(** The positions after [n] characters of the class have been read and
    more may follow: the longest run first. *)
Fixpoint rep_from (p : ascii -> bool) (lo : nat) (hi : option nat) (n : nat)
    (gs : list (nat * string)) (pv : option ascii) (s : string) : list cursor :=
  let here := if Nat.leb lo n then [Cursor gs pv s] else [] in
  match s with
  | EmptyString => here
  | String c t =>
      if (p c && below n hi)%bool
      then rep_from p lo hi (S n) gs (Some c) t ++ here
      else here
  end.

Definition lit_matches (icase : bool) (c x : ascii) : bool :=
  (Ascii.eqb c x
   || (icase && Ascii.eqb (PyStr.lower_char c) (PyStr.lower_char x)))%bool.

Definition at_boundary (pv : option ascii) (s : string) : bool :=
  let before := match pv with Some c => PyStr.isword c | None => false end in
  let after := match s with String c _ => PyStr.isword c | EmptyString => false end in
  xorb before after.

(** All the ways [r] matches from the cursor, in backtracking order;
    [icase] is the flag [re.I]. *)
Fixpoint run (icase : bool) (r : regex) (cu : cursor) : list cursor :=
  match r with
  | Eps => [cu]
  | Lit c =>
      match rest cu with
      | String x t =>
          if lit_matches icase c x then [Cursor (groups cu) (Some x) t] else []
      | EmptyString => []
      end
  | Class p =>
      match rest cu with
      | String x t => if p x then [Cursor (groups cu) (Some x) t] else []
      | EmptyString => []
      end
  | Rep p lo hi => rep_from p lo hi 0 (groups cu) (prev cu) (rest cu)
  | Cat r1 r2 => flat_map (run icase r2) (run icase r1 cu)
  | Alt r1 r2 => run icase r1 cu ++ run icase r2 cu
  | Opt r1 => run icase r1 cu ++ [cu]
  | Group n r1 =>
      map (fun cu' =>
             Cursor ((n, PyStr.take_until (rest cu) (String.length (rest cu')))
                     :: groups cu')
                    (prev cu') (rest cu'))
          (run icase r1 cu)
  | WordBoundary => if at_boundary (prev cu) (rest cu) then [cu] else []
  end.

(** A match object: the text matched, the groups, the text after. *)
Record match_obj : Type := Match {
  m_text : string;
  m_groups : list (nat * string);
  m_after : string
}.

(** [pattern.match] at a position. *)
Definition match_here (icase : bool) (r : regex) (pv : option ascii)
    (s : string) : option match_obj :=
  match run icase r (Cursor [] pv s) with
  | cu :: _ =>
      Some (Match (PyStr.take_until s (String.length (rest cu)))
                  (groups cu) (rest cu))
  | [] => None
  end.

(** [pattern.search(s)]: the first position with a match. *)
Fixpoint search_from (icase : bool) (r : regex) (pv : option ascii)
    (s : string) : option match_obj :=
  match match_here icase r pv s with
  | Some m => Some m
  | None =>
      match s with
      | EmptyString => None
      | String c t => search_from icase r (Some c) t
      end
  end.

Definition search (icase : bool) (r : regex) (s : string) : option match_obj :=
  search_from icase r None s.

(** [m.group(n)] of a group that took part in the match. *)
Fixpoint lookup_group (n : nat) (gs : list (nat * string)) : option string :=
  match gs with
  | [] => None
  | (k, v) :: gs' => if Nat.eqb k n then Some v else lookup_group n gs'
  end.

(** [m.group(m.lastindex)]: the group closed last. *)
Definition last_group (m : match_obj) : option string :=
  match m_groups m with
  | [] => None
  | (_, v) :: _ => Some v
  end.

(** The non-overlapping matches from left to right; after a match of [n]
    characters the scan resumes behind it ([skip] counts the characters of
    the last match still to pass). *)
Fixpoint matches_from (icase : bool) (r : regex) (skip : nat)
    (pv : option ascii) (s : string) : list match_obj :=
  let next k :=
    match s with
    | EmptyString => []
    | String c t => matches_from icase r k (Some c) t
    end in
  match skip with
  | S k => next k
  | O =>
      match match_here icase r pv s with
      | Some m => m :: next (String.length (m_text m) - 1)%nat
      | None => next O
      end
  end.

Fixpoint count_groups (r : regex) : nat :=
  match r with
  | Cat r1 r2 | Alt r1 r2 => (count_groups r1 + count_groups r2)%nat
  | Opt r1 => count_groups r1
  | Group _ r1 => S (count_groups r1)
  | _ => O
  end.

(** [pattern.findall(s)] for a pattern with at most one group: the text
    of the group when there is one, of the whole match otherwise. *)
Definition findall (icase : bool) (r : regex) (s : string) : list string :=
  map (fun m =>
         match count_groups r with
         | O => m_text m
         | _ => match lookup_group 1 (m_groups m) with
                | Some g => g
                | None => EmptyString
                end
         end)
      (matches_from icase r O None s).

End Re.

(** ** Python's [dict], insertion-ordered *)

Module Dict.

Definition dict (V : Type) : Type := list (string * V).

(** [d.get(k)] *)
Fixpoint get {V : Type} (d : dict V) (k : string) : option V :=
  match d with
  | [] => None
  | (k', v) :: d' => if String.eqb k' k then Some v else get d' k
  end.

(** [d.get(k, default)] *)
Definition get_default {V : Type} (d : dict V) (k : string) (default : V) : V :=
  match get d k with
  | Some v => v
  | None => default
  end.

(** [d[k] = v]: a present key keeps its place, a new one goes last. *)
Fixpoint set {V : Type} (d : dict V) (k : string) (v : V) : dict V :=
  match d with
  | [] => [(k, v)]
  | (k', v') :: d' =>
      if String.eqb k' k then (k', v) :: d' else (k', v') :: set d' k v
  end.

(** [list(d.keys())] *)
Definition keys {V : Type} (d : dict V) : list string := map fst d.

(** [{**d, **e}] *)
Definition update {V : Type} (d e : dict V) : dict V :=
  fold_left (fun acc kv => set acc (fst kv) (snd kv)) e d.

End Dict.

(** ** [utils/color_utils.py] *)

Module ColorUtils.

Definition Qltb (a b : Q) : bool :=
  match Qcompare a b with
  | Lt => true
  | _ => false
  end.

(** [c in chars] for a character [c]. *)
Fixpoint char_in (chars : string) (c : ascii) : bool :=
  match chars with
  | EmptyString => false
  | String x t => (Ascii.eqb x c || char_in t c)%bool
  end.

Definition hex_to_rgb (hex_color : string) : Z * Z * Z :=
  let hex_color := PyStr.lstrip (Ascii.eqb "#") hex_color in
  let hex_color :=
    if Nat.eqb (String.length hex_color) 3
    then PyStr.double_chars hex_color else hex_color in
  if negb (Nat.eqb (String.length hex_color) 6) then (0, 0, 0)
  else
    match PyInt.int (PyStr.slice 0 2 hex_color) 16,
          PyInt.int (PyStr.slice 2 4 hex_color) 16,
          PyInt.int (PyStr.slice 4 6 hex_color) 16 with
    | Some r, Some g, Some b => (r, g, b)
    | _, _, _ => (0, 0, 0)            (* except ValueError *)
    end.

Definition rgb_to_hex (r g b : Z) : string :=
  "#" ++ PyInt.format_02x r ++ PyInt.format_02x g ++ PyInt.format_02x b.

Section Luminance.

Local Open Scope Q_scope.

(** [x ** 2.4] *)
Variable pow24 : Q -> Q.

Definition gamma (c : Q) : Q :=
  if Qle_bool c 0.03928 then c / 12.92 else pow24 ((c + 0.055) / 1.055).

Definition luminance (hex_color : string) : Q :=
  let '(r, g, b) := hex_to_rgb hex_color in
  let r_norm := inject_Z r / 255 in
  let g_norm := inject_Z g / 255 in
  let b_norm := inject_Z b / 255 in
  let r_lin := gamma r_norm in
  let g_lin := gamma g_norm in
  let b_lin := gamma b_norm in
  0.2126 * r_lin + 0.7152 * g_lin + 0.0722 * b_lin.

Definition is_dark_theme (background_color : string) : bool :=
  Qltb (luminance background_color) 0.5.

Definition get_text_color (background_color : string) : string :=
  if is_dark_theme background_color then "#ffffff" else "#000000".

End Luminance.

(** The classes [\d] and [\s] of a pattern, on ASCII text. *)
Definition digit : ascii -> bool := PyStr.isdigit.
Definition space : ascii -> bool := PyStr.isspace.

(** [rgba?\s*\(\s*(\d+)\s*,\s*(\d+)\s*,\s*(\d+)] *)
Definition rgb_pattern : Re.regex :=
  Re.seq [Re.lit "rgb"; Re.Opt (Re.Lit "a"); Re.star space; Re.Lit "(";
          Re.star space; Re.Group 1 (Re.plus digit); Re.star space; Re.Lit ",";
          Re.star space; Re.Group 2 (Re.plus digit); Re.star space; Re.Lit ",";
          Re.star space; Re.Group 3 (Re.plus digit)].

(** [int(match.group(n))]; a group that is missing raises [IndexError],
    text that is no number raises [ValueError]. *)
Definition int_group (m : Re.match_obj) (n : nat) : result Z :=
  match Re.lookup_group n (Re.m_groups m) with
  | None => Raise IndexError
  | Some g =>
      match PyInt.int g 10 with
      | Some v => Ok v
      | None => Raise ValueError
      end
  end.

Definition parse_rgb_string (rgb_str : string) : result (option string) :=
  match Re.search false rgb_pattern rgb_str with
  | Some m =>
      r <- int_group m 1 ;;
      g <- int_group m 2 ;;
      b <- int_group m 3 ;;
      Ok (Some (rgb_to_hex r g b))
  | None => Ok None
  end.

Definition normalize_color (color : string) : result (option string) :=
  let color := PyStr.lower (PyStr.strip color) in
  if PyStr.startswith color "#" then
    let hex_color := PyStr.lstrip (Ascii.eqb "#") color in
    let hex_color :=
      if Nat.eqb (String.length hex_color) 3
      then PyStr.double_chars hex_color else hex_color in
    if (Nat.eqb (String.length hex_color) 6
        && PyStr.forallb (char_in "0123456789abcdef") hex_color)%bool
    then Ok (Some ("#" ++ hex_color))
    else Ok None
  else if PyStr.startswith color "rgb" then parse_rgb_string color
  else Ok None.

(** The square of [color_distance(color1, color2)]. *)
Definition color_distance_sq (color1 color2 : string) : Z :=
  let '(r1, g1, b1) := hex_to_rgb color1 in
  let '(r2, g2, b2) := hex_to_rgb color2 in
  (r1 - r2) ^ 2 + (g1 - g2) ^ 2 + (b1 - b2) ^ 2.

(** [color_distance(color1, color2) > t] for a threshold [t >= 0]. *)
Definition color_distance_gt (color1 color2 : string) (t : Z) : bool :=
  t * t <? color_distance_sq color1 color2.

Definition max3 (r g b : Z) : Z := Z.max (Z.max r g) b.
Definition min3 (r g b : Z) : Z := Z.min (Z.min r g) b.

Definition is_grayscale_tol (hex_color : string) (tolerance : Z) : bool :=
  let '(r, g, b) := hex_to_rgb hex_color in
  max3 r g b - min3 r g b <=? tolerance.

(** [is_grayscale(hex_color)], with the default tolerance. *)
Definition is_grayscale (hex_color : string) : bool :=
  is_grayscale_tol hex_color 10.

(** [a / b] on numbers. *)
Definition truediv (a b : Z) : result Q :=
  if b =? 0 then Raise ZeroDivisionError else Ok (Qdiv (inject_Z a) (inject_Z b)).

Definition saturation (hex_color : string) : result Q :=
  let '(r, g, b) := hex_to_rgb hex_color in
  let max_c := max3 r g b in
  let min_c := min3 r g b in
  if max_c =? 0 then Ok (inject_Z 0)
  else truediv (max_c - min_c) max_c.

Section Contrast.

Local Open Scope Q_scope.

Variable pow24 : Q -> Q.

(** [a / b] on floats. *)
Definition truediv_float (a b : Q) : result Q :=
  if Qeq_bool b 0 then Raise ZeroDivisionError else Ok (a / b).

(** [max(a, b)] and [min(a, b)]: the first argument unless the second is
    strictly beyond it. *)
Definition max2 (a b : Q) : Q := if Qltb a b then b else a.
Definition min2 (a b : Q) : Q := if Qltb b a then b else a.

Definition contrast_ratio (color1 color2 : string) : result Q :=
  let l1 := luminance pow24 color1 in
  let l2 := luminance pow24 color2 in
  let lighter := max2 l1 l2 in
  let darker := min2 l1 l2 in
  truediv_float (lighter + 0.05) (darker + 0.05).

End Contrast.

End ColorUtils.

(** ** A fixed-point evaluation of [x ** 2.4] *)

Module Pow.

(** The largest [r], of at most [i] bits above those already set in [r],
    with [r ^ 5 * d <= n]. *)
Fixpoint root5_bits (i : nat) (n d r : Z) : Z :=
  match i with
  | O => r
  | S j =>
      let r' := r + 2 ^ Z.of_nat j in
      root5_bits j n d (if r' ^ 5 * d <=? n then r' else r)
  end.

Definition precision : nat := 53.

(** [x ** 2.4 = (x ^ 12) ** (1/5)], rounded down to [precision] binary
    places, for [0 <= x < 2 ** 3]. *)
Definition pow_2_4 (x : Q) : Q :=
  let a := Qnum x in
  let b := Zpos (Qden x) in
  if a <=? 0 then inject_Z 0
  else
    let scale := 2 ^ Z.of_nat precision in
    Qmake (root5_bits (precision + 8) (a ^ 12 * scale ^ 5) (b ^ 12) 0)
          (Z.to_pos scale).

End Pow.

(** ** Python's [min], [max], [sorted], [sum] and list indexing *)

Module PyList.

Section Keyed.

Context {A K : Type}.

(** [k1 < k2] on the keys *)
Variable ltb : K -> K -> bool.

(** The scan of [max(l, key=key)]: a later element replaces the best so
    far only when its key is strictly greater. *)
Fixpoint max_from (key : A -> result K) (best : A) (kbest : K)
    (l : list A) : result A :=
  match l with
  | [] => Ok best
  | x :: l' =>
      kx <- key x ;;
      if ltb kbest kx then max_from key x kx l'
      else max_from key best kbest l'
  end.

(** [max(l, key=key)]; an empty [l] raises [ValueError]. *)
Definition max (key : A -> result K) (l : list A) : result A :=
  match l with
  | [] => Raise ValueError
  | x :: l' => kx <- key x ;; max_from key x kx l'
  end.

Fixpoint min_from (key : A -> result K) (best : A) (kbest : K)
    (l : list A) : result A :=
  match l with
  | [] => Ok best
  | x :: l' =>
      kx <- key x ;;
      if ltb kx kbest then min_from key x kx l'
      else min_from key best kbest l'
  end.

(** [min(l, key=key)] *)
Definition min (key : A -> result K) (l : list A) : result A :=
  match l with
  | [] => Raise ValueError
  | x :: l' => kx <- key x ;; min_from key x kx l'
  end.

(** Insertion in front of the first element whose key is not smaller. *)
Fixpoint insert (key : A -> K) (x : A) (l : list A) : list A :=
  match l with
  | [] => [x]
  | y :: l' => if ltb (key y) (key x) then y :: insert key x l' else x :: l
  end.

(** [sorted(l, key=key)]: ascending and stable. *)
Fixpoint sorted (key : A -> K) (l : list A) : list A :=
  match l with
  | [] => []
  | x :: l' => insert key x (sorted key l')
  end.

End Keyed.

(** [l[i]]; an index out of range raises [IndexError]. *)
Definition index {A : Type} (l : list A) (i : Z) : result A :=
  let n := Z.of_nat (List.length l) in
  let j := if i <? 0 then i + n else i in
  if ((0 <=? j) && (j <? n))%bool then
    match nth_error l (Z.to_nat j) with
    | Some x => Ok x
    | None => Raise IndexError
    end
  else Raise IndexError.

(** [sum(l)] *)
Definition sum (l : list Z) : Z := fold_left Z.add l 0.

(** The truth value of a list. *)
Definition nonempty {A : Type} (l : list A) : bool :=
  match l with
  | [] => false
  | _ :: _ => true
  end.

End PyList.

(** The truth value of a string. *)
Definition truthy (s : string) : bool :=
  match s with
  | EmptyString => false
  | String _ _ => true
  end.

(** ** [extractors/color_extractor.py] *)

Module ColorExtractor.

Import ColorUtils.

Definition hexdigit (c : ascii) : bool :=
  (PyStr.isdigit c || PyStr.in_range 97 102 c || PyStr.in_range 65 70 c)%bool.

Definition is_char (x : ascii) (c : ascii) : bool := Ascii.eqb x c.
Definition not_char (x : ascii) (c : ascii) : bool := negb (Ascii.eqb x c).

(** [#([0-9a-fA-F]{3,6})\b] *)
Definition HEX_PATTERN : Re.regex :=
  Re.seq [Re.Lit "#"; Re.Group 1 (Re.Rep hexdigit 3 (Some 6%nat)); Re.WordBoundary].

(** [rgba?\s*\(\s*\d+\s*,\s*\d+\s*,\s*\d+[^)]*\)] *)
Definition RGB_PATTERN : Re.regex :=
  Re.seq [Re.lit "rgb"; Re.Opt (Re.Lit "a"); Re.star space; Re.Lit "(";
          Re.star space; Re.plus digit; Re.star space; Re.Lit ",";
          Re.star space; Re.plus digit; Re.star space; Re.Lit ",";
          Re.star space; Re.plus digit; Re.star (not_char ")"); Re.Lit ")"].

(** [--[\w-]+:\s*([#\w(),.%\s]+);] *)
Definition CSS_VAR_PATTERN : Re.regex :=
  Re.seq [Re.lit "--";
          Re.plus (fun c => PyStr.isword c || is_char "-" c)%bool;
          Re.Lit ":"; Re.star space;
          Re.Group 1 (Re.plus (fun c => char_in "#(),.%" c || PyStr.isword c
                                        || PyStr.isspace c)%bool);
          Re.Lit ";"].

(** [#[0-9a-fA-F]{3,6}] *)
Definition hex_literal : Re.regex :=
  Re.Cat (Re.Lit "#") (Re.Rep hexdigit 3 (Some 6%nat)).

(** [--(color-)?NAMES[^:]*:\s*(#[0-9a-fA-F]{3,6})], where the group of the
    hex literal is the [n]-th. *)
Definition semantic_pattern (names : Re.regex) (n : nat) : Re.regex :=
  Re.seq [Re.lit "--"; Re.Opt (Re.Group 1 (Re.lit "color-")); names;
          Re.star (not_char ":"); Re.Lit ":"; Re.star space;
          Re.Group n hex_literal].

(** The three patterns, compiled with [re.I], in the order of the
    dictionary. *)
Definition SEMANTIC_VAR_PATTERNS : list (string * Re.regex) :=
  [ ("primary", semantic_pattern (Re.lit "primary") 2);
    ("accent",
     semantic_pattern
       (Re.Group 2 (Re.Alt (Re.lit "accent")
                           (Re.Alt (Re.lit "secondary") (Re.lit "highlight")))) 3);
    ("background",
     semantic_pattern
       (Re.Group 2 (Re.Alt (Re.lit "background") (Re.lit "bg"))) 3) ].

(** One turn of the loop of [_extract_semantic_vars]. *)
Definition semantic_step (css : string) (acc : result (Dict.dict string))
    (entry : string * Re.regex) : result (Dict.dict string) :=
  result <- acc ;;
  match Re.search true (snd entry) css with
  | Some m =>
      match Re.last_group m with
      | Some hex_color =>
          normalized <- normalize_color hex_color ;;
          match normalized with
          | Some n => if truthy n then Ok (Dict.set result (fst entry) n)
                      else Ok result
          | None => Ok result
          end
      | None => Raise IndexError
      end
  | None => Ok result
  end.

Definition _extract_semantic_vars (css : string) : result (Dict.dict string) :=
  fold_left (semantic_step css) SEMANTIC_VAR_PATTERNS (Ok []).

(** [for match in candidates: normalized = normalize_color(f match);
    if normalized: colors.append(normalized)] *)
Fixpoint append_normalized (f : string -> string) (candidates : list string)
    (colors : list string) : result (list string) :=
  match candidates with
  | [] => Ok colors
  | m :: ms =>
      normalized <- normalize_color (f m) ;;
      match normalized with
      | Some n =>
          if truthy n then append_normalized f ms (colors ++ [n])%list
          else append_normalized f ms colors
      | None => append_normalized f ms colors
      end
  end.

Definition _extract_colors (css : string) : result (list string) :=
  colors <- append_normalized (fun m => "#" ++ m)
              (Re.findall false HEX_PATTERN css) [] ;;
  colors <- append_normalized (fun m => m)
              (Re.findall false RGB_PATTERN css) colors ;;
  append_normalized PyStr.strip (Re.findall false CSS_VAR_PATTERN css) colors.

(** What the page fetcher and the HTML parser hand over: the text of
    [_collect_css], and the [content] attribute of the [theme-color] meta
    tag when the tag has one. *)
Record page : Type := Page {
  all_css : string;
  meta_theme_content : option string
}.

Inductive fetch_result : Type :=
| FetchFailed (message : string)      (* requests.RequestException *)
| Fetched (p : page).

Definition _get_meta_theme_color (p : page) : result (option string) :=
  match meta_theme_content p with
  | Some content =>
      if truthy content then normalize_color content else Ok None
  | None => Ok None
  end.

(** [Counter(colors)] *)
Definition Counter (colors : list string) : Dict.dict Z :=
  fold_left (fun d c => Dict.set d c (Dict.get_default d c 0 + 1)) colors [].

(** [counts.get(c, 0)] *)
Definition count (counts : Dict.dict Z) (c : string) : Z :=
  Dict.get_default counts c 0.

Definition default_palette : Dict.dict string :=
  [ ("primary", "#333333"); ("accent", "#666666"); ("background", "#ffffff");
    ("text", "#000000"); ("theme", "light") ].

(** The values of the dictionary [extract_from_url] returns. *)
Inductive value : Type :=
| VStr (s : string)
| VList (l : list string)
| VCounts (d : Dict.dict Z)
| VBool (b : bool).

Section Classifier.

(** [x ** 2.4], see [ColorUtils.luminance] *)
Variable pow24 : Q -> Q.

Definition very_dark (c : string) : bool := Qltb (luminance pow24 c) 0.1.
Definition very_light (c : string) : bool := Qltb 0.9 (luminance pow24 c).

(** [dark_count > light_count or (dark_colors and not light_colors)] *)
Definition dark_theme (colors : list string) (counts : Dict.dict Z) : bool :=
  let dark_colors := filter very_dark colors in
  let light_colors := filter very_light colors in
  let dark_count := PyList.sum (map (count counts) dark_colors) in
  let light_count := PyList.sum (map (count counts) light_colors) in
  ((light_count <? dark_count)
   || (PyList.nonempty dark_colors && negb (PyList.nonempty light_colors)))%bool.

(** The background of [_classify_colors] (the lines from [sorted_by_lum]
    to [background]). *)
Definition choose_background (colors : list string) (counts : Dict.dict Z)
    : result string :=
  let sorted_by_lum := PyList.sorted Qltb (luminance pow24) colors in
  let dark_colors := filter very_dark colors in
  let light_colors := filter very_light colors in
  let is_dark_theme := dark_theme colors counts in
  if (is_dark_theme && PyList.nonempty dark_colors)%bool then
    PyList.min Qltb (fun c => Ok (luminance pow24 c)) dark_colors
  else if PyList.nonempty light_colors then
    PyList.max Qltb (fun c => Ok (luminance pow24 c)) light_colors
  else if is_dark_theme then PyList.index sorted_by_lum (-1)
  else PyList.index sorted_by_lum 0.

Definition chromatic (background : string) (c : string) : bool :=
  (negb (is_grayscale c) && color_distance_gt c background 50)%bool.

(** The primary colour of [_classify_colors] (the lines from
    [chromatic_colors] to [primary]). *)
Definition choose_primary (colors : list string) (counts : Dict.dict Z)
    (background : string) : result string :=
  let chromatic_colors := filter (chromatic background) colors in
  if PyList.nonempty chromatic_colors then
    PyList.max Z.ltb (fun c => Ok (count counts c)) chromatic_colors
  else
    let non_bg := filter (fun c => negb (String.eqb c background)) colors in
    if PyList.nonempty non_bg then
      PyList.max Z.ltb (fun c => Ok (count counts c)) non_bg
    else Ok "#333333".

(** The accent colour of [_classify_colors] (the lines from
    [accent_candidates] to [accent]). *)
Definition choose_accent (colors : list string) (background primary : string)
    : result string :=
  let chromatic_colors := filter (chromatic background) colors in
  let accent_candidates :=
    filter (fun c => negb (String.eqb c primary)
                     && color_distance_gt c primary 30)%bool
           chromatic_colors in
  if PyList.nonempty accent_candidates then
    PyList.max Qltb saturation accent_candidates
  else Ok primary.

Definition _classify_colors (colors : list string) (counts : Dict.dict Z)
    : result (Dict.dict string) :=
  if negb (PyList.nonempty colors) then Ok default_palette
  else
    let is_dark_theme := dark_theme colors counts in
    background <- choose_background colors counts ;;
    primary <- choose_primary colors counts background ;;
    accent <- choose_accent colors background primary ;;
    let text := if is_dark_theme then "#ffffff" else "#000000" in
    Ok [ ("primary", primary); ("accent", accent);
         ("background", background); ("text", text);
         ("theme", if is_dark_theme then "dark" else "light") ].

(** [d.get(k)] as a truth value: present and not empty. *)
Definition supplied (d : Dict.dict string) (k : string) : option string :=
  match Dict.get d k with
  | Some v => if truthy v then Some v else None
  | None => None
  end.

(** The override of [extract_from_url]: the roles the semantic
    variables supply replace the classified ones. *)
Definition override_semantic (semantic_colors classified : Dict.dict string)
    : Dict.dict string :=
  let classified :=
    match supplied semantic_colors "primary" with
    | Some v => Dict.set classified "primary" v
    | None => classified
    end in
  let classified :=
    match supplied semantic_colors "accent" with
    | Some v => Dict.set classified "accent" v
    | None => classified
    end in
  match supplied semantic_colors "background" with
  | Some v =>
      let classified := Dict.set classified "background" v in
      let theme := if Qltb (luminance pow24 v) 0.5 then "dark" else "light" in
      let classified := Dict.set classified "theme" theme in
      Dict.set classified "text"
               (if String.eqb theme "dark" then "#ffffff" else "#000000")
  | None => classified
  end.

Definition extract_from_url (fetched : fetch_result)
    : result (Dict.dict value) :=
  match fetched with
  | FetchFailed e =>
      Ok [ ("error", VStr e); ("colors", VList []); ("theme", VStr "light") ]
  | Fetched soup =>
      let all_css := all_css soup in
      semantic_colors <- _extract_semantic_vars all_css ;;
      colors <- _extract_colors all_css ;;
      theme_color <- _get_meta_theme_color soup ;;
      let colors :=
        match theme_color with
        | Some t => if truthy t then (colors ++ [t])%list else colors
        | None => colors
        end in
      let color_counts := Counter colors in
      let unique_colors := Dict.keys color_counts in
      classified <- _classify_colors unique_colors color_counts ;;
      let classified := override_semantic semantic_colors classified in
      Ok (Dict.update
            [ ("colors", VList unique_colors);
              ("color_counts", VCounts color_counts);
              ("semantic_vars_found",
               VBool (PyList.nonempty semantic_colors)) ]
            (map (fun kv => (fst kv, VStr (snd kv))) classified))
  end.

End Classifier.

End ColorExtractor.

(** ** The colours of [brand_kit_gen.extract_brand_identity] *)

Module BrandKitGen.

Import ColorExtractor.

(** The colour overrides of the command line. *)
Record args : Type := Args {
  arg_primary : option string;
  arg_accent : option string;
  arg_background : option string
}.

(** The colour fields of [BrandIdentity]. *)
Record BrandIdentity : Type := Brand {
  colors : value;
  primary_color : value;
  accent_color : value;
  background_color : value;
  text_color : value;
  theme : value
}.

(** [override or fallback] *)
Definition or_else (override : option string) (fallback : value) : value :=
  match override with
  | Some s => if truthy s then VStr s else fallback
  | None => fallback
  end.

Definition extract_brand_identity (pow24 : Q -> Q) (fetched : fetch_result)
    (a : args) : result BrandIdentity :=
  color_data <- extract_from_url pow24 fetched ;;
  Ok {| colors := Dict.get_default color_data "colors" (VList []);
        primary_color :=
          or_else (arg_primary a)
                  (Dict.get_default color_data "primary" (VStr "#333333"));
        accent_color :=
          or_else (arg_accent a)
                  (Dict.get_default color_data "accent" (VStr "#666666"));
        background_color :=
          or_else (arg_background a)
                  (Dict.get_default color_data "background" (VStr "#ffffff"));
        text_color := Dict.get_default color_data "text" (VStr "#ffffff");
        theme := Dict.get_default color_data "theme" (VStr "light") |}.

End BrandKitGen.

(** ** [models/brand_identity.py]: the initials of a brand *)

Module Models.

(** [[A-Z][a-z]*] *)
Definition CAMEL_PATTERN : Re.regex :=
  Re.Cat (Re.Class PyStr.isupper) (Re.star PyStr.islower).

(** [(words[0][0] + words[-1][0]).upper()] *)
Definition first_letters (words : list string) : result string :=
  w0 <- PyList.index words 0 ;;
  c0 <- PyStr.first w0 ;;
  w1 <- PyList.index words (-1) ;;
  c1 <- PyStr.first w1 ;;
  Ok (PyStr.upper (String c0 (String c1 EmptyString))).

(** The property [BrandIdentity.initials], of the field [name]. *)
Definition initials (name : string) : result string :=
  let clean_name :=
    PyStr.filter (fun c => PyStr.isalnum c || PyStr.isspace c)%bool name in
  let words := PyStr.split clean_name in
  if (2 <=? List.length words)%nat then first_letters words
  else
    let camel_words := Re.findall false CAMEL_PATTERN clean_name in
    if (2 <=? List.length camel_words)%nat then first_letters camel_words
    else if (2 <=? String.length clean_name)%nat then
      Ok (PyStr.upper (PyStr.slice 0 2 clean_name))
    else
      match PyStr.upper clean_name with
      | EmptyString => Ok "??"
      | u => Ok u
      end.

End Models.

(** ** [extractors/brand_extractor.py]: the name of a domain *)

Module BrandExtractor.

Definition _domain_to_name (domain : string) : result string :=
  name <- PyList.index (PyStr.split_char "." domain) 0 ;;
  if PyStr.existsb (Ascii.eqb "-") name then
    let words := PyStr.split_char "-" name in
    Ok (PyStr.join " " (map PyStr.capitalize words))
  else if PyStr.existsb PyStr.isupper (PyStr.tail name) then
    c <- PyStr.first name ;;
    Ok (String (PyStr.upper_char c) (PyStr.tail name))
  else Ok (PyStr.capitalize name).

End BrandExtractor.

(** ** [generators/html_generator.py]: a colour as [r, g, b] *)

Module HTMLGenerator.

(** [int(s, 16)], raising. *)
Definition int16 (s : string) : result Z :=
  match PyInt.int s 16 with
  | Some v => Ok v
  | None => Raise ValueError
  end.

Definition _hex_to_rgb_str (hex_color : string) : result string :=
  let hex_color := PyStr.lstrip (Ascii.eqb "#") hex_color in
  let hex_color :=
    if Nat.eqb (String.length hex_color) 3
    then PyStr.double_chars hex_color else hex_color in
  r <- int16 (PyStr.slice 0 2 hex_color) ;;
  g <- int16 (PyStr.slice 2 4 hex_color) ;;
  b <- int16 (PyStr.slice 4 6 hex_color) ;;
  Ok (PyInt.str r ++ ", " ++ PyInt.str g ++ ", " ++ PyInt.str b).

End HTMLGenerator.

(** ** [app.py]: the cache of rendered images

    The module keeps one [OrderedDict], oldest entry first; the functions
    take it and return it.  [None] is [KeyError]. *)

Module App.

Section Cache.

(** The images, [bytes] in the program. *)
Variable V : Type.

Definition cache : Type := Dict.dict V.

Definition _CACHE_MAX_SIZE : nat := 50.

(** [del d[k]] for a key that may be missing. *)
Fixpoint remove (d : cache) (k : string) : cache :=
  match d with
  | [] => []
  | (k', v) :: d' => if String.eqb k' k then d' else (k', v) :: remove d' k
  end.

(** [d.move_to_end(k)] *)
Definition move_to_end (d : cache) (k : string) : option cache :=
  match Dict.get d k with
  | Some v => Some (remove d k ++ [(k, v)])%list
  | None => None
  end.

(** [d.popitem(last=False)], the dictionary that is left. *)
Definition popitem_first (d : cache) : option cache :=
  match d with
  | [] => None
  | _ :: d' => Some d'
  end.

(** [while len(d) > _CACHE_MAX_SIZE: d.popitem(last=False)] *)
Fixpoint evict (d : cache) : option cache :=
  match d with
  | [] => Some []
  | _ :: d' =>
      if Nat.ltb _CACHE_MAX_SIZE (List.length d) then
        match popitem_first d with
        | Some _ => evict d'
        | None => None
        end
      else Some d
  end.

(** [_get_cached(key)]: the value found, if any, and the cache after. *)
Definition _get_cached (d : cache) (key : string) : option (option V * cache) :=
  match Dict.get d key with
  | Some _ =>
      match move_to_end d key with
      | Some d' =>
          match Dict.get d' key with
          | Some v => Some (Some v, d')
          | None => None
          end
      | None => None
      end
  | None => Some (None, d)
  end.

(** [_set_cached(key, value)]: the cache after. *)
Definition _set_cached (d : cache) (key : string) (value : V) : option cache :=
  match move_to_end (Dict.set d key value) key with
  | Some d' => evict d'
  | None => None
  end.

End Cache.

End App.

(** ** The vocabulary of the specification *)

(** A colour value: [#] and six lowercase hexadecimal digits. *)
Definition canonical_hex (s : string) : bool :=
  match s with
  | String "#" h =>
      (Nat.eqb (String.length h) 6
       && PyStr.forallb (ColorUtils.char_in "0123456789abcdef") h)%bool
  | _ => false
  end.

(** [p] is the element of [l] a left-to-right scan for the largest key
    keeps: nothing in front of it reaches its key, nothing behind exceeds
    it. *)
Definition first_max {A : Type} (key : A -> Z) (l : list A) (p : A) : Prop :=
  exists l1 l2,
    l = (l1 ++ p :: l2)%list
    /\ (forall x, In x l1 -> key x < key p)
    /\ (forall x, In x l2 -> key x <= key p).

(** A semantic hint maps roles to colours, none of them the empty string. *)
Definition hint_values_nonempty (hint : Dict.dict string) : Prop :=
  forall k v, Dict.get hint k = Some v -> truthy v = true.

(** *** Reading a pattern deterministically

    Three scans describe what the pieces of the semantic patterns accept:
    a literal, the longest run of a class, and the longest run of a class up
    to a bound. *)

(** The text behind the literal [s], when the text starts with it. *)
Fixpoint eat (icase : bool) (s : string) (pv : option ascii) (text : string)
    : option (option ascii * string) :=
  match s with
  | EmptyString => Some (pv, text)
  | String c s' =>
      match text with
      | String x t => if Re.lit_matches icase c x then eat icase s' (Some x) t else None
      | EmptyString => None
      end
  end.

(** The text behind the longest run of characters of the class [p]. *)
Fixpoint skip (p : ascii -> bool) (pv : option ascii) (text : string)
    : option ascii * string :=
  match text with
  | String c t => if p c then skip p (Some c) t else (pv, text)
  | EmptyString => (pv, text)
  end.

(** The same with at most [hi] characters in the run, [n] of them read
    already; also returns the number read. *)
Fixpoint greedy (p : ascii -> bool) (hi : option nat) (n : nat)
    (pv : option ascii) (text : string) : nat * option ascii * string :=
  match text with
  | String c t =>
      if (p c && Re.below n hi)%bool then greedy p hi (S n) (Some c) t
      else (n, pv, text)
  | EmptyString => (n, pv, text)
  end.

(** The keywords of the three roles. *)
Definition role_keywords : list (string * list string) :=
  [ ("primary", ["primary"]);
    ("accent", ["accent"; "secondary"; "highlight"]);
    ("background", ["background"; "bg"]) ].

(** [text] starts with a semantic declaration whose hex literal is [hex]:
    two dashes, optionally [color-], a keyword, characters other than a
    colon, a colon, white space, and [#] with three to six hexadecimal
    digits, as many as there are up to six; letters in either case. *)
Definition declares (keywords : list string) (text hex : string) : Prop :=
  exists dashes color kw tail ws digits rest,
    text = dashes ++ color ++ kw ++ tail ++ ":" ++ ws ++ "#" ++ digits ++ rest
    /\ dashes = "--"
    /\ (color = "" \/ PyStr.lower color = "color-")
    /\ In (PyStr.lower kw) keywords
    /\ PyStr.forallb (ColorExtractor.not_char ":") tail = true
    /\ PyStr.forallb PyStr.isspace ws = true
    /\ PyStr.forallb ColorExtractor.hexdigit digits = true
    /\ (3 <= String.length digits <= 6)%nat
    /\ ((String.length digits < 6)%nat ->
        forall c t, rest = String c t -> ColorExtractor.hexdigit c = false)
    /\ hex = "#" ++ digits.

(** The first place of [css] where a semantic declaration starts, and its
    hex literal. *)
Definition first_declaration (keywords : list string) (css hex : string) : Prop :=
  exists before text,
    css = before ++ text
    /\ declares keywords text hex
    /\ forall before' text' hex',
         css = before' ++ text' ->
         (String.length before' < String.length before)%nat ->
         ~ declares keywords text' hex'.

(** The text behind the literal [s]. *)
Definition after_literal (s text : string) : option string :=
  option_map snd (eat true s None text).

(** The text behind the first of the keywords the text starts with. *)
Fixpoint after_keyword (keywords : list string) (text : string) : option string :=
  match keywords with
  | [] => None
  | kw :: keywords' =>
      match after_literal kw text with
      | Some t => Some t
      | None => after_keyword keywords' text
      end
  end.

(** The text from the first character outside the class [p] on. *)
Definition drop_run (p : ascii -> bool) (text : string) : string :=
  snd (skip p None text).

(** The hex literal at the start of [text]: [#] and the longest run of
    up to six hexadecimal digits, when they are three at least. *)
Definition capture_hex (text : string) : option string :=
  match text with
  | String x t =>
      if Ascii.eqb x "#" then
        let g := greedy ColorExtractor.hexdigit (Some 6%nat) 0 None t in
        if Nat.leb 3 (fst (fst g))
        then Some (PyStr.take_until text (String.length (snd g)))
        else None
      else None
  | EmptyString => None
  end.

(** The hex literal behind the name of a declaration: behind the first
    colon and the white space after it. *)
Definition capture_tail (text : string) : option string :=
  match drop_run (ColorExtractor.not_char ":") text with
  | String _ t => capture_hex (drop_run PyStr.isspace t)
  | EmptyString => None
  end.

(** The hex literal of the semantic declaration [text] starts with. *)
Definition semantic_capture (keywords : list string) (text : string)
    : option string :=
  match after_literal "--" text with
  | Some t1 =>
      let t2 := match after_literal "color-" t1 with
                | Some t => t
                | None => t1
                end in
      match after_keyword keywords t2 with
      | Some t3 => capture_tail t3
      | None => None
      end
  | None => None
  end.

(** The part of a semantic pattern behind the name. *)
Definition tail_pattern (n : nat) : Re.regex :=
  Re.Cat (Re.star (ColorExtractor.not_char ":"))
    (Re.Cat (Re.Lit ":") (Re.Cat (Re.star ColorUtils.space) (Re.Group n ColorExtractor.hex_literal))).

(** [names] reads one of the keywords, and nothing else. *)
Definition reads_keyword (names : Re.regex) (keywords : list string) : Prop :=
  forall gs pv s,
    match after_keyword keywords s with
    | Some t => exists gs' pv', Re.run true names (Re.Cursor gs pv s) = [Re.Cursor gs' pv' t]
    | None => Re.run true names (Re.Cursor gs pv s) = []
    end.

(** No keyword starts as [color-] does. *)
Definition apart_from_color (keywords : list string) : Prop :=
  forall s t, after_literal "color-" s = Some t -> after_keyword keywords s = None.

(** No two keywords of the list start the same text, and all are
    lowercase. *)
Definition keywords_apart (keywords : list string) : Prop :=
  (forall k k' text t,
      In k keywords -> In k' keywords -> k <> k' ->
      after_literal k text = Some t -> after_literal k' text = None)
  /\ forall k, In k keywords -> PyStr.lower k = k.

(** The CSS text contains a custom property whose name contains one of the
    keywords, immediately followed by a hex literal: the condition of the
    specification. *)
Definition names_keyword_property (keywords : list string) (css : string) : Prop :=
  exists before name ws digits rest,
    css = before ++ "--" ++ name ++ ":" ++ ws ++ "#" ++ digits ++ rest
    /\ (exists pre kw post,
           name = pre ++ kw ++ post /\ In (PyStr.lower kw) keywords)
    /\ PyStr.forallb (fun c => PyStr.isword c || ColorExtractor.is_char "-" c)%bool name = true
    /\ PyStr.forallb PyStr.isspace ws = true
    /\ PyStr.forallb ColorExtractor.hexdigit digits = true
    /\ (String.length digits = 3 \/ String.length digits = 6)%nat
    /\ (forall c t, rest = String c t -> ColorExtractor.hexdigit c = false).

(** The comparisons the keys of the program (counts in [Z], luminances
    and saturations in [Q]) satisfy; [ltb b a = false] reads [a <= b]. *)
Class KeyOrder {K : Type} (ltb : K -> K -> bool) : Prop := {
  ltb_trans : forall a b c, ltb a b = true -> ltb b c = true -> ltb a c = true;
  ltb_le_lt : forall a b c, ltb b a = false -> ltb b c = true -> ltb a c = true;
  ltb_lt_le : forall a b c, ltb a b = true -> ltb c b = false -> ltb a c = true;
  ltb_le_le : forall a b c, ltb b a = false -> ltb c b = false -> ltb c a = false;
  ltb_asym : forall a b, ltb a b = true -> ltb b a = false
}.

(** The value of a hexadecimal digit, and of two of them. *)
Definition hex_val (c : ascii) : Z :=
  match PyInt.digit_value 16 c with
  | Some d => d
  | None => 0
  end.

Definition channel (c1 c2 : ascii) : Z := 16 * hex_val c1 + hex_val c2.

(** The hexadecimal digits, of either case. *)
Definition hexdigits : list ascii :=
  list_ascii_of_string "0123456789abcdefABCDEF".

(** ** More vocabulary: characters, saturation, themes, names, matching *)

(** A text of ASCII characters: every code point is below 128. *)
Definition ascii_text (s : string) : bool :=
  PyStr.forallb (fun c => Nat.ltb (PyStr.code c) 128) s.

(** Every character. *)
Definition all_chars_list : list ascii := map ascii_of_nat (seq 0 256).

(** A lower-case hexadecimal digit. *)
Definition lower_hexdigit : ascii -> bool := ColorUtils.char_in "0123456789abcdef".

(** The saturation of a colour, as a number. *)
Definition saturation_of (c : string) : Q :=
  let '(r, g, b) := ColorUtils.hex_to_rgb c in
  let max_c := ColorUtils.max3 r g b in
  let min_c := ColorUtils.min3 r g b in
  if max_c =? 0 then inject_Z 0
  else Qdiv (inject_Z (max_c - min_c)) (inject_Z max_c).

(** The text colour of a palette goes with its theme. *)
Definition text_follows_theme (palette : Dict.dict string) : Prop :=
  (Dict.get palette "theme" = Some "dark"
   /\ Dict.get palette "text" = Some "#ffffff")
  \/ (Dict.get palette "theme" = Some "light"
      /\ Dict.get palette "text" = Some "#000000").

(** The characters in front of the first full stop. *)
Fixpoint first_label (s : string) : string :=
  match s with
  | EmptyString => EmptyString
  | String c t => if Ascii.eqb c "." then EmptyString else String c (first_label t)
  end.

(** The string with a space for every hyphen. *)
Fixpoint hyphens_to_spaces (s : string) : string :=
  match s with
  | EmptyString => EmptyString
  | String c t =>
      String (if Ascii.eqb c "-" then " "%char else c) (hyphens_to_spaces t)
  end.

(** No character is a lower-case letter. *)
Definition no_lowercase (s : string) : bool :=
  PyStr.forallb (fun c => negb (PyStr.islower c)) s.

(** The first way a pattern matches from a cursor. *)
Definition first_way (icase : bool) (r : Re.regex) (cu : Re.cursor)
    : option Re.cursor :=
  hd_error (Re.run icase r cu).

(** Read at the text [t] with the groups [gs], the pattern first matches
    up to the text [t'], with the groups [gs']. *)
Definition reaches (icase : bool) (r : Re.regex)
    (gs : list (nat * string)) (t : string)
    (gs' : list (nat * string)) (t' : string) : Prop :=
  forall pv, exists pv',
    first_way icase r (Re.Cursor gs pv t) = Some (Re.Cursor gs' pv' t').

(** The text does not start with a character of the class. *)
Definition starts_without (p : ascii -> bool) (t : string) : bool :=
  match t with
  | String c _ => negb (p c)
  | EmptyString => true
  end.

(** * Properties *)

(** ** Dictionaries *)

Lemma dict_get_set_same {V : Type} (d : Dict.dict V) (k : string) (v : V) :
  Dict.get (Dict.set d k v) k = Some v.
Proof.
  induction d as [|[k' v'] d IH]; simpl.
  - now rewrite String.eqb_refl.
  - destruct (String.eqb k' k) eqn:E; simpl; rewrite E; auto.
Qed.

Lemma dict_get_set_other {V : Type} (d : Dict.dict V) (k k' : string) (v : V) :
  k' <> k -> Dict.get (Dict.set d k v) k' = Dict.get d k'.
Proof.
  intros Hne. induction d as [|[k0 v0] d IH]; simpl.
  - destruct (String.eqb k k') eqn:E; auto.
    apply String.eqb_eq in E. congruence.
  - destruct (String.eqb k0 k) eqn:E; simpl.
    + apply String.eqb_eq in E. subst k0.
      destruct (String.eqb k k') eqn:E'; auto.
      apply String.eqb_eq in E'. congruence.
    + destruct (String.eqb k0 k'); auto.
Qed.

Lemma Qltb_lt (a b : Q) : ColorUtils.Qltb a b = true <-> (a < b)%Q.
Proof.
  unfold ColorUtils.Qltb. rewrite Qlt_alt.
  destruct (Qcompare a b); split; congruence.
Qed.

Lemma Qltb_ge (a b : Q) : ColorUtils.Qltb a b = false <-> (b <= a)%Q.
Proof.
  rewrite <- Bool.not_true_iff_false, Qltb_lt. split.
  - apply Qnot_lt_le.
  - apply Qle_not_lt.
Qed.

(** ** The override by semantic variables *)

Section Override.

Import ColorExtractor ColorUtils.

Variable pow24 : Q -> Q.

Lemma supplied_nonempty (hint : Dict.dict string) (k v : string) :
  hint_values_nonempty hint -> Dict.get hint k = Some v -> supplied hint k = Some v.
Proof.
  intros Hwf Hget. unfold supplied. rewrite Hget.
  now rewrite (Hwf _ _ Hget).
Qed.

Lemma override_background (hint classified : Dict.dict string) (v : string) :
  supplied hint "background" = Some v ->
  let out := override_semantic pow24 hint classified in
  Dict.get out "background" = Some v
  /\ Dict.get out "theme"
     = Some (if Qltb (luminance pow24 v) 0.5 then "dark" else "light")
  /\ Dict.get out "text"
     = Some (if Qltb (luminance pow24 v) 0.5 then "#ffffff" else "#000000").
Proof.
  intros Hs. cbv zeta. unfold override_semantic. rewrite Hs.
  repeat split.
  - rewrite !dict_get_set_other by discriminate. apply dict_get_set_same.
  - rewrite dict_get_set_other by discriminate. apply dict_get_set_same.
  - rewrite dict_get_set_same. now destruct (Qltb (luminance pow24 v) 0.5).
Qed.

Lemma override_primary (hint classified : Dict.dict string) (v : string) :
  supplied hint "primary" = Some v ->
  Dict.get (override_semantic pow24 hint classified) "primary" = Some v.
Proof.
  intros Hs. unfold override_semantic. rewrite Hs.
  destruct (supplied hint "accent"), (supplied hint "background");
    rewrite ?dict_get_set_other by discriminate; apply dict_get_set_same.
Qed.

Lemma override_accent (hint classified : Dict.dict string) (v : string) :
  supplied hint "accent" = Some v ->
  Dict.get (override_semantic pow24 hint classified) "accent" = Some v.
Proof.
  intros Hs. unfold override_semantic. rewrite Hs.
  destruct (supplied hint "primary"), (supplied hint "background");
    rewrite ?dict_get_set_other by discriminate; apply dict_get_set_same.
Qed.

(** C6. Whatever the classifier derived from the corpus, every role a
    semantic hint supplies (primary, accent, background) has the hint's
    value in the output; and when the background is supplied, theme and text
    come from its luminance alone: dark and [#ffffff] below 0.5, light and
    [#000000] from 0.5 on. *)
Theorem semantic_override_unconditional
    (hint classified : Dict.dict string) :
  hint_values_nonempty hint ->
  let out := override_semantic pow24 hint classified in
  (forall role v,
      In role ["primary"; "accent"; "background"] ->
      Dict.get hint role = Some v -> Dict.get out role = Some v)
  /\ (forall bg,
         Dict.get hint "background" = Some bg ->
         ((luminance pow24 bg < 0.5)%Q ->
          Dict.get out "theme" = Some "dark"
          /\ Dict.get out "text" = Some "#ffffff")
         /\ ((0.5 <= luminance pow24 bg)%Q ->
             Dict.get out "theme" = Some "light"
             /\ Dict.get out "text" = Some "#000000")).
Proof.
  intros Hwf out. split.
  - intros role v Hrole Hget.
    pose proof (supplied_nonempty _ _ _ Hwf Hget) as Hs.
    simpl in Hrole. destruct Hrole as [<-|[<-|[<-|[]]]].
    + now apply override_primary.
    + now apply override_accent.
    + now apply override_background.
  - intros bg Hget.
    pose proof (supplied_nonempty _ _ _ Hwf Hget) as Hs.
    destruct (override_background hint classified bg Hs) as (_ & Hth & Htx).
    fold out in Hth, Htx. split; intros Hl.
    + apply Qltb_lt in Hl. rewrite Hl in Hth, Htx. auto.
    + apply Qltb_ge in Hl. rewrite Hl in Hth, Htx. auto.
Qed.

End Override.

(** ** [min], [max], [sorted] and indexing *)

Section KeyedTotal.

Context {A K : Type}.
Variable ltb : K -> K -> bool.
Variable key : A -> result K.

Lemma max_from_total (l : list A) :
  (forall x, In x l -> exists k, key x = Ok k) ->
  forall best kbest,
  exists r, PyList.max_from ltb key best kbest l = Ok r /\ (r = best \/ In r l).
Proof.
  induction l as [|x l IH]; intros Hkey best kbest; simpl.
  - exists best. auto.
  - destruct (Hkey x (or_introl eq_refl)) as [kx ->]. simpl.
    assert (Hkey' : forall y, In y l -> exists k, key y = Ok k)
      by (intros y Hy; apply Hkey; now right).
    destruct (ltb kbest kx).
    + destruct (IH Hkey' x kx) as (r & -> & [->|Hin]); eauto.
    + destruct (IH Hkey' best kbest) as (r & -> & [->|Hin]); eauto.
Qed.

Lemma max_total (l : list A) :
  (forall x, In x l -> exists k, key x = Ok k) ->
  l <> [] ->
  exists r, PyList.max ltb key l = Ok r /\ In r l.
Proof.
  intros Hkey Hne. destruct l as [|x l]; [congruence|]. simpl.
  destruct (Hkey x (or_introl eq_refl)) as [kx ->]. simpl.
  destruct (max_from_total l (fun y Hy => Hkey y (or_intror Hy)) x kx)
    as (r & -> & [->|Hin]); eauto.
Qed.

Lemma min_from_total (l : list A) :
  (forall x, In x l -> exists k, key x = Ok k) ->
  forall best kbest,
  exists r, PyList.min_from ltb key best kbest l = Ok r /\ (r = best \/ In r l).
Proof.
  induction l as [|x l IH]; intros Hkey best kbest; simpl.
  - exists best. auto.
  - destruct (Hkey x (or_introl eq_refl)) as [kx ->]. simpl.
    assert (Hkey' : forall y, In y l -> exists k, key y = Ok k)
      by (intros y Hy; apply Hkey; now right).
    destruct (ltb kx kbest).
    + destruct (IH Hkey' x kx) as (r & -> & [->|Hin]); eauto.
    + destruct (IH Hkey' best kbest) as (r & -> & [->|Hin]); eauto.
Qed.

Lemma min_total (l : list A) :
  (forall x, In x l -> exists k, key x = Ok k) ->
  l <> [] ->
  exists r, PyList.min ltb key l = Ok r /\ In r l.
Proof.
  intros Hkey Hne. destruct l as [|x l]; [congruence|]. simpl.
  destruct (Hkey x (or_introl eq_refl)) as [kx ->]. simpl.
  destruct (min_from_total l (fun y Hy => Hkey y (or_intror Hy)) x kx)
    as (r & -> & [->|Hin]); eauto.
Qed.

End KeyedTotal.

Lemma nonempty_true {A : Type} (l : list A) :
  PyList.nonempty l = true <-> l <> [].
Proof. destruct l; simpl; split; congruence. Qed.

Lemma nonempty_false {A : Type} (l : list A) :
  PyList.nonempty l = false <-> l = [].
Proof. destruct l; simpl; split; congruence. Qed.

Lemma insert_length {A K : Type} (ltb : K -> K -> bool) (key : A -> K)
    (x : A) (l : list A) :
  List.length (PyList.insert ltb key x l) = S (List.length l).
Proof.
  induction l as [|y l IH]; simpl; auto.
  destruct (ltb (key y) (key x)); simpl; auto.
Qed.

Lemma sorted_length {A K : Type} (ltb : K -> K -> bool) (key : A -> K)
    (l : list A) :
  List.length (PyList.sorted ltb key l) = List.length l.
Proof.
  induction l as [|x l IH]; simpl; auto.
  now rewrite insert_length, IH.
Qed.

Lemma index_first {A : Type} (x : A) (l : list A) :
  PyList.index (x :: l) 0 = Ok x.
Proof.
  unfold PyList.index.
  replace (0 <? 0) with false by reflexivity.
  assert (H : (0 <? Z.of_nat (List.length (x :: l))) = true)
    by (apply Z.ltb_lt; simpl List.length; lia).
  rewrite H. reflexivity.
Qed.

Lemma index_last_total {A : Type} (l : list A) :
  l <> [] -> exists x, PyList.index l (-1) = Ok x.
Proof.
  intros Hne. unfold PyList.index.
  replace (-1 <? 0) with true by reflexivity.
  assert (Hlen : (0 < List.length l)%nat)
    by (destruct l; [congruence | simpl; lia]).
  assert (H1 : (0 <=? -1 + Z.of_nat (List.length l)) = true)
    by (apply Z.leb_le; lia).
  assert (H2 : (-1 + Z.of_nat (List.length l) <? Z.of_nat (List.length l)) = true)
    by (apply Z.ltb_lt; lia).
  rewrite H1, H2. cbn [andb].
  destruct (nth_error l (Z.to_nat (-1 + Z.of_nat (List.length l)))) eqn:E.
  - eexists. reflexivity.
  - apply nth_error_None in E. lia.
Qed.

(** ** The classifier never raises *)

Section ClassifierTotal.

Import ColorExtractor ColorUtils.

Variable pow24 : Q -> Q.

Lemma saturation_total (c : string) : exists q, saturation c = Ok q.
Proof.
  unfold saturation. destruct (hex_to_rgb c) as [[r g] b].
  destruct (max3 r g b =? 0) eqn:E; eauto.
  unfold truediv. rewrite E. eauto.
Qed.

Lemma choose_background_total (colors : list string) (counts : Dict.dict Z) :
  colors <> [] -> exists bg, choose_background pow24 colors counts = Ok bg.
Proof.
  intros Hne. unfold choose_background.
  destruct (dark_theme pow24 colors counts && _)%bool eqn:E1.
  - apply andb_prop in E1 as [_ E1]. apply nonempty_true in E1.
    destruct (min_total Qltb (fun c => Ok (luminance pow24 c))
                (filter (very_dark pow24) colors)) as (r & -> & _);
      [intros; eexists; reflexivity | assumption | eauto].
  - destruct (PyList.nonempty (filter (very_light pow24) colors)) eqn:E2.
    + apply nonempty_true in E2.
      destruct (max_total Qltb (fun c => Ok (luminance pow24 c))
                  (filter (very_light pow24) colors)) as (r & -> & _);
        [intros; eexists; reflexivity | assumption | eauto].
    + assert (Hs : PyList.sorted Qltb (luminance pow24) colors <> []).
      { intros H. apply (f_equal (@List.length _)) in H.
        rewrite sorted_length in H. destruct colors; simpl in H; congruence. }
      destruct (dark_theme pow24 colors counts).
      * now apply index_last_total.
      * destruct (PyList.sorted Qltb (luminance pow24) colors) as [|x s];
          [congruence|]. rewrite index_first. eauto.
Qed.

Lemma choose_primary_total (colors : list string) (counts : Dict.dict Z)
    (bg : string) :
  exists p, choose_primary colors counts bg = Ok p.
Proof.
  unfold choose_primary.
  destruct (PyList.nonempty (filter (chromatic bg) colors)) eqn:E1.
  - apply nonempty_true in E1.
    destruct (max_total Z.ltb (fun c => Ok (count counts c))
                (filter (chromatic bg) colors)) as (r & -> & _);
      [intros; eexists; reflexivity | assumption | eauto].
  - destruct (PyList.nonempty
                (filter (fun c => negb (String.eqb c bg)) colors)) eqn:E2; eauto.
    apply nonempty_true in E2.
    destruct (max_total Z.ltb (fun c => Ok (count counts c))
                (filter (fun c => negb (String.eqb c bg)) colors))
      as (r & -> & _);
      [intros; eexists; reflexivity | assumption | eauto].
Qed.

Lemma choose_accent_total (colors : list string) (bg p : string) :
  exists a, choose_accent colors bg p = Ok a.
Proof.
  unfold choose_accent.
  destruct (PyList.nonempty _) eqn:E; eauto.
  apply nonempty_true in E.
  match goal with
  | |- context [PyList.max _ _ ?l] =>
      destruct (max_total Qltb saturation l) as (r & -> & _);
        [intros x _; apply saturation_total | assumption | eauto]
  end.
Qed.

(** C9. For every list of colours and every table of counts the classifier
    returns, without raising, a palette with the four roles and a theme
    that is [light] or [dark]. *)
Theorem classify_colors_total (colors : list string) (counts : Dict.dict Z) :
  exists primary accent background text theme,
    _classify_colors pow24 colors counts
    = Ok [ ("primary", primary); ("accent", accent);
           ("background", background); ("text", text); ("theme", theme) ]
    /\ (theme = "light" \/ theme = "dark").
Proof.
  unfold _classify_colors.
  destruct colors as [|c colors]; simpl PyList.nonempty; cbv iota.
  - simpl. unfold default_palette. repeat eexists. auto.
  - simpl negb. cbv iota.
    destruct (choose_background_total (c :: colors) counts) as [bg ->];
      [discriminate|].
    simpl bind.
    destruct (choose_primary_total (c :: colors) counts bg) as [p ->].
    simpl bind.
    destruct (choose_accent_total (c :: colors) bg p) as [a ->].
    simpl bind.
    repeat eexists.
    destruct (dark_theme pow24 (c :: colors) counts); auto.
Qed.

(** C7. With no colour in the corpus the classifier returns the default
    palette, whatever the counts; with no semantic hint the override leaves
    it as it is. *)
Theorem classify_empty_corpus (counts : Dict.dict Z) :
  _classify_colors pow24 [] counts
  = Ok [ ("primary", "#333333"); ("accent", "#666666");
         ("background", "#ffffff"); ("text", "#000000"); ("theme", "light") ]
  /\ override_semantic pow24 []
       [ ("primary", "#333333"); ("accent", "#666666");
         ("background", "#ffffff"); ("text", "#000000"); ("theme", "light") ]
     = [ ("primary", "#333333"); ("accent", "#666666");
         ("background", "#ffffff"); ("text", "#000000"); ("theme", "light") ].
Proof. split; reflexivity. Qed.

End ClassifierTotal.

(** ** What the scans of [max], [min] and [sorted] select *)

#[export] Instance KeyOrder_Z : KeyOrder Z.ltb.
Proof.
  split; intros *; rewrite ?Z.ltb_lt, ?Z.ltb_ge; lia.
Qed.

#[export] Instance KeyOrder_Q : KeyOrder ColorUtils.Qltb.
Proof.
  split; intros *; rewrite ?Qltb_lt, ?Qltb_ge.
  - apply Qlt_trans.
  - apply Qle_lt_trans.
  - apply Qlt_le_trans.
  - intros H1 H2. eapply Qle_trans; eauto.
  - apply Qlt_le_weak.
Qed.

Section KeyedOrder.

Context {A K : Type} (ltb : K -> K -> bool) `{KeyOrder K ltb}.
Variable key : A -> K.

Lemma max_from_spec (l : list A) :
  forall best r,
  PyList.max_from ltb (fun x => Ok (key x)) best (key best) l = Ok r ->
  (r = best /\ forall x, In x l -> ltb (key best) (key x) = false)
  \/ exists l1 l2,
       l = (l1 ++ r :: l2)%list
       /\ ltb (key best) (key r) = true
       /\ (forall x, In x l1 -> ltb (key x) (key r) = true)
       /\ (forall x, In x l2 -> ltb (key r) (key x) = false).
Proof.
  induction l as [|x l IH]; intros best r; simpl.
  - intros [= <-]. left. split; [reflexivity | intros ? []].
  - destruct (ltb (key best) (key x)) eqn:E; intros Hr.
    + right. destruct (IH _ _ Hr) as [[-> Hall]|(l1 & l2 & -> & Hlt & H1 & H2)].
      * exists [], l. repeat split; auto; intros ? [].
      * exists (x :: l1), l2. repeat split; auto.
        -- eapply ltb_trans; eauto.
        -- intros y [<-|Hy]; auto.
    + destruct (IH _ _ Hr) as [[-> Hall]|(l1 & l2 & -> & Hlt & H1 & H2)].
      * left. split; auto. intros y [<-|Hy]; auto.
      * right. exists (x :: l1), l2. repeat split; auto.
        intros y [<-|Hy]; auto. eapply ltb_le_lt; eauto.
Qed.

(** [max] returns the first element of the largest key. *)
Lemma max_spec (l : list A) (r : A) :
  PyList.max ltb (fun x => Ok (key x)) l = Ok r ->
  exists l1 l2,
    l = (l1 ++ r :: l2)%list
    /\ (forall x, In x l1 -> ltb (key x) (key r) = true)
    /\ (forall x, In x l2 -> ltb (key r) (key x) = false).
Proof.
  destruct l as [|x l]; simpl; [discriminate|]. intros Hr.
  destruct (max_from_spec _ _ _ Hr) as [[-> Hall]|(l1 & l2 & -> & Hlt & H1 & H2)].
  - exists [], l. repeat split; auto; intros ? [].
  - exists (x :: l1), l2. repeat split; auto. intros y [<-|Hy]; auto.
Qed.

Lemma min_from_spec (l : list A) :
  forall best r,
  PyList.min_from ltb (fun x => Ok (key x)) best (key best) l = Ok r ->
  (r = best /\ forall x, In x l -> ltb (key x) (key best) = false)
  \/ exists l1 l2,
       l = (l1 ++ r :: l2)%list
       /\ ltb (key r) (key best) = true
       /\ (forall x, In x l1 -> ltb (key r) (key x) = true)
       /\ (forall x, In x l2 -> ltb (key x) (key r) = false).
Proof.
  induction l as [|x l IH]; intros best r; simpl.
  - intros [= <-]. left. split; [reflexivity | intros ? []].
  - destruct (ltb (key x) (key best)) eqn:E; intros Hr.
    + right. destruct (IH _ _ Hr) as [[-> Hall]|(l1 & l2 & -> & Hlt & H1 & H2)].
      * exists [], l. repeat split; auto; intros ? [].
      * exists (x :: l1), l2. repeat split; auto.
        -- eapply ltb_trans; eauto.
        -- intros y [<-|Hy]; auto.
    + destruct (IH _ _ Hr) as [[-> Hall]|(l1 & l2 & -> & Hlt & H1 & H2)].
      * left. split; auto. intros y [<-|Hy]; auto.
      * right. exists (x :: l1), l2. repeat split; auto.
        intros y [<-|Hy]; auto. eapply ltb_lt_le; eauto.
Qed.

(** [min] returns the first element of the smallest key. *)
Lemma min_spec (l : list A) (r : A) :
  PyList.min ltb (fun x => Ok (key x)) l = Ok r ->
  exists l1 l2,
    l = (l1 ++ r :: l2)%list
    /\ (forall x, In x l1 -> ltb (key r) (key x) = true)
    /\ (forall x, In x l2 -> ltb (key x) (key r) = false).
Proof.
  destruct l as [|x l]; simpl; [discriminate|]. intros Hr.
  destruct (min_from_spec _ _ _ Hr) as [[-> Hall]|(l1 & l2 & -> & Hlt & H1 & H2)].
  - exists [], l. repeat split; auto; intros ? [].
  - exists (x :: l1), l2. repeat split; auto. intros y [<-|Hy]; auto.
Qed.

Lemma insert_head (x : A) (s : list A) :
  PyList.insert ltb key x s
  = match s with
    | [] => [x]
    | y :: s' =>
        if ltb (key y) (key x) then y :: PyList.insert ltb key x s'
        else x :: s
    end.
Proof. destruct s; reflexivity. Qed.

(** The head of [sorted] is the first element of the smallest key. *)
Lemma sorted_head_spec (l : list A) :
  forall r s,
  PyList.sorted ltb key l = r :: s ->
  exists l1 l2,
    l = (l1 ++ r :: l2)%list
    /\ (forall x, In x l1 -> ltb (key r) (key x) = true)
    /\ (forall x, In x l2 -> ltb (key x) (key r) = false).
Proof.
  induction l as [|x l IH]; intros r s; simpl; [discriminate|].
  rewrite insert_head.
  destruct (PyList.sorted ltb key l) as [|y s'] eqn:Es.
  - intros [= <- <-]. exists [], l. repeat split; try (intros ? []).
    assert (l = []) as ->; [|intros ? []].
    apply (f_equal (@List.length _)) in Es. rewrite sorted_length in Es.
    now destruct l.
  - destruct (IH y s' eq_refl) as (l1 & l2 & -> & H1 & H2).
    destruct (ltb (key y) (key x)) eqn:E; intros [= <- <-].
    + exists (x :: l1), l2. repeat split; auto. intros z [<-|Hz]; auto.
    + exists [], (l1 ++ y :: l2)%list. repeat split; try (intros ? []).
      intros z Hz. apply in_app_or in Hz as [Hz|[<-|Hz]]; auto.
      * eapply ltb_le_le; [exact E|]. apply ltb_asym. auto.
      * eapply ltb_le_le; [exact E|]. auto.
Qed.

End KeyedOrder.

(** ** Background and primary colour *)

Section Selection.

Import ColorExtractor ColorUtils.

Variable pow24 : Q -> Q.

Lemma decomposition_in {A : Type} (l l1 l2 : list A) (r : A) :
  l = (l1 ++ r :: l2)%list -> In r l.
Proof. intros ->. apply in_or_app. right. now left. Qed.

Lemma sum_nil : PyList.sum [] = 0.
Proof. reflexivity. Qed.

(** The cascade of the background as the code has it: the darkest of the
    very dark colours under a dark theme; otherwise the lightest of the very
    light ones; and with neither kind in the corpus the theme is light and
    the background is the darkest colour of all. *)
Lemma background_cascade_as_coded (colors : list string) (counts : Dict.dict Z) :
  colors <> [] ->
  exists bg,
    choose_background pow24 colors counts = Ok bg
    /\ let dark_colors := filter (very_dark pow24) colors in
       let light_colors := filter (very_light pow24) colors in
       let is_dark_theme := dark_theme pow24 colors counts in
       (is_dark_theme = true -> dark_colors <> [] ->
        In bg dark_colors
        /\ forall c, In c dark_colors ->
                     (luminance pow24 bg <= luminance pow24 c)%Q)
       /\ ((is_dark_theme = false \/ dark_colors = []) -> light_colors <> [] ->
           In bg light_colors
           /\ forall c, In c light_colors ->
                        (luminance pow24 c <= luminance pow24 bg)%Q)
       /\ (dark_colors = [] -> light_colors = [] ->
           is_dark_theme = false
           /\ In bg colors
           /\ forall c, In c colors ->
                        (luminance pow24 bg <= luminance pow24 c)%Q).
Proof.
  intros Hne.
  destruct (choose_background_total pow24 colors counts Hne) as [bg Hbg].
  exists bg. split; [exact Hbg|]. cbv zeta.
  unfold choose_background in Hbg. repeat split.
  - rewrite H, (proj2 (nonempty_true _) H0) in Hbg. simpl in Hbg.
    apply (min_spec Qltb (luminance pow24)) in Hbg
      as (l1 & l2 & Hl & _ & _).
    eapply decomposition_in; eauto.
  - intros c Hc.
    rewrite H, (proj2 (nonempty_true _) H0) in Hbg. simpl in Hbg.
    apply (min_spec Qltb (luminance pow24)) in Hbg
      as (l1 & l2 & Hl & H1 & H2).
    rewrite Hl in Hc. apply in_app_or in Hc as [Hc|[<-|Hc]].
    + apply Qlt_le_weak, Qltb_lt. auto.
    + apply Qle_refl.
    + apply Qltb_ge. auto.
  - assert (E : (dark_theme pow24 colors counts
                 && PyList.nonempty (filter (very_dark pow24) colors))%bool
                = false).
    { destruct H as [-> | ->]; [reflexivity | apply andb_false_r]. }
    rewrite E, (proj2 (nonempty_true _) H0) in Hbg.
    apply (max_spec Qltb (luminance pow24)) in Hbg
      as (l1 & l2 & Hl & _ & _).
    eapply decomposition_in; eauto.
  - intros c Hc.
    assert (E : (dark_theme pow24 colors counts
                 && PyList.nonempty (filter (very_dark pow24) colors))%bool
                = false).
    { destruct H as [-> | ->]; [reflexivity | apply andb_false_r]. }
    rewrite E, (proj2 (nonempty_true _) H0) in Hbg.
    apply (max_spec Qltb (luminance pow24)) in Hbg
      as (l1 & l2 & Hl & H1 & H2).
    rewrite Hl in Hc. apply in_app_or in Hc as [Hc|[<-|Hc]].
    + apply Qlt_le_weak, Qltb_lt. auto.
    + apply Qle_refl.
    + apply Qltb_ge. auto.
  - unfold dark_theme. rewrite H, H0. reflexivity.
  - assert (Ht : dark_theme pow24 colors counts = false)
      by (unfold dark_theme; rewrite H, H0; reflexivity).
    rewrite Ht, H, H0 in Hbg. simpl in Hbg.
    destruct (PyList.sorted Qltb (luminance pow24) colors) as [|x s] eqn:Es.
    { apply (f_equal (@List.length _)) in Es. rewrite sorted_length in Es.
      destruct colors; [congruence | discriminate]. }
    rewrite index_first in Hbg. injection Hbg as ->.
    apply (sorted_head_spec Qltb) in Es as (l1 & l2 & Hl & _ & _).
    eapply decomposition_in; eauto.
  - intros c Hc.
    assert (Ht : dark_theme pow24 colors counts = false)
      by (unfold dark_theme; rewrite H, H0; reflexivity).
    rewrite Ht, H, H0 in Hbg. simpl in Hbg.
    destruct (PyList.sorted Qltb (luminance pow24) colors) as [|x s] eqn:Es.
    { apply (f_equal (@List.length _)) in Es. rewrite sorted_length in Es.
      destruct colors; [congruence | discriminate]. }
    rewrite index_first in Hbg. injection Hbg as ->.
    apply (sorted_head_spec Qltb) in Es as (l1 & l2 & Hl & H1 & H2).
    rewrite Hl in Hc. apply in_app_or in Hc as [Hc|[<-|Hc]].
    + apply Qlt_le_weak, Qltb_lt. auto.
    + apply Qle_refl.
    + apply Qltb_ge. auto.
Qed.

Lemma first_max_of_max (counts : Dict.dict Z) (l : list string) (p : string) :
  PyList.max Z.ltb (fun c => Ok (count counts c)) l = Ok p ->
  first_max (count counts) l p.
Proof.
  intros Hm. apply (max_spec Z.ltb (count counts)) in Hm
    as (l1 & l2 & Hl & H1 & H2).
  exists l1, l2. repeat split; auto.
  - intros x Hx. apply Z.ltb_lt. auto.
  - intros x Hx. apply Z.ltb_ge. auto.
Qed.

Lemma color_distance_sq_self (c : string) : color_distance_sq c c = 0.
Proof.
  unfold color_distance_sq. destruct (hex_to_rgb c) as [[r g] b].
  rewrite !Z.sub_diag. reflexivity.
Qed.

Lemma chromatic_self (c : string) : chromatic c c = false.
Proof.
  unfold chromatic, color_distance_gt. rewrite color_distance_sq_self.
  apply andb_false_r.
Qed.

Lemma filter_all_false {A : Type} (f : A -> bool) (l : list A) :
  (forall x, In x l -> f x = false) -> filter f l = [].
Proof.
  induction l as [|x l IH]; simpl; intros Hf; auto.
  rewrite (Hf x (or_introl eq_refl)). apply IH. intros y Hy. apply Hf. now right.
Qed.

(** A chromatic colour: the spread of its channels exceeds 10 and its
    distance to the background exceeds 50. *)
Lemma chromatic_spec (bg c : string) :
  chromatic bg c = true
  <-> (let '(r, g, b) := hex_to_rgb c in 10 < max3 r g b - min3 r g b)
      /\ 50 * 50 < color_distance_sq c bg.
Proof.
  unfold chromatic, is_grayscale, is_grayscale_tol, color_distance_gt.
  destruct (hex_to_rgb c) as [[r g] b].
  rewrite andb_true_iff, negb_true_iff, Z.leb_gt, Z.ltb_lt. tauto.
Qed.

Lemma choose_primary_spec (colors : list string) (counts : Dict.dict Z)
    (bg p : string) :
  choose_primary colors counts bg = Ok p ->
  let chromatic_colors := filter (chromatic bg) colors in
  let non_bg := filter (fun c => negb (String.eqb c bg)) colors in
  (chromatic_colors <> [] -> first_max (count counts) chromatic_colors p)
  /\ (chromatic_colors = [] -> non_bg <> [] -> first_max (count counts) non_bg p)
  /\ ((forall c, In c colors -> c = bg) -> p = "#333333").
Proof.
  unfold choose_primary. intros Hp. cbv zeta. repeat split.
  - intros Hc. rewrite (proj2 (nonempty_true _) Hc) in Hp.
    now apply first_max_of_max.
  - intros Hc Hn.
    rewrite Hc, (proj2 (nonempty_true _) Hn) in Hp. simpl in Hp.
    now apply first_max_of_max.
  - intros Hall.
    rewrite (filter_all_false (chromatic bg) colors) in Hp.
    2:{ intros x Hx. rewrite (Hall x Hx). apply chromatic_self. }
    rewrite (filter_all_false _ colors) in Hp.
    2:{ intros x Hx. rewrite (Hall x Hx), String.eqb_refl. reflexivity. }
    simpl in Hp. congruence.
Qed.

(** C8. For a corpus that is not empty, with the background the
    classifier chose: the primary colour is the chromatic colour (spread of
    the channels above 10, distance to the background above 50) of the
    highest count, the first of them in corpus order on a tie; with no
    chromatic colour it is the first colour of the highest count among those
    that differ from the background; and when every colour is the background
    it is [#333333]. *)
Theorem primary_selection (colors : list string) (counts : Dict.dict Z) :
  colors <> [] ->
  exists bg primary palette,
    choose_background pow24 colors counts = Ok bg
    /\ _classify_colors pow24 colors counts = Ok palette
    /\ Dict.get palette "background" = Some bg
    /\ Dict.get palette "primary" = Some primary
    /\ (forall c,
           chromatic bg c = true
           <-> (let '(r, g, b) := hex_to_rgb c in 10 < max3 r g b - min3 r g b)
               /\ 50 * 50 < color_distance_sq c bg)
    /\ let chromatic_colors := filter (chromatic bg) colors in
       let non_bg := filter (fun c => negb (String.eqb c bg)) colors in
       (chromatic_colors <> [] -> first_max (count counts) chromatic_colors primary)
       /\ (chromatic_colors = [] -> non_bg <> [] ->
           first_max (count counts) non_bg primary)
       /\ ((forall c, In c colors -> c = bg) -> primary = "#333333").
Proof.
  intros Hne.
  destruct (choose_background_total pow24 colors counts Hne) as [bg Hbg].
  destruct (choose_primary_total colors counts bg) as [p Hp].
  destruct (choose_accent_total colors bg p) as [a Ha].
  exists bg, p. eexists. split; [exact Hbg|]. split.
  - unfold _classify_colors.
    rewrite (proj2 (nonempty_true _) Hne). simpl negb. cbv iota.
    rewrite Hbg. simpl bind. rewrite Hp. simpl bind. rewrite Ha. simpl bind.
    reflexivity.
  - split; [reflexivity|]. split; [reflexivity|].
    split; [intros c; apply chromatic_spec|].
    now apply choose_primary_spec.
Qed.

End Selection.

(** ** The semantic variables

    The patterns of [_extract_semantic_vars] are read deterministically:
    the matcher is computed piece by piece and related to the declaration
    of the specification. *)

Section SemanticVariables.

Import ColorUtils ColorExtractor.

(** ** Strings *)

Lemma append_assoc (a b c : string) : (a ++ b) ++ c = a ++ (b ++ c).
Proof. induction a as [|x a IH]; simpl; congruence. Qed.

Lemma append_nil_r (a : string) : a ++ "" = a.
Proof. induction a as [|x a IH]; simpl; congruence. Qed.

Lemma length_append (a b : string) :
  String.length (a ++ b) = (String.length a + String.length b)%nat.
Proof. induction a as [|x a IH]; simpl; congruence. Qed.

Lemma substring_all (a b : string) :
  substring 0 (String.length a) (a ++ b) = a.
Proof. induction a as [|x a IH]; simpl; [now destruct b | congruence]. Qed.

Lemma take_until_append (a b : string) :
  PyStr.take_until (a ++ b) (String.length b) = a.
Proof.
  unfold PyStr.take_until. rewrite length_append.
  replace (String.length a + String.length b - String.length b)%nat
    with (String.length a) by lia.
  apply substring_all.
Qed.

Lemma forallb_append (p : ascii -> bool) (a b : string) :
  PyStr.forallb p (a ++ b) = (PyStr.forallb p a && PyStr.forallb p b)%bool.
Proof.
  induction a as [|x a IH]; simpl; auto. rewrite IH. apply andb_assoc.
Qed.

Lemma lower_append (a b : string) :
  PyStr.lower (a ++ b) = PyStr.lower a ++ PyStr.lower b.
Proof. induction a as [|x a IH]; simpl; congruence. Qed.

Lemma lower_length (a : string) : String.length (PyStr.lower a) = String.length a.
Proof. induction a as [|x a IH]; simpl; congruence. Qed.

(** A fact about every character, by enumeration. *)
Ltac all_chars c :=
  destruct c as [[] [] [] [] [] [] [] []]; try reflexivity; try discriminate.

Lemma lower_char_idem (c : ascii) :
  PyStr.lower_char (PyStr.lower_char c) = PyStr.lower_char c.
Proof. all_chars c. Qed.

Lemma lit_matches_lower (c x : ascii) :
  Re.lit_matches true c x = Ascii.eqb (PyStr.lower_char c) (PyStr.lower_char x).
Proof.
  unfold Re.lit_matches. simpl.
  destruct (Ascii.eqb_spec c x) as [->|Hne]; simpl; auto.
  now rewrite Ascii.eqb_refl.
Qed.

(** ** The matcher on the pieces of a pattern *)

Section Matcher.

Variable icase : bool.

Lemma run_lit (s : string) :
  forall cu,
  Re.run icase (Re.lit s) cu
  = match eat icase s (Re.prev cu) (Re.rest cu) with
    | Some (pv, t) => [Re.Cursor (Re.groups cu) pv t]
    | None => []
    end.
Proof.
  induction s as [|c s IH]; intros cu; simpl.
  - now destruct cu.
  - destruct (Re.rest cu) as [|x t]; simpl; auto.
    destruct (Re.lit_matches icase c x); simpl; auto.
    now rewrite app_nil_r, IH.
Qed.

Lemma run_star_then (p : ascii -> bool) (r : Re.regex) :
  (forall gs pv c t, p c = true -> Re.run icase r (Re.Cursor gs pv (String c t)) = []) ->
  forall s n gs pv,
  flat_map (Re.run icase r) (Re.rep_from p 0 None n gs pv s)
  = Re.run icase r (Re.Cursor gs (fst (skip p pv s)) (snd (skip p pv s))).
Proof.
  intros Hr. induction s as [|c s IH]; intros n gs pv; simpl.
  - apply app_nil_r.
  - destruct (p c) eqn:Ep; simpl.
    + rewrite flat_map_app, IH. simpl. rewrite (Hr _ _ _ _ Ep). simpl.
      now rewrite !app_nil_r.
    + apply app_nil_r.
Qed.

Lemma rep_from_greedy (p : ascii -> bool) (lo : nat) (hi : option nat)
    (gs : list (nat * string)) :
  forall s n pv,
  ((lo <= fst (fst (greedy p hi n pv s)))%nat ->
   exists tl,
     Re.rep_from p lo hi n gs pv s
     = Re.Cursor gs (snd (fst (greedy p hi n pv s))) (snd (greedy p hi n pv s)) :: tl)
  /\ ((fst (fst (greedy p hi n pv s)) < lo)%nat ->
      Re.rep_from p lo hi n gs pv s = []).
Proof.
  assert (Hmono : forall s n pv, (n <= fst (fst (greedy p hi n pv s)))%nat).
  { induction s as [|c s IH]; intros n pv; simpl; auto.
    destruct (p c && Re.below n hi)%bool; simpl; auto.
    specialize (IH (S n) (Some c)). lia. }
  induction s as [|c s IH]; intros n pv; simpl.
  - split; intros Hk.
    + apply Nat.leb_le in Hk. rewrite Hk. eauto.
    + apply Nat.leb_gt in Hk. now rewrite Hk.
  - destruct (p c && Re.below n hi)%bool eqn:E; simpl.
    + destruct (IH (S n) (Some c)) as [IH1 IH2]. split; intros Hk.
      * destruct (IH1 Hk) as [tl ->]. simpl. eauto.
      * rewrite (IH2 Hk). simpl.
        specialize (Hmono s (S n) (Some c)).
        assert (Hn : (lo <=? n)%nat = false) by (apply Nat.leb_gt; lia).
        now rewrite Hn.
    + split; intros Hk.
      * apply Nat.leb_le in Hk. rewrite Hk. eauto.
      * apply Nat.leb_gt in Hk. now rewrite Hk.
Qed.

End Matcher.

Lemma skip_indep (p : ascii -> bool) (s : string) (pv pv' : option ascii) :
  snd (skip p pv s) = snd (skip p pv' s).
Proof. destruct s as [|c s]; simpl; auto. destruct (p c); reflexivity. Qed.

Lemma greedy_indep (p : ascii -> bool) (hi : option nat) (n : nat) (s : string)
    (pv pv' : option ascii) :
  fst (fst (greedy p hi n pv s)) = fst (fst (greedy p hi n pv' s))
  /\ snd (greedy p hi n pv s) = snd (greedy p hi n pv' s).
Proof.
  destruct s as [|c s]; simpl; auto.
  destruct (p c && Re.below n hi)%bool; auto.
Qed.

Lemma eat_indep (icase : bool) (s text : string) (pv pv' : option ascii) :
  option_map snd (eat icase s pv text) = option_map snd (eat icase s pv' text).
Proof.
  destruct s as [|c s]; simpl; auto.
Qed.

Lemma run_cat (icase : bool) (r1 r2 : Re.regex) (cu : Re.cursor) :
  Re.run icase (Re.Cat r1 r2) cu
  = flat_map (Re.run icase r2) (Re.run icase r1 cu).
Proof. reflexivity. Qed.

Lemma run_star (icase : bool) (p : ascii -> bool) gs pv s :
  Re.run icase (Re.star p) (Re.Cursor gs pv s) = Re.rep_from p 0 None 0 gs pv s.
Proof. reflexivity. Qed.

Lemma lit_matches_hash (x : ascii) : Re.lit_matches true "#" x = Ascii.eqb x "#".
Proof. all_chars x. Qed.

Lemma lit_matches_colon (x : ascii) :
  Re.lit_matches true ":" x = negb (not_char ":" x).
Proof. all_chars x. Qed.

Lemma space_not_hash (x : ascii) : PyStr.isspace x = true -> Ascii.eqb x "#" = false.
Proof. all_chars x. Qed.

(** *** The hex literal and what follows the name *)

Lemma run_hex_literal (gs : list (nat * string)) (pv : option ascii) (s : string) :
  Re.run true hex_literal (Re.Cursor gs pv s)
  = match s with
    | String x t =>
        if Ascii.eqb x "#"
        then Re.rep_from hexdigit 3 (Some 6%nat) 0 gs (Some x) t
        else []
    | EmptyString => []
    end.
Proof.
  unfold hex_literal. simpl. destruct s as [|x t]; auto.
  rewrite lit_matches_hash. destruct (Ascii.eqb x "#"); simpl; auto.
  apply app_nil_r.
Qed.

Lemma run_hex_group (n : nat) (gs : list (nat * string)) (pv : option ascii)
    (s : string) :
  match capture_hex s with
  | Some hex =>
      exists pv' r tl,
        Re.run true (Re.Group n hex_literal) (Re.Cursor gs pv s)
        = Re.Cursor ((n, hex) :: gs) pv' r :: tl
  | None => Re.run true (Re.Group n hex_literal) (Re.Cursor gs pv s) = []
  end.
Proof.
  cbn [Re.run]. rewrite run_hex_literal. unfold capture_hex.
  destruct s as [|x t]; auto.
  destruct (Ascii.eqb x "#"); auto. cbv zeta.
  destruct (greedy_indep hexdigit (Some 6%nat) 0 t None (Some x)) as [-> ->].
  destruct (rep_from_greedy hexdigit 3 (Some 6%nat) gs t 0%nat (Some x)) as [H1 H2].
  destruct (Nat.leb 3 _) eqn:E.
  - apply Nat.leb_le in E. destruct (H1 E) as [tl ->]. simpl. eauto.
  - apply Nat.leb_gt in E. now rewrite (H2 E).
Qed.

Lemma hex_group_rejects_space (n : nat) gs pv c t :
  PyStr.isspace c = true ->
  Re.run true (Re.Group n hex_literal) (Re.Cursor gs pv (String c t)) = [].
Proof.
  intros Hc. cbn [Re.run]. rewrite run_hex_literal.
  now rewrite (space_not_hash c Hc).
Qed.

Lemma colon_rejects_other (r : Re.regex) gs pv c t :
  not_char ":" c = true ->
  Re.run true (Re.Cat (Re.Lit ":") r) (Re.Cursor gs pv (String c t)) = [].
Proof.
  intros Hc. rewrite run_cat. simpl. rewrite lit_matches_colon, Hc. reflexivity.
Qed.

Lemma run_lit_then (icase : bool) (c : ascii) (r : Re.regex) gs pv x t :
  Re.run icase (Re.Cat (Re.Lit c) r) (Re.Cursor gs pv (String x t))
  = if Re.lit_matches icase c x then Re.run icase r (Re.Cursor gs (Some x) t)
    else [].
Proof.
  rewrite run_cat. simpl. destruct (Re.lit_matches icase c x); simpl; auto.
  apply app_nil_r.
Qed.

Lemma skip_stops (p : ascii -> bool) (s : string) (pv : option ascii) x t :
  snd (skip p pv s) = String x t -> p x = false.
Proof.
  revert pv. induction s as [|c s IH]; intros pv; simpl.
  - discriminate.
  - destruct (p c) eqn:Ec; simpl; eauto. now intros [= <- _].
Qed.

Lemma run_tail_pattern_eq (n : nat) (gs : list (nat * string))
    (pv : option ascii) (s : string) :
  exists pv',
    Re.run true (tail_pattern n) (Re.Cursor gs pv s)
    = match drop_run (not_char ":") s with
      | String _ t =>
          Re.run true (Re.Group n hex_literal)
                 (Re.Cursor gs pv' (drop_run PyStr.isspace t))
      | EmptyString => []
      end.
Proof.
  unfold tail_pattern. rewrite run_cat, run_star.
  rewrite (run_star_then true (not_char ":"))
    by (intros; now apply colon_rejects_other).
  unfold drop_run. rewrite (skip_indep _ s None pv).
  destruct (snd (skip (not_char ":") pv s)) as [|x t] eqn:Es.
  - exists None. reflexivity.
  - apply skip_stops in Es. rewrite run_lit_then, lit_matches_colon, Es.
    cbn [negb]. rewrite run_cat, run_star.
    rewrite (run_star_then true space)
      by (intros; now apply hex_group_rejects_space).
    rewrite (skip_indep _ t None (Some x)). eauto.
Qed.

Lemma run_tail_pattern (n : nat) (gs : list (nat * string)) (pv : option ascii)
    (s : string) :
  match capture_tail s with
  | Some hex =>
      exists pv' r tl,
        Re.run true (tail_pattern n) (Re.Cursor gs pv s)
        = Re.Cursor ((n, hex) :: gs) pv' r :: tl
  | None => Re.run true (tail_pattern n) (Re.Cursor gs pv s) = []
  end.
Proof.
  destruct (run_tail_pattern_eq n gs pv s) as [pv' ->].
  unfold capture_tail.
  destruct (drop_run (not_char ":") s) as [|x t]; [reflexivity|].
  apply run_hex_group.
Qed.

(** *** The name *)

Lemma semantic_pattern_eq (names : Re.regex) (n : nat) :
  semantic_pattern names n
  = Re.Cat (Re.lit "--")
      (Re.Cat (Re.Opt (Re.Group 1 (Re.lit "color-")))
         (Re.Cat names (tail_pattern n))).
Proof. reflexivity. Qed.

Lemma run_lit_after (s : string) gs pv text :
  match after_literal s text with
  | Some t => exists pv', Re.run true (Re.lit s) (Re.Cursor gs pv text) = [Re.Cursor gs pv' t]
  | None => Re.run true (Re.lit s) (Re.Cursor gs pv text) = []
  end.
Proof.
  rewrite run_lit. unfold after_literal. simpl.
  pose proof (eat_indep true s text None pv) as H.
  destruct (eat true s None text) as [[pv0 t0]|], (eat true s pv text) as [[pv1 t1]|];
    simpl in *; try discriminate; eauto.
  injection H as ->. eauto.
Qed.

Lemma run_name_tail (names : Re.regex) (n : nat) (keywords : list string) :
  reads_keyword names keywords ->
  forall gs pv s,
  match after_keyword keywords s with
  | Some t =>
      match capture_tail t with
      | Some hex =>
          exists gs' pv' r tl,
            Re.run true (Re.Cat names (tail_pattern n)) (Re.Cursor gs pv s)
            = Re.Cursor ((n, hex) :: gs') pv' r :: tl
      | None => Re.run true (Re.Cat names (tail_pattern n)) (Re.Cursor gs pv s) = []
      end
  | None => Re.run true (Re.Cat names (tail_pattern n)) (Re.Cursor gs pv s) = []
  end.
Proof.
  intros Hnames gs pv s. rewrite run_cat.
  specialize (Hnames gs pv s).
  destruct (after_keyword keywords s) as [t|].
  - destruct Hnames as (gs' & pv' & ->). cbn [flat_map]. rewrite app_nil_r.
    pose proof (run_tail_pattern n gs' pv' t) as Ht.
    destruct (capture_tail t) as [hex|]; auto.
    destruct Ht as (pv2 & r & tl & ->). eauto.
  - now rewrite Hnames.
Qed.

Lemma run_opt_group_then (icase : bool) (k : nat) (r1 r2 : Re.regex)
    (cu : Re.cursor) :
  Re.run icase (Re.Cat (Re.Opt (Re.Group k r1)) r2) cu
  = (flat_map (Re.run icase r2)
       (map (fun cu' =>
               Re.Cursor ((k, PyStr.take_until (Re.rest cu)
                                 (String.length (Re.rest cu')))
                          :: Re.groups cu')
                         (Re.prev cu') (Re.rest cu'))
            (Re.run icase r1 cu))
     ++ Re.run icase r2 cu)%list.
Proof.
  rewrite run_cat.
  change (Re.run icase (Re.Opt (Re.Group k r1)) cu)
    with (map (fun cu' =>
                 Re.Cursor ((k, PyStr.take_until (Re.rest cu)
                                   (String.length (Re.rest cu')))
                            :: Re.groups cu')
                           (Re.prev cu') (Re.rest cu'))
              (Re.run icase r1 cu) ++ [cu])%list.
  rewrite flat_map_app. cbn [flat_map]. now rewrite app_nil_r.
Qed.

Lemma run_semantic_pattern (names : Re.regex) (n : nat) (keywords : list string) :
  reads_keyword names keywords ->
  apart_from_color keywords ->
  forall pv s,
  match semantic_capture keywords s with
  | Some hex =>
      exists gs' pv' r tl,
        Re.run true (semantic_pattern names n) (Re.Cursor [] pv s)
        = Re.Cursor ((n, hex) :: gs') pv' r :: tl
  | None => Re.run true (semantic_pattern names n) (Re.Cursor [] pv s) = []
  end.
Proof.
  intros Hnames Hapart pv s.
  rewrite semantic_pattern_eq, run_cat. unfold semantic_capture.
  pose proof (run_lit_after "--" [] pv s) as H1.
  destruct (after_literal "--" s) as [t1|]; [|now rewrite H1].
  destruct H1 as [pv1 ->]. cbn [flat_map]. rewrite app_nil_r, run_opt_group_then.
  pose proof (run_lit_after "color-" [] pv1 t1) as H2.
  destruct (after_literal "color-" t1) as [t2|] eqn:E2.
  - destruct H2 as [pv2 ->]. cbn [map flat_map Re.groups Re.prev Re.rest].
    pose proof (run_name_tail names n keywords Hnames [] pv1 t1) as H3.
    rewrite (Hapart _ _ E2) in H3. rewrite H3, !app_nil_r.
    match goal with
    | |- context [Re.run true _ (Re.Cursor ?g pv2 t2)] =>
        pose proof (run_name_tail names n keywords Hnames g pv2 t2) as H4
    end.
    destruct (after_keyword keywords t2) as [t3|]; auto.
  - rewrite H2. cbn [map app flat_map].
    pose proof (run_name_tail names n keywords Hnames [] pv1 t1) as H3.
    destruct (after_keyword keywords t1) as [t3|]; auto.
Qed.

Lemma match_here_semantic (names : Re.regex) (n : nat) (keywords : list string) :
  reads_keyword names keywords ->
  apart_from_color keywords ->
  forall pv s,
  match semantic_capture keywords s with
  | Some hex =>
      exists m,
        Re.match_here true (semantic_pattern names n) pv s = Some m
        /\ Re.last_group m = Some hex
  | None => Re.match_here true (semantic_pattern names n) pv s = None
  end.
Proof.
  intros Hnames Hapart pv s. unfold Re.match_here.
  pose proof (run_semantic_pattern names n keywords Hnames Hapart pv s) as H.
  destruct (semantic_capture keywords s) as [hex|].
  - destruct H as (gs' & pv' & r & tl & ->). eexists. split; reflexivity.
  - now rewrite H.
Qed.

(** *** The search *)

Lemma search_from_leftmost (pattern : Re.regex) (capture : string -> option string) :
  (forall pv s,
      match capture s with
      | Some hex =>
          exists m, Re.match_here true pattern pv s = Some m
                    /\ Re.last_group m = Some hex
      | None => Re.match_here true pattern pv s = None
      end) ->
  forall s pv,
  (Re.search_from true pattern pv s = None
   /\ forall before text, s = before ++ text -> capture text = None)
  \/ exists m hex before text,
       Re.search_from true pattern pv s = Some m
       /\ Re.last_group m = Some hex
       /\ s = before ++ text
       /\ capture text = Some hex
       /\ forall before' text',
            s = before' ++ text' ->
            (String.length before' < String.length before)%nat ->
            capture text' = None.
Proof.
  intros Hcap. induction s as [|c s IH]; intros pv.
  - specialize (Hcap pv ""). simpl.
    destruct (capture "") as [hex|] eqn:E.
    + right. destruct Hcap as (m & -> & Hg).
      exists m, hex, "", "". repeat split; auto. intros ? ? _ Hlt. simpl in Hlt. lia.
    + left. rewrite Hcap. split; auto.
      intros before text Hs. destruct before; [|discriminate].
      simpl in Hs. now subst text.
  - pose proof (Hcap pv (String c s)) as Hc. cbn [Re.search_from].
    destruct (capture (String c s)) as [hex|] eqn:E.
    + right. destruct Hc as (m & -> & Hg).
      exists m, hex, "", (String c s). repeat split; auto.
      intros ? ? _ Hlt. simpl in Hlt. lia.
    + rewrite Hc.
      destruct (IH (Some c)) as [[Hn Hall]|(m & hex & before & text & Hm & Hg & Hs & Ht & Hfirst)].
      * left. split; auto. intros before text Hs.
        destruct before as [|b before]; simpl in Hs.
        -- now subst text.
        -- injection Hs as _ Hs. eauto.
      * right. exists m, hex, (String c before), text. repeat split; auto.
        -- simpl. now rewrite Hs.
        -- intros before' text' Hs' Hlt.
           destruct before' as [|b before']; simpl in Hs'.
           ++ now subst text'.
           ++ injection Hs' as _ Hs'. apply (Hfirst before' text' Hs').
              simpl in Hlt. lia.
Qed.

(** *** Literals and keywords *)

Lemma eat_inv (s : string) :
  forall pv text pv' t,
  eat true s pv text = Some (pv', t) ->
  exists w, text = w ++ t /\ PyStr.lower w = PyStr.lower s.
Proof.
  induction s as [|c s IH]; intros pv text pv' t; simpl.
  - intros [= _ <-]. exists "". auto.
  - destruct text as [|x text]; [discriminate|].
    rewrite lit_matches_lower.
    destruct (Ascii.eqb_spec (PyStr.lower_char c) (PyStr.lower_char x)) as [Hc|];
      [|discriminate].
    intros H. apply IH in H as (w & -> & Hw).
    exists (String x w). simpl. now rewrite Hw, Hc.
Qed.

Lemma eat_lower (w : string) :
  forall s pv t,
  PyStr.lower w = PyStr.lower s ->
  exists pv', eat true s pv (w ++ t) = Some (pv', t).
Proof.
  induction w as [|x w IH]; intros s pv t; destruct s as [|c s]; simpl;
    try discriminate.
  - eauto.
  - intros [= Hx Hw]. rewrite lit_matches_lower, Hx, Ascii.eqb_refl. eauto.
Qed.

Lemma after_literal_inv (s text t : string) :
  after_literal s text = Some t ->
  exists w, text = w ++ t /\ PyStr.lower w = PyStr.lower s.
Proof.
  unfold after_literal. destruct (eat true s None text) as [[pv' t']|] eqn:E;
    [|discriminate].
  simpl. intros [= <-]. eapply eat_inv; eauto.
Qed.

Lemma after_literal_lower (w s t : string) :
  PyStr.lower w = PyStr.lower s -> after_literal s (w ++ t) = Some t.
Proof.
  intros H. unfold after_literal.
  destruct (eat_lower w s None t H) as [pv' ->]. reflexivity.
Qed.

(** Two literals that differ, letter case apart, in their first or in
    their second character do not start the same text. *)
Lemma after_literal_clash (c1 c2 : ascii) (s1 s2 text t : string) :
  PyStr.lower_char c1 <> PyStr.lower_char c2 ->
  after_literal (String c1 s1) text = Some t ->
  after_literal (String c2 s2) text = None.
Proof.
  intros Hne H. apply after_literal_inv in H as (w & -> & Hw).
  destruct w as [|x w]; [discriminate|]. simpl in Hw. injection Hw as Hx _.
  unfold after_literal. simpl. rewrite lit_matches_lower.
  destruct (Ascii.eqb_spec (PyStr.lower_char c2) (PyStr.lower_char x)); auto.
  congruence.
Qed.

Lemma after_literal_clash2 (c d1 d2 : ascii) (s1 s2 text t : string) :
  PyStr.lower_char d1 <> PyStr.lower_char d2 ->
  after_literal (String c (String d1 s1)) text = Some t ->
  after_literal (String c (String d2 s2)) text = None.
Proof.
  intros Hne H. apply after_literal_inv in H as (w & -> & Hw).
  destruct w as [|x [|y w]]; try discriminate. simpl in Hw.
  injection Hw as Hx Hy _.
  unfold after_literal. simpl. rewrite !lit_matches_lower.
  destruct (Ascii.eqb (PyStr.lower_char c) (PyStr.lower_char x)); auto.
  destruct (Ascii.eqb_spec (PyStr.lower_char d2) (PyStr.lower_char y)); auto.
  congruence.
Qed.

Ltac clash :=
  solve [ eapply after_literal_clash; [|eassumption]; discriminate
        | eapply after_literal_clash2; [|eassumption]; discriminate ].

Lemma keywords_apart_primary : keywords_apart ["primary"].
Proof.
  split.
  - intros k k' text t [<-|[]] [<-|[]] Hne; congruence.
  - intros k [<-|[]]. reflexivity.
Qed.

Lemma keywords_apart_accent : keywords_apart ["accent"; "secondary"; "highlight"].
Proof.
  split.
  - intros k k' text t [<-|[<-|[<-|[]]]] [<-|[<-|[<-|[]]]] Hne H;
      try congruence; clash.
  - intros k [<-|[<-|[<-|[]]]]; reflexivity.
Qed.

Lemma keywords_apart_background : keywords_apart ["background"; "bg"].
Proof.
  split.
  - intros k k' text t [<-|[<-|[]]] [<-|[<-|[]]] Hne H; try congruence; clash.
  - intros k [<-|[<-|[]]]; reflexivity.
Qed.

Lemma after_keyword_in (keywords : list string) (k text t : string) :
  keywords_apart keywords ->
  In k keywords ->
  after_literal k text = Some t ->
  after_keyword keywords text = Some t.
Proof.
  intros [Hapart _]. revert Hapart.
  induction keywords as [|k0 keywords IH]; intros Hapart Hin Hk; [destruct Hin|].
  simpl. destruct (string_dec k0 k) as [->|Hne].
  - now rewrite Hk.
  - rewrite (Hapart k k0 text t); auto.
    + destruct Hin as [->|Hin]; [congruence|].
      apply IH; auto. intros a b ? ? Ha Hb. apply Hapart; now right.
    + now left.
Qed.

Lemma after_keyword_inv (keywords : list string) (text t : string) :
  after_keyword keywords text = Some t ->
  exists k, In k keywords /\ after_literal k text = Some t.
Proof.
  induction keywords as [|k0 keywords IH]; simpl; [discriminate|].
  destruct (after_literal k0 text) as [t0|] eqn:E.
  - intros [= <-]. eauto.
  - intros H. destruct (IH H) as (k & Hin & Hk). eauto.
Qed.

Lemma apart_from_color_primary : apart_from_color ["primary"].
Proof.
  intros s t H. simpl.
  now rewrite (after_literal_clash "c" "p" "olor-" "rimary" s t).
Qed.

Lemma apart_from_color_accent : apart_from_color ["accent"; "secondary"; "highlight"].
Proof.
  intros s t H. simpl.
  rewrite (after_literal_clash "c" "a" "olor-" "ccent" s t) by (discriminate || auto).
  rewrite (after_literal_clash "c" "s" "olor-" "econdary" s t) by (discriminate || auto).
  now rewrite (after_literal_clash "c" "h" "olor-" "ighlight" s t).
Qed.

Lemma apart_from_color_background : apart_from_color ["background"; "bg"].
Proof.
  intros s t H. simpl.
  rewrite (after_literal_clash "c" "b" "olor-" "ackground" s t) by (discriminate || auto).
  now rewrite (after_literal_clash "c" "b" "olor-" "g" s t).
Qed.

(** *** The names of the three patterns *)

Lemma run_group (icase : bool) (k : nat) (r : Re.regex) (cu : Re.cursor) :
  Re.run icase (Re.Group k r) cu
  = map (fun cu' =>
           Re.Cursor ((k, PyStr.take_until (Re.rest cu) (String.length (Re.rest cu')))
                      :: Re.groups cu')
                     (Re.prev cu') (Re.rest cu'))
        (Re.run icase r cu).
Proof. reflexivity. Qed.

Lemma run_alt (icase : bool) (r1 r2 : Re.regex) (cu : Re.cursor) :
  Re.run icase (Re.Alt r1 r2) cu = (Re.run icase r1 cu ++ Re.run icase r2 cu)%list.
Proof. reflexivity. Qed.

Lemma reads_primary : reads_keyword (Re.lit "primary") ["primary"].
Proof.
  intros gs pv s. cbn [after_keyword].
  pose proof (run_lit_after "primary" gs pv s) as H.
  destruct (after_literal "primary" s) as [t|]; auto.
  destruct H as [pv' ->]. eauto.
Qed.

Lemma reads_accent :
  reads_keyword
    (Re.Group 2 (Re.Alt (Re.lit "accent")
                        (Re.Alt (Re.lit "secondary") (Re.lit "highlight"))))
    ["accent"; "secondary"; "highlight"].
Proof.
  intros gs pv s. rewrite run_group, !run_alt. cbn [after_keyword].
  pose proof (run_lit_after "accent" gs pv s) as Ha.
  pose proof (run_lit_after "secondary" gs pv s) as Hs.
  pose proof (run_lit_after "highlight" gs pv s) as Hh.
  destruct (after_literal "accent" s) as [t|] eqn:Ea.
  - destruct Ha as [pv' ->].
    assert (E1 : after_literal "secondary" s = None) by clash.
    assert (E2 : after_literal "highlight" s = None) by clash.
    rewrite E1 in Hs. rewrite E2 in Hh. rewrite Hs, Hh. simpl. eauto.
  - rewrite Ha. destruct (after_literal "secondary" s) as [t|] eqn:Es.
    + destruct Hs as [pv' ->].
      assert (E2 : after_literal "highlight" s = None) by clash.
      rewrite E2 in Hh. rewrite Hh. simpl. eauto.
    + rewrite Hs. destruct (after_literal "highlight" s) as [t|] eqn:Eh.
      * destruct Hh as [pv' ->]. simpl. eauto.
      * now rewrite Hh.
Qed.

Lemma reads_background :
  reads_keyword (Re.Group 2 (Re.Alt (Re.lit "background") (Re.lit "bg")))
                ["background"; "bg"].
Proof.
  intros gs pv s. rewrite run_group, !run_alt. cbn [after_keyword].
  pose proof (run_lit_after "background" gs pv s) as Ha.
  pose proof (run_lit_after "bg" gs pv s) as Hb.
  destruct (after_literal "background" s) as [t|] eqn:Ea.
  - destruct Ha as [pv' ->].
    assert (E1 : after_literal "bg" s = None) by clash.
    rewrite E1 in Hb. rewrite Hb. simpl. eauto.
  - rewrite Ha. destruct (after_literal "bg" s) as [t|] eqn:Eb.
    + destruct Hb as [pv' ->]. simpl. eauto.
    + now rewrite Hb.
Qed.

(** *** Runs of a class *)

Lemma skip_inv (p : ascii -> bool) (s : string) :
  forall pv, exists w, s = w ++ snd (skip p pv s) /\ PyStr.forallb p w = true.
Proof.
  induction s as [|c s IH]; intros pv; simpl.
  - exists "". auto.
  - destruct (p c) eqn:Ec.
    + destruct (IH (Some c)) as (w & Hs & Hw).
      exists (String c w). simpl. rewrite Ec, Hw.
      split; [f_equal; exact Hs | reflexivity].
    + exists "". auto.
Qed.

Lemma skip_append (p : ascii -> bool) (w : string) (x : ascii) (t : string) :
  PyStr.forallb p w = true -> p x = false ->
  forall pv, snd (skip p pv (w ++ String x t)) = String x t.
Proof.
  intros Hw Hx. induction w as [|c w IH]; intros pv; simpl.
  - now rewrite Hx.
  - simpl in Hw. apply andb_prop in Hw as [Hc Hw]. rewrite Hc. auto.
Qed.

Lemma greedy_inv (p : ascii -> bool) (h : nat) (s : string) :
  forall n pv,
  exists w,
    s = w ++ snd (greedy p (Some h) n pv s)
    /\ PyStr.forallb p w = true
    /\ fst (fst (greedy p (Some h) n pv s)) = (n + String.length w)%nat
    /\ ((n <= h)%nat -> (fst (fst (greedy p (Some h) n pv s)) <= h)%nat)
    /\ ((fst (fst (greedy p (Some h) n pv s)) < h)%nat ->
        forall c t, snd (greedy p (Some h) n pv s) = String c t -> p c = false).
Proof.
  induction s as [|c s IH]; intros n pv; simpl.
  - exists "". simpl. repeat split; auto; try lia. discriminate.
  - destruct (p c) eqn:Ec; simpl.
    + destruct (Nat.ltb n h) eqn:En; simpl.
      * destruct (IH (S n) (Some c)) as (w & Hs & Hw & Hk & Hle & Hstop).
        exists (String c w). simpl. rewrite Ec, Hw.
        apply Nat.ltb_lt in En.
        repeat split; auto; try congruence; try lia.
      * apply Nat.ltb_ge in En. exists "". simpl.
        repeat split; auto; try lia.
    + exists "". simpl. repeat split; auto; try lia.
      intros _ c' t' [= <- _]. exact Ec.
Qed.

Lemma greedy_append (p : ascii -> bool) (h : nat) (w rest : string) :
  PyStr.forallb p w = true ->
  forall n pv,
  (n + String.length w <= h)%nat ->
  ((n + String.length w < h)%nat -> forall c t, rest = String c t -> p c = false) ->
  fst (fst (greedy p (Some h) n pv (w ++ rest))) = (n + String.length w)%nat
  /\ snd (greedy p (Some h) n pv (w ++ rest)) = rest.
Proof.
  induction w as [|c w IH]; intros Hw n pv Hle Hstop; simpl in *.
  - rewrite Nat.add_0_r in *. destruct rest as [|x rest]; simpl; auto.
    destruct (p x) eqn:Ex; simpl; auto.
    destruct (Nat.ltb n h) eqn:En; simpl; auto.
    apply Nat.ltb_lt in En. rewrite (Hstop En x rest eq_refl) in Ex. discriminate.
  - apply andb_prop in Hw as [Hc Hw]. rewrite Hc. simpl.
    assert (En : Nat.ltb n h = true) by (apply Nat.ltb_lt; lia).
    rewrite En.
    destruct (IH Hw (S n) (Some c)) as [-> ->]; try split; auto; try lia.
    intros Hlt. apply Hstop. lia.
Qed.

(** *** The declaration in words and the capture *)

Lemma lower_dashes (w : string) : PyStr.lower w = "--" -> w = "--".
Proof.
  destruct w as [|x [|y [|z w]]]; try discriminate. simpl.
  intros [= Hx Hy].
  assert (H : forall c, PyStr.lower_char c = "-"%char -> c = "-"%char)
    by (intros c; all_chars c).
  now rewrite (H x Hx), (H y Hy).
Qed.

Lemma not_colon (x : ascii) : not_char ":" x = false -> x = ":"%char.
Proof.
  unfold not_char. rewrite negb_false_iff. intros H.
  symmetry. now apply Ascii.eqb_eq.
Qed.

Lemma capture_hex_inv (text hex : string) :
  capture_hex text = Some hex ->
  exists digits rest,
    text = "#" ++ digits ++ rest
    /\ PyStr.forallb hexdigit digits = true
    /\ (3 <= String.length digits <= 6)%nat
    /\ ((String.length digits < 6)%nat ->
        forall c t, rest = String c t -> hexdigit c = false)
    /\ hex = "#" ++ digits.
Proof.
  unfold capture_hex. destruct text as [|x t]; [discriminate|].
  destruct (Ascii.eqb_spec x "#") as [->|]; [|discriminate]. cbv zeta.
  destruct (greedy_inv hexdigit 6 t 0 None) as (w & Hs & Hw & Hk & Hle & Hstop).
  destruct (Nat.leb 3 _) eqn:E; [|discriminate].
  apply Nat.leb_le in E. intros [= <-].
  exists w, (snd (greedy hexdigit (Some 6%nat) 0 None t)).
  simpl in Hk. rewrite Hk in *. specialize (Hle (Nat.le_0_l _)).
  repeat split; auto; try lia.
  - simpl. congruence.
  - change (String "#" t) with ("#" ++ t). rewrite Hs at 1.
    rewrite <- append_assoc. apply take_until_append.
Qed.

Lemma capture_hex_append (digits rest : string) :
  PyStr.forallb hexdigit digits = true ->
  (3 <= String.length digits <= 6)%nat ->
  ((String.length digits < 6)%nat ->
   forall c t, rest = String c t -> hexdigit c = false) ->
  capture_hex ("#" ++ digits ++ rest) = Some ("#" ++ digits).
Proof.
  intros Hd Hlen Hstop. unfold capture_hex. cbn [append].
  rewrite Ascii.eqb_refl. cbv zeta.
  destruct (greedy_append hexdigit 6 digits rest Hd 0 None) as [E1 E2];
    [simpl; lia | exact Hstop |].
  rewrite E1, E2. cbn [Nat.add].
  assert (E : Nat.leb 3 (String.length digits) = true) by (apply Nat.leb_le; lia).
  rewrite E. f_equal.
  change (String "#" (digits ++ rest)) with (("#" ++ digits) ++ rest).
  apply take_until_append.
Qed.

Lemma capture_tail_inv (text hex : string) :
  capture_tail text = Some hex ->
  exists tail ws digits rest,
    text = tail ++ ":" ++ ws ++ "#" ++ digits ++ rest
    /\ PyStr.forallb (not_char ":") tail = true
    /\ PyStr.forallb PyStr.isspace ws = true
    /\ PyStr.forallb hexdigit digits = true
    /\ (3 <= String.length digits <= 6)%nat
    /\ ((String.length digits < 6)%nat ->
        forall c t, rest = String c t -> hexdigit c = false)
    /\ hex = "#" ++ digits.
Proof.
  unfold capture_tail, drop_run.
  destruct (skip_inv (not_char ":") text None) as (tail & Ht & Htail).
  destruct (snd (skip (not_char ":") None text)) as [|x t] eqn:Es; [discriminate|].
  apply skip_stops, not_colon in Es. subst x.
  destruct (skip_inv PyStr.isspace t None) as (ws & Hw & Hws).
  intros H. apply capture_hex_inv in H as (digits & rest & Hh & Hd & Hlen & Hstop & ->).
  exists tail, ws, digits, rest. repeat split; auto; try lia.
  rewrite Ht. f_equal. simpl. f_equal. rewrite Hw at 1. now rewrite Hh.
Qed.

Lemma capture_tail_append (tail ws digits rest : string) :
  PyStr.forallb (not_char ":") tail = true ->
  PyStr.forallb PyStr.isspace ws = true ->
  PyStr.forallb hexdigit digits = true ->
  (3 <= String.length digits <= 6)%nat ->
  ((String.length digits < 6)%nat ->
   forall c t, rest = String c t -> hexdigit c = false) ->
  capture_tail (tail ++ ":" ++ ws ++ "#" ++ digits ++ rest) = Some ("#" ++ digits).
Proof.
  intros Htail Hws Hd Hlen Hstop. unfold capture_tail, drop_run.
  change (":" ++ ws ++ "#" ++ digits ++ rest)
    with (String ":" (ws ++ String "#" (digits ++ rest))).
  rewrite (skip_append (not_char ":") tail) by auto.
  rewrite (skip_append PyStr.isspace ws) by auto.
  now apply capture_hex_append.
Qed.

Lemma capture_declares (keywords : list string) (text hex : string) :
  keywords_apart keywords ->
  semantic_capture keywords text = Some hex ->
  declares keywords text hex.
Proof.
  intros [_ Hlow]. unfold semantic_capture.
  destruct (after_literal "--" text) as [t1|] eqn:E1; [|discriminate].
  apply after_literal_inv in E1 as (dashes & -> & Hd).
  apply lower_dashes in Hd.
  assert (Hcolor : exists color t2,
             t1 = color ++ t2
             /\ (color = "" \/ PyStr.lower color = "color-")
             /\ match after_literal "color-" t1 with
                | Some t => t
                | None => t1
                end = t2).
  { destruct (after_literal "color-" t1) as [t2|] eqn:E2.
    - apply after_literal_inv in E2 as (color & -> & Hc). eauto 6.
    - exists "", t1. auto. }
  destruct Hcolor as (color & t2 & -> & Hcolor & ->).
  destruct (after_keyword keywords t2) as [t3|] eqn:E3; [|discriminate].
  apply after_keyword_inv in E3 as (k & Hin & Hk).
  apply after_literal_inv in Hk as (kw & -> & Hkw).
  rewrite (Hlow k Hin) in Hkw.
  intros H.
  apply capture_tail_inv in H
    as (tail & ws & digits & rest & -> & Htail & Hws & Hdig & Hlen & Hstop & ->).
  exists dashes, color, kw, tail, ws, digits, rest.
  repeat split; auto; try lia. now rewrite Hkw.
Qed.

Lemma declares_capture (keywords : list string) (text hex : string) :
  keywords_apart keywords ->
  apart_from_color keywords ->
  declares keywords text hex ->
  semantic_capture keywords text = Some hex.
Proof.
  intros Hkeys Hapart
    (dashes & color & kw & tail & ws & digits & rest
     & -> & -> & Hcolor & Hin & Htail & Hws & Hdig & Hlen & Hstop & ->).
  unfold semantic_capture.
  rewrite (after_literal_lower "--" "--") by reflexivity.
  set (t3 := tail ++ ":" ++ ws ++ "#" ++ digits ++ rest).
  assert (Hkw : forall t, after_keyword keywords (kw ++ t) = Some t).
  { intros t. apply (after_keyword_in keywords (PyStr.lower kw)); auto.
    apply after_literal_lower. destruct Hkeys as [_ Hlow].
    now rewrite (Hlow _ Hin). }
  destruct Hcolor as [->|Hcolor].
  - change ("" ++ kw ++ t3) with (kw ++ t3).
    destruct (after_literal "color-" (kw ++ t3)) as [t|] eqn:E.
    + apply Hapart in E. rewrite Hkw in E. discriminate.
    + rewrite Hkw. now apply capture_tail_append.
  - rewrite (after_literal_lower color "color-") by exact Hcolor.
    rewrite Hkw. now apply capture_tail_append.
Qed.

Lemma capture_iff_declares (keywords : list string) (text hex : string) :
  keywords_apart keywords ->
  apart_from_color keywords ->
  semantic_capture keywords text = Some hex <-> declares keywords text hex.
Proof.
  intros Hkeys Hapart. split.
  - now apply capture_declares.
  - now apply declares_capture.
Qed.

(** ** Normalization of a hex literal *)

Lemma forallb_impl (p q : ascii -> bool) (s : string) :
  (forall c, p c = true -> q c = true) ->
  PyStr.forallb p s = true -> PyStr.forallb q s = true.
Proof.
  intros Hpq. induction s as [|c s IH]; simpl; auto.
  intros H. apply andb_prop in H as [Hc Hs]. now rewrite (Hpq c Hc), IH.
Qed.

Lemma rstrip_no_space (p : ascii -> bool) (s : string) :
  PyStr.forallb (fun c => negb (p c)) s = true -> PyStr.rstrip p s = s.
Proof.
  induction s as [|c s IH]; simpl; auto.
  intros H. apply andb_prop in H as [Hc Hs]. rewrite (IH Hs).
  apply negb_true_iff in Hc. rewrite Hc. now destruct s.
Qed.

Lemma lstrip_first (p : ascii -> bool) (c : ascii) (s : string) :
  p c = false -> PyStr.lstrip p (String c s) = String c s.
Proof. intros H. simpl. now rewrite H. Qed.

Lemma strip_no_space (s : string) :
  PyStr.forallb (fun c => negb (PyStr.isspace c)) s = true -> PyStr.strip s = s.
Proof.
  intros H. unfold PyStr.strip.
  assert (Hl : PyStr.lstrip PyStr.isspace s = s).
  { destruct s as [|c s]; auto. simpl in H. apply andb_prop in H as [Hc _].
    apply negb_true_iff in Hc. now apply lstrip_first. }
  rewrite Hl. now apply rstrip_no_space.
Qed.

Lemma hexdigit_not_space (c : ascii) :
  hexdigit c = true -> negb (PyStr.isspace c) = true.
Proof. all_chars c. Qed.

Lemma hexdigit_lower (c : ascii) :
  hexdigit c = true -> char_in "0123456789abcdef" (PyStr.lower_char c) = true.
Proof. all_chars c. Qed.

Lemma lower_hexdigit_fixed (c : ascii) :
  char_in "0123456789abcdef" c = true ->
  negb (PyStr.isspace c) = true /\ PyStr.lower_char c = c
  /\ Ascii.eqb "#" c = false /\ hexdigit c = true.
Proof. all_chars c; repeat split. Qed.

Lemma forallb_lower (p q : ascii -> bool) (s : string) :
  (forall c, p c = true -> q (PyStr.lower_char c) = true) ->
  PyStr.forallb p s = true -> PyStr.forallb q (PyStr.lower s) = true.
Proof.
  intros Hpq. induction s as [|c s IH]; simpl; auto.
  intros H. apply andb_prop in H as [Hc Hs]. now rewrite (Hpq c Hc), IH.
Qed.

Lemma double_chars_length (s : string) :
  String.length (PyStr.double_chars s) = (2 * String.length s)%nat.
Proof. induction s as [|c s IH]; simpl; auto. rewrite IH. lia. Qed.

Lemma double_chars_forallb (p : ascii -> bool) (s : string) :
  PyStr.forallb p s = true -> PyStr.forallb p (PyStr.double_chars s) = true.
Proof.
  induction s as [|c s IH]; simpl; auto.
  intros H. apply andb_prop in H as [Hc Hs]. now rewrite Hc, IH.
Qed.

Lemma startswith_hash (s : string) : PyStr.startswith (String "#" s) "#" = true.
Proof.
  unfold PyStr.startswith. simpl.
  destruct (ascii_dec "#" "#"); [now destruct s | congruence].
Qed.

(** What [normalize_color] makes of [#] and a run of hexadecimal digits:
    the digits in lowercase when they are six, each of them twice when they
    are three, nothing otherwise. *)
Lemma normalize_hex_literal (digits : string) :
  PyStr.forallb hexdigit digits = true ->
  digits <> "" ->
  normalize_color ("#" ++ digits)
  = Ok (if Nat.eqb (String.length digits) 3
        then Some ("#" ++ PyStr.double_chars (PyStr.lower digits))
        else if Nat.eqb (String.length digits) 6
             then Some ("#" ++ PyStr.lower digits)
             else None).
Proof.
  intros Hd Hne. unfold normalize_color.
  rewrite strip_no_space.
  2:{ simpl. eapply forallb_impl; [|exact Hd]. apply hexdigit_not_space. }
  change (PyStr.lower ("#" ++ digits)) with (String "#" (PyStr.lower digits)).
  assert (Hlow : PyStr.forallb (char_in "0123456789abcdef") (PyStr.lower digits) = true)
    by (eapply forallb_lower; [|exact Hd]; apply hexdigit_lower).
  assert (Hstrip : PyStr.lstrip (Ascii.eqb "#") (String "#" (PyStr.lower digits))
                   = PyStr.lower digits).
  { destruct digits as [|c digits]; [congruence|].
    cbn [PyStr.lower PyStr.forallb] in Hlow. apply andb_prop in Hlow as [Hc _].
    cbn [PyStr.lstrip PyStr.lower]. rewrite Ascii.eqb_refl.
    destruct (lower_hexdigit_fixed _ Hc) as (_ & _ & -> & _). reflexivity. }
  rewrite startswith_hash, Hstrip, lower_length.
  destruct (Nat.eqb (String.length digits) 3) eqn:E3.
  - rewrite double_chars_length, lower_length.
    apply Nat.eqb_eq in E3. rewrite E3. simpl Nat.eqb. cbn [andb].
    now rewrite double_chars_forallb.
  - cbv iota. rewrite lower_length.
    destruct (Nat.eqb (String.length digits) 6); cbn [andb]; auto.
    now rewrite Hlow.
Qed.

(** ** The semantic hint *)

Lemma append_inj_length (a a' b b' : string) :
  a ++ b = a' ++ b' -> String.length a = String.length a' -> a = a' /\ b = b'.
Proof.
  revert a'. induction a as [|x a IH]; intros [|x' a']; simpl;
    try discriminate; auto.
  intros [= -> H] [= Hl]. destruct (IH _ H Hl) as [-> ->]. auto.
Qed.

Section SemanticHint.

Variable keywords : list string.
Hypothesis Hkeys : keywords_apart keywords.
Hypothesis Hcolor : apart_from_color keywords.

Lemma first_declaration_capture (css hex : string) :
  first_declaration keywords css hex
  <-> exists before text,
        css = before ++ text
        /\ semantic_capture keywords text = Some hex
        /\ forall before' text',
             css = before' ++ text' ->
             (String.length before' < String.length before)%nat ->
             semantic_capture keywords text' = None.
Proof.
  split.
  - intros (before & text & Hs & Hd & Hfirst).
    exists before, text. repeat split; auto.
    + now apply capture_iff_declares.
    + intros before' text' Hs' Hlt.
      destruct (semantic_capture keywords text') as [hex'|] eqn:E; auto.
      apply capture_iff_declares in E; auto.
      now destruct (Hfirst before' text' hex' Hs' Hlt).
  - intros (before & text & Hs & Hc & Hfirst).
    exists before, text. repeat split; auto.
    + now apply capture_iff_declares.
    + intros before' text' hex' Hs' Hlt Hd.
      apply capture_iff_declares in Hd; auto.
      rewrite (Hfirst before' text' Hs' Hlt) in Hd. discriminate.
Qed.

Lemma first_declaration_unique (css hex hex' : string) :
  first_declaration keywords css hex ->
  first_declaration keywords css hex' ->
  hex = hex'.
Proof.
  rewrite !first_declaration_capture.
  intros (b1 & t1 & Hs1 & Hc1 & Hf1) (b2 & t2 & Hs2 & Hc2 & Hf2).
  destruct (Nat.lt_trichotomy (String.length b1) (String.length b2)) as [Hlt|[Heq|Hlt]].
  - rewrite (Hf2 b1 t1 Hs1 Hlt) in Hc1. discriminate.
  - rewrite Hs1 in Hs2. destruct (append_inj_length _ _ _ _ Hs2 Heq) as [_ <-].
    congruence.
  - rewrite (Hf1 b2 t2 Hs2 Hlt) in Hc2. discriminate.
Qed.

Lemma declared_hex_normalizes (text hex : string) :
  declares keywords text hex ->
  exists digits,
    hex = "#" ++ digits
    /\ PyStr.forallb hexdigit digits = true
    /\ (3 <= String.length digits <= 6)%nat
    /\ normalize_color hex
       = Ok (if Nat.eqb (String.length digits) 3
             then Some ("#" ++ PyStr.double_chars (PyStr.lower digits))
             else if Nat.eqb (String.length digits) 6
                  then Some ("#" ++ PyStr.lower digits)
                  else None).
Proof.
  intros (dashes & color & kw & tail & ws & digits & rest
          & _ & _ & _ & _ & _ & _ & Hdig & Hlen & _ & ->).
  exists digits. repeat split; auto; try lia.
  apply normalize_hex_literal; auto.
  intros ->. simpl in Hlen. lia.
Qed.

Lemma normalized_truthy (hex v : string) (text : string) :
  declares keywords text hex ->
  normalize_color hex = Ok (Some v) -> truthy v = true.
Proof.
  intros Hd Hn. destruct (declared_hex_normalizes _ _ Hd) as (digits & _ & _ & _ & Hv).
  rewrite Hv in Hn.
  destruct (Nat.eqb (String.length digits) 3);
    [|destruct (Nat.eqb (String.length digits) 6)]; now inversion Hn.
Qed.

Variables (names : Re.regex) (n : nat).
Hypothesis Hnames : reads_keyword names keywords.

(** One turn of the loop: the role gets the normalized hex literal of the
    first declaration, when there is one and it normalizes; nothing else
    changes. *)
Lemma semantic_step_value (role css : string) (d : Dict.dict string) :
  exists d',
    semantic_step css (Ok d) (role, semantic_pattern names n) = Ok d'
    /\ ((exists hex v,
            first_declaration keywords css hex
            /\ normalize_color hex = Ok (Some v)
            /\ d' = Dict.set d role v)
        \/ ((forall hex v,
                first_declaration keywords css hex ->
                normalize_color hex <> Ok (Some v))
            /\ d' = d)).
Proof.
  unfold semantic_step, Re.search. cbn [bind fst snd].
  destruct (search_from_leftmost (semantic_pattern names n)
              (semantic_capture keywords)
              (match_here_semantic names n keywords Hnames Hcolor) css None)
    as [[-> Hnone]|(m & hex & before & text & -> & -> & Hs & Hc & Hfirst)].
  - exists d. split; auto. right. split; auto.
    intros hex v Hf. apply first_declaration_capture in Hf
      as (before & text & Hs & Hc & _).
    rewrite (Hnone _ _ Hs) in Hc. discriminate.
  - assert (Hf : first_declaration keywords css hex)
      by (apply first_declaration_capture; eauto 6).
    assert (Hd : declares keywords text hex) by now apply capture_iff_declares.
    destruct (declared_hex_normalizes _ _ Hd) as (digits & _ & _ & _ & Hv).
    destruct (normalize_color hex) as [[v|]|e] eqn:En; [| |discriminate].
    + cbn [bind]. rewrite (normalized_truthy hex v text Hd En).
      eexists. split; [reflexivity|]. left. eauto.
    + cbn [bind]. exists d. split; auto. right. split; auto.
      intros hex' v Hf'. rewrite <- (first_declaration_unique _ _ _ Hf Hf').
      congruence.
Qed.

End SemanticHint.

(** The value of a role after its turn of the loop, and of the others. *)
Lemma step_role (keywords : list string) (names : Re.regex) (n : nat)
    (role css : string) (d : Dict.dict string) :
  keywords_apart keywords ->
  apart_from_color keywords ->
  reads_keyword names keywords ->
  Dict.get d role = None ->
  exists d',
    semantic_step css (Ok d) (role, semantic_pattern names n) = Ok d'
    /\ (forall r, r <> role -> Dict.get d' r = Dict.get d r)
    /\ forall v,
         Dict.get d' role = Some v
         <-> exists digits,
               first_declaration keywords css ("#" ++ digits)
               /\ ((String.length digits = 3%nat
                    /\ v = "#" ++ PyStr.double_chars (PyStr.lower digits))
                   \/ (String.length digits = 6%nat
                       /\ v = "#" ++ PyStr.lower digits)).
Proof.
  intros Hkeys Hcolor Hnames Hd.
  assert (Hnorm : forall hex v,
             first_declaration keywords css hex ->
             (normalize_color hex = Ok (Some v)
              <-> exists digits,
                    hex = "#" ++ digits
                    /\ ((String.length digits = 3%nat
                         /\ v = "#" ++ PyStr.double_chars (PyStr.lower digits))
                        \/ (String.length digits = 6%nat
                            /\ v = "#" ++ PyStr.lower digits)))).
  { intros hex v (before & text & _ & Hdec & _).
    destruct (declared_hex_normalizes keywords _ _ Hdec)
      as (digits & -> & _ & _ & ->).
    split.
    - intros Hv. exists digits. split; auto.
      destruct (Nat.eqb_spec (String.length digits) 3) as [E3|E3].
      + left. split; auto. congruence.
      + destruct (Nat.eqb_spec (String.length digits) 6) as [E6|E6];
          [|discriminate].
        right. split; auto. congruence.
    - intros (digits' & [= <-] & [[E ->]|[E ->]]); rewrite E; reflexivity. }
  destruct (semantic_step_value keywords Hkeys Hcolor names n Hnames role css d)
    as (d' & Hstep & [(hex & v0 & Hf & Hn & ->)|[Hno ->]]).
  - eexists. split; [exact Hstep|]. split.
    + intros r Hr. now apply dict_get_set_other.
    + intros v. rewrite dict_get_set_same. split.
      * intros [= <-]. apply (Hnorm hex v0 Hf) in Hn as (digits & -> & Hv). eauto.
      * intros (digits & Hf' & Hv). f_equal.
        pose proof (first_declaration_unique keywords Hkeys Hcolor _ _ _ Hf Hf')
          as ->.
        assert (Hn' : normalize_color ("#" ++ digits) = Ok (Some v))
          by (apply (Hnorm _ v Hf'); eauto).
        congruence.
  - exists d. split; [exact Hstep|]. split; auto.
    intros v. rewrite Hd. split; [discriminate|].
    intros (digits & Hf & Hv). exfalso. apply (Hno _ v Hf).
    apply (Hnorm _ v Hf). eauto.
Qed.

(** C4, as the code has it, for a CSS text of ASCII characters.  For each
    role the hint holds a value exactly when a semantic declaration of the
    role starts somewhere in the CSS text and the hex literal of the first
    one has three or six digits; the value is that literal normalized.  A
    declaration is [--], optionally [color-], the keyword, characters other
    than a colon, a colon, ASCII white space and [#] with three to six
    hexadecimal digits (as many as there are, up to six), letters in either
    case: the keyword comes first in the name, and the value is a hex
    literal. *)
Theorem semantic_hint_first_declaration (css : string) :
  ascii_text css = true ->
  exists hint,
    _extract_semantic_vars css = Ok hint
    /\ forall role keywords,
         In (role, keywords) role_keywords ->
         forall v,
           Dict.get hint role = Some v
           <-> exists digits,
                 first_declaration keywords css ("#" ++ digits)
                 /\ ((String.length digits = 3%nat
                      /\ v = "#" ++ PyStr.double_chars (PyStr.lower digits))
                     \/ (String.length digits = 6%nat
                         /\ v = "#" ++ PyStr.lower digits)).
Proof.
  intros _.
  destruct (step_role ["primary"] (Re.lit "primary") 2 "primary" css []
              keywords_apart_primary apart_from_color_primary reads_primary
              eq_refl) as (d1 & E1 & Ho1 & Hp).
  destruct (step_role ["accent"; "secondary"; "highlight"] _ 3 "accent" css d1
              keywords_apart_accent apart_from_color_accent reads_accent)
    as (d2 & E2 & Ho2 & Ha).
  { now rewrite Ho1. }
  destruct (step_role ["background"; "bg"] _ 3 "background" css d2
              keywords_apart_background apart_from_color_background
              reads_background)
    as (d3 & E3 & Ho3 & Hb).
  { rewrite Ho2, Ho1 by discriminate. reflexivity. }
  exists d3. split.
  - unfold _extract_semantic_vars, SEMANTIC_VAR_PATTERNS. cbn [fold_left].
    rewrite <- E3, <- E2, <- E1. reflexivity.
  - intros role keywords Hin v. simpl in Hin.
    destruct Hin as [[= <- <-]|[[= <- <-]|[[= <- <-]|[]]]].
    + rewrite Ho3, Ho2 by discriminate. apply Hp.
    + rewrite Ho3 by discriminate. apply Ha.
    + apply Hb.
Qed.

(** C4, as stated, fails: the name of [--brand-primary] contains the
    keyword and a hex literal follows it, yet the hint has no primary
    colour. *)
Lemma semantic_hint_needs_leading_keyword :
  names_keyword_property ["primary"] "--brand-primary: #ff0000;"
  /\ _extract_semantic_vars "--brand-primary: #ff0000;" = Ok []
  /\ Dict.get (V := string) [] "primary" = None.
Proof.
  split; [|split; [vm_compute; reflexivity | reflexivity]].
  exists "", "brand-primary", " ", "ff0000", ";".
  repeat split; auto.
  - exists "brand-", "primary", "". split; [reflexivity | now left].
  - intros c t [= <- _]. reflexivity.
Qed.

End SemanticVariables.

(** ** Colours that do not parse *)

Section Fallback.

Import ColorUtils ColorExtractor.

Variable pow24 : Q -> Q.

Lemma hexdigit_cases (c : ascii) : hexdigit c = true -> In c hexdigits.
Proof.
  destruct c as [[] [] [] [] [] [] [] []]; try discriminate; intros _;
    vm_compute; tauto.
Qed.

Lemma int_two_hexdigits (c1 c2 : ascii) :
  hexdigit c1 = true -> hexdigit c2 = true ->
  PyInt.int (String c1 (String c2 "")) 16 = Some (channel c1 c2)
  /\ 0 <= channel c1 c2 <= 255.
Proof.
  intros H1 H2. apply hexdigit_cases in H1. apply hexdigit_cases in H2.
  assert (Hall : List.forallb
                   (fun a =>
                      List.forallb
                        (fun b =>
                           match PyInt.int (String a (String b "")) 16 with
                           | Some v => (v =? channel a b) && (0 <=? v) && (v <=? 255)
                           | None => false
                           end)%bool
                        hexdigits)
                   hexdigits = true) by (vm_compute; reflexivity).
  rewrite forallb_forall in Hall. specialize (Hall c1 H1).
  rewrite forallb_forall in Hall. specialize (Hall c2 H2).
  destruct (PyInt.int (String c1 (String c2 "")) 16) as [v|]; [|discriminate].
  apply andb_prop in Hall as [Hall Hle]. apply andb_prop in Hall as [Heq Hge].
  apply Z.eqb_eq in Heq. apply Z.leb_le in Hge. apply Z.leb_le in Hle.
  subst v. split; [reflexivity | lia].
Qed.

Lemma hex_to_rgb_bad_length (s : string) :
  String.length (PyStr.lstrip (Ascii.eqb "#") s) <> 3%nat ->
  String.length (PyStr.lstrip (Ascii.eqb "#") s) <> 6%nat ->
  hex_to_rgb s = (0, 0, 0).
Proof.
  intros H3 H6. unfold hex_to_rgb.
  apply Nat.eqb_neq in H3. apply Nat.eqb_neq in H6. now rewrite H3, H6.
Qed.

Lemma hex_to_rgb_bad_pair (s : string) :
  let h := PyStr.lstrip (Ascii.eqb "#") s in
  let h6 := if Nat.eqb (String.length h) 3 then PyStr.double_chars h else h in
  PyInt.int (PyStr.slice 0 2 h6) 16 = None
  \/ PyInt.int (PyStr.slice 2 4 h6) 16 = None
  \/ PyInt.int (PyStr.slice 4 6 h6) 16 = None ->
  hex_to_rgb s = (0, 0, 0).
Proof.
  cbv zeta. unfold hex_to_rgb. intros H.
  destruct (negb _); [reflexivity|].
  destruct (PyInt.int (PyStr.slice 0 2 _) 16) as [r|],
           (PyInt.int (PyStr.slice 2 4 _) 16) as [g|],
           (PyInt.int (PyStr.slice 4 6 _) 16) as [b|]; auto.
  destruct H as [H|[H|H]]; discriminate H.
Qed.

Lemma hex_to_rgb_six (c1 c2 c3 c4 c5 c6 : ascii) (s : string) :
  PyStr.lstrip (Ascii.eqb "#") s
  = String c1 (String c2 (String c3 (String c4 (String c5 (String c6 ""))))) ->
  PyStr.forallb hexdigit (PyStr.lstrip (Ascii.eqb "#") s) = true ->
  hex_to_rgb s = (channel c1 c2, channel c3 c4, channel c5 c6).
Proof.
  intros Hs Hd. unfold hex_to_rgb. rewrite Hs in *.
  cbn [PyStr.forallb] in Hd.
  repeat (apply andb_prop in Hd as [? Hd]).
  cbn [String.length Nat.eqb negb PyStr.slice Nat.sub substring].
  destruct (int_two_hexdigits c1 c2) as [-> _]; auto.
  destruct (int_two_hexdigits c3 c4) as [-> _]; auto.
  destruct (int_two_hexdigits c5 c6) as [-> _]; auto.
Qed.

Lemma hex_to_rgb_three (c1 c2 c3 : ascii) (s : string) :
  PyStr.lstrip (Ascii.eqb "#") s = String c1 (String c2 (String c3 "")) ->
  PyStr.forallb hexdigit (PyStr.lstrip (Ascii.eqb "#") s) = true ->
  hex_to_rgb s = (channel c1 c1, channel c2 c2, channel c3 c3).
Proof.
  intros Hs Hd. unfold hex_to_rgb. rewrite Hs in *.
  cbn [PyStr.forallb] in Hd.
  repeat (apply andb_prop in Hd as [? Hd]).
  cbn [String.length Nat.eqb negb PyStr.double_chars PyStr.slice Nat.sub substring].
  destruct (int_two_hexdigits c1 c1) as [-> _]; auto.
  destruct (int_two_hexdigits c2 c2) as [-> _]; auto.
  destruct (int_two_hexdigits c3 c3) as [-> _]; auto.
Qed.

Lemma channel_range (c1 c2 : ascii) :
  hexdigit c1 = true -> hexdigit c2 = true -> 0 <= channel c1 c2 <= 255.
Proof. intros H1 H2. now destruct (int_two_hexdigits c1 c2 H1 H2). Qed.

(** A colour read as black is dark, gray and without saturation. *)
Lemma black_measures (s : string) :
  hex_to_rgb s = (0, 0, 0) ->
  (luminance pow24 s == 0)%Q
  /\ very_dark pow24 s = true
  /\ is_grayscale s = true
  /\ saturation s = Ok (inject_Z 0).
Proof.
  intros H. unfold very_dark, luminance, is_grayscale, is_grayscale_tol, saturation.
  rewrite H. repeat split.
Qed.

(** C10, as the code has it.  [hex_to_rgb] returns [(0, 0, 0)] whenever
    its argument, the leading [#] stripped, has neither three nor six
    characters, or has a pair of characters that [int(pair, 16)] rejects;
    three or six hexadecimal digits, of either case, are read as the
    channels they denote, between 0 and 255.  [saturation] never raises (no
    other measure has an operation that could), and a colour read as
    [(0, 0, 0)] has luminance 0 and counts as very dark and as gray. *)
Theorem hex_to_rgb_fallback :
  (forall s,
      String.length (PyStr.lstrip (Ascii.eqb "#") s) <> 3%nat ->
      String.length (PyStr.lstrip (Ascii.eqb "#") s) <> 6%nat ->
      hex_to_rgb s = (0, 0, 0))
  /\ (forall s,
         let h := PyStr.lstrip (Ascii.eqb "#") s in
         let h6 := if Nat.eqb (String.length h) 3 then PyStr.double_chars h
                   else h in
         PyInt.int (PyStr.slice 0 2 h6) 16 = None
         \/ PyInt.int (PyStr.slice 2 4 h6) 16 = None
         \/ PyInt.int (PyStr.slice 4 6 h6) 16 = None ->
         hex_to_rgb s = (0, 0, 0))
  /\ (forall s c1 c2 c3 c4 c5 c6,
         PyStr.lstrip (Ascii.eqb "#") s
         = String c1 (String c2 (String c3 (String c4 (String c5 (String c6 ""))))) ->
         PyStr.forallb hexdigit (PyStr.lstrip (Ascii.eqb "#") s) = true ->
         hex_to_rgb s = (channel c1 c2, channel c3 c4, channel c5 c6)
         /\ 0 <= channel c1 c2 <= 255
         /\ 0 <= channel c3 c4 <= 255
         /\ 0 <= channel c5 c6 <= 255)
  /\ (forall s c1 c2 c3,
         PyStr.lstrip (Ascii.eqb "#") s = String c1 (String c2 (String c3 "")) ->
         PyStr.forallb hexdigit (PyStr.lstrip (Ascii.eqb "#") s) = true ->
         hex_to_rgb s = (channel c1 c1, channel c2 c2, channel c3 c3)
         /\ 0 <= channel c1 c1 <= 255
         /\ 0 <= channel c2 c2 <= 255
         /\ 0 <= channel c3 c3 <= 255)
  /\ (forall s, exists q, saturation s = Ok q)
  /\ (forall s,
         hex_to_rgb s = (0, 0, 0) ->
         (luminance pow24 s == 0)%Q
         /\ very_dark pow24 s = true
         /\ is_grayscale s = true
         /\ saturation s = Ok (inject_Z 0)).
Proof.
  split; [exact hex_to_rgb_bad_length|].
  split; [exact hex_to_rgb_bad_pair|].
  split.
  { intros s c1 c2 c3 c4 c5 c6 Hs Hd. split; [now apply hex_to_rgb_six|].
    rewrite Hs in Hd. cbn [PyStr.forallb] in Hd.
    repeat (apply andb_prop in Hd as [? Hd]).
    repeat split; apply channel_range; auto. }
  split.
  { intros s c1 c2 c3 Hs Hd. split; [now apply hex_to_rgb_three|].
    rewrite Hs in Hd. cbn [PyStr.forallb] in Hd.
    repeat (apply andb_prop in Hd as [? Hd]).
    repeat split; apply channel_range; auto. }
  split; [exact saturation_total | exact black_measures].
Qed.

(** ** Normalization and the canonical form *)

Lemma canonical_hex_fixed (h : string) :
  canonical_hex h = true -> normalize_color h = Ok (Some h).
Proof.
  unfold canonical_hex. destruct h as [|c digits]; [discriminate|].
  destruct (Ascii.eqb_spec c "#") as [->|Hne].
  2:{ destruct c as [[] [] [] [] [] [] [] []]; try discriminate; congruence. }
  intros H. apply andb_prop in H as [Hlen Hd]. apply Nat.eqb_eq in Hlen.
  assert (Hlow : PyStr.lower digits = digits).
  { clear Hlen. induction digits as [|x digits IH]; simpl in *; auto.
    apply andb_prop in Hd as [Hx Hd].
    destruct (lower_hexdigit_fixed x Hx) as (_ & -> & _). now rewrite IH. }
  change (String "#" digits) with ("#" ++ digits).
  rewrite normalize_hex_literal.
  - rewrite Hlen, Hlow. reflexivity.
  - eapply forallb_impl; [|exact Hd]. intros x Hx.
    now destruct (lower_hexdigit_fixed x Hx) as (_ & _ & _ & ?).
  - intros ->. discriminate.
Qed.

(** A string that starts, white space and letter case apart, with [#]
    normalizes to a canonical colour or to nothing. *)
Lemma normalize_hash_canonical (s h : string) :
  PyStr.startswith (PyStr.lower (PyStr.strip s)) "#" = true ->
  normalize_color s = Ok (Some h) ->
  canonical_hex h = true.
Proof.
  unfold normalize_color. intros ->.
  match goal with
  | |- context [if (Nat.eqb (String.length ?x) 6 && ?f)%bool then _ else _] =>
      destruct (Nat.eqb (String.length x) 6 && f)%bool eqn:E
  end; [|discriminate].
  intros [= <-]. exact E.
Qed.

(** Normalization is idempotent on every string of the hex branch. *)
Lemma normalize_idempotent_hex (s h : string) :
  PyStr.startswith (PyStr.lower (PyStr.strip s)) "#" = true ->
  normalize_color s = Ok (Some h) ->
  normalize_color h = Ok (Some h).
Proof.
  intros Hs Hn. apply canonical_hex_fixed.
  eapply normalize_hash_canonical; eauto.
Qed.

(** The result of the [rgb()] branch is [rgb_to_hex] of three numbers. *)
Lemma parse_rgb_string_form (s h : string) :
  parse_rgb_string s = Ok (Some h) -> exists r g b, h = rgb_to_hex r g b.
Proof.
  unfold parse_rgb_string.
  destruct (Re.search false rgb_pattern s) as [m|]; [|discriminate].
  destruct (int_group m 1) as [r|]; [|discriminate].
  destruct (int_group m 2) as [g|]; [|discriminate].
  destruct (int_group m 3) as [b|]; [|discriminate].
  simpl. intros [= <-]. eauto.
Qed.

(** Channels between 0 and 255 are formatted as a canonical colour. *)
Lemma rgb_to_hex_canonical (r g b : Z) :
  0 <= r <= 255 -> 0 <= g <= 255 -> 0 <= b <= 255 ->
  canonical_hex (rgb_to_hex r g b) = true.
Proof.
  assert (Hbyte : forall z, 0 <= z <= 255 ->
            exists c1 c2,
              PyInt.format_02x z = String c1 (String c2 "")
              /\ char_in "0123456789abcdef" c1 = true
              /\ char_in "0123456789abcdef" c2 = true).
  { intros z Hz.
    assert (Hall : List.forallb
                     (fun n =>
                        match PyInt.format_02x (Z.of_nat n) with
                        | String c1 (String c2 "") =>
                            (char_in "0123456789abcdef" c1
                             && char_in "0123456789abcdef" c2)%bool
                        | _ => false
                        end)
                     (seq 0 256) = true) by (vm_compute; reflexivity).
    rewrite forallb_forall in Hall.
    specialize (Hall (Z.to_nat z)). rewrite Z2Nat.id in Hall by lia.
    assert (Hin : In (Z.to_nat z) (seq 0 256)) by (apply in_seq; lia).
    specialize (Hall Hin).
    destruct (PyInt.format_02x z) as [|c1 [|c2 [|]]]; try discriminate.
    apply andb_prop in Hall as [? ?]. eauto. }
  intros Hr Hg Hb. unfold rgb_to_hex.
  destruct (Hbyte r Hr) as (r1 & r2 & -> & Hr1 & Hr2).
  destruct (Hbyte g Hg) as (g1 & g2 & -> & Hg1 & Hg2).
  destruct (Hbyte b Hb) as (b1 & b2 & -> & Hb1 & Hb2).
  unfold canonical_hex. cbn [append String.length Nat.eqb PyStr.forallb].
  now rewrite Hr1, Hr2, Hg1, Hg2, Hb1, Hb2.
Qed.

(** Every colour the collector emits is a result of [normalize_color]. *)
Lemma append_normalized_values (f : string -> string) (candidates : list string) :
  forall colors out,
  append_normalized f candidates colors = Ok out ->
  (forall c, In c colors -> exists s, normalize_color s = Ok (Some c)) ->
  forall c, In c out -> exists s, normalize_color s = Ok (Some c).
Proof.
  induction candidates as [|m ms IH]; intros colors out; simpl.
  - now intros [= <-].
  - destruct (normalize_color (f m)) as [[n|]|e] eqn:E; simpl; [| |discriminate].
    + destruct (truthy n); intros Hout Hcolors; eapply IH; eauto.
      intros c Hc. apply in_app_or in Hc as [Hc|[<-|[]]]; eauto.
    + intros Hout Hcolors. eapply IH; eauto.
Qed.

Lemma extract_colors_values (css : string) (colors : list string) :
  _extract_colors css = Ok colors ->
  forall c, In c colors -> exists s, normalize_color s = Ok (Some c).
Proof.
  unfold _extract_colors. intros H.
  destruct (append_normalized _ (Re.findall false HEX_PATTERN css) [])
    as [c1|] eqn:E1; [|discriminate].
  simpl in H.
  destruct (append_normalized _ (Re.findall false RGB_PATTERN css) c1)
    as [c2|] eqn:E2; [|discriminate].
  simpl in H.
  eapply append_normalized_values; [exact H|].
  eapply append_normalized_values; [exact E2|].
  eapply append_normalized_values; [exact E1|].
  intros c [].
Qed.

End Fallback.

(** ** A failed page fetch *)

Section FetchFailure.

Import ColorExtractor BrandKitGen.

Variable pow24 : Q -> Q.

(** C2, as the code has it.  When the page fetch fails [extract_from_url]
    returns at once: its result holds the error message, an empty list of
    colours and the theme [light], and none of the roles primary, accent,
    background and text.  [extract_brand_identity] then takes primary
    [#333333], accent [#666666], background [#ffffff] and theme [light] from
    its own defaults when the command line overrides none of them. *)
Theorem fetch_failure_result (message : string) :
  extract_from_url pow24 (FetchFailed message)
  = Ok [ ("error", VStr message); ("colors", VList []); ("theme", VStr "light") ]
  /\ (forall role,
         In role ["primary"; "accent"; "background"; "text"] ->
         Dict.get [ ("error", VStr message); ("colors", VList []);
                    ("theme", VStr "light") ] role = None)
  /\ exists brand,
       extract_brand_identity pow24 (FetchFailed message) (Args None None None)
       = Ok brand
       /\ colors brand = VList []
       /\ primary_color brand = VStr "#333333"
       /\ accent_color brand = VStr "#666666"
       /\ background_color brand = VStr "#ffffff"
       /\ theme brand = VStr "light".
Proof.
  split; [reflexivity|]. split.
  - intros role Hrole. simpl in Hrole.
    destruct Hrole as [<-|[<-|[<-|[<-|[]]]]]; reflexivity.
  - eexists. split; [reflexivity|]. repeat split.
Qed.

End FetchFailure.

(** ** The code at particular inputs *)

Section Evaluations.

Import ColorUtils ColorExtractor BrandKitGen.

(** C2, as stated, fails: after a failed fetch the result of
    [extract_from_url] is not the default palette, it has none of the four
    roles; and the text colour [extract_brand_identity] falls back to is
    [#ffffff], not [#000000]. *)
Lemma fetch_failure_not_default_palette :
  extract_from_url Pow.pow_2_4 (FetchFailed "timed out")
  = Ok [ ("error", VStr "timed out"); ("colors", VList []);
         ("theme", VStr "light") ]
  /\ Dict.get [ ("error", VStr "timed out"); ("colors", VList []);
                ("theme", VStr "light") ] "primary" = None
  /\ Dict.get [ ("error", VStr "timed out"); ("colors", VList []);
                ("theme", VStr "light") ] "text" = None
  /\ exists brand,
       extract_brand_identity Pow.pow_2_4 (FetchFailed "timed out")
         (Args None None None) = Ok brand
       /\ text_color brand = VStr "#ffffff"
       /\ text_color brand <> VStr "#000000".
Proof.
  repeat split. eexists. split; [reflexivity|]. split; [reflexivity|].
  discriminate.
Qed.

(** C1 at a corpus with no very dark and no very light colour: the theme
    is light, [#c0c0c0] is the lightest colour, and the background is
    [#808080], the darkest. *)
Theorem background_without_extremes_is_darkest :
  let colors := ["#808080"; "#c0c0c0"] in
  let counts := Counter colors in
  filter (very_dark Pow.pow_2_4) colors = []
  /\ filter (very_light Pow.pow_2_4) colors = []
  /\ (luminance Pow.pow_2_4 "#808080" < luminance Pow.pow_2_4 "#c0c0c0")%Q
  /\ _classify_colors Pow.pow_2_4 colors counts
     = Ok [ ("primary", "#c0c0c0"); ("accent", "#c0c0c0");
            ("background", "#808080"); ("text", "#000000"); ("theme", "light") ].
Proof. vm_compute. repeat split. Qed.

(** C3 at an [rgb()] form with a channel above 255: the collector emits a
    string of seven hexadecimal digits. *)
Theorem normalize_rgb_channel_overflow :
  normalize_color "rgb(256, 0, 0)" = Ok (Some "#1000000")
  /\ canonical_hex "#1000000" = false
  /\ _extract_colors "a { color: rgb(256, 0, 0) }" = Ok ["#1000000"].
Proof. vm_compute. repeat split. Qed.

(** C5 at the same form: the colour it normalizes to does not normalize
    at all. *)
Theorem normalize_not_idempotent_on_overflow :
  normalize_color "rgb(256, 0, 0)" = Ok (Some "#1000000")
  /\ normalize_color "#1000000" = Ok None.
Proof. vm_compute. split; reflexivity. Qed.

(** Six characters that are no hexadecimal digits: [int] reads a sign or
    a blank in front of a digit, so the colour is not black, may not be a
    gray, and may have channels below zero. *)
Lemma hex_to_rgb_reads_signs_and_blanks :
  hex_to_rgb " 0 f 0" = (0, 15, 0)
  /\ is_grayscale " 0 f 0" = false
  /\ (0 < luminance Pow.pow_2_4 " 0 f 0")%Q
  /\ hex_to_rgb "-1-2-3" = (-1, -2, -3)
  /\ (luminance Pow.pow_2_4 "-1-2-3" < 0)%Q.
Proof. vm_compute. repeat split. Qed.

(** C10, as stated, fails: [#FFF] is no canonical colour and is read as
    white, not as black. *)
Lemma non_canonical_color_not_black :
  canonical_hex "#FFF" = false
  /\ hex_to_rgb "#FFF" = (255, 255, 255)
  /\ (luminance Pow.pow_2_4 "#FFF" == 1)%Q
  /\ very_dark Pow.pow_2_4 "#FFF" = false
  /\ hex_to_rgb "#FFF" <> (0, 0, 0).
Proof. repeat split; try (vm_compute; reflexivity). discriminate. Qed.

End Evaluations.

(** ** Instances of the theorems with hypotheses *)

Section Witnesses.

Import ColorUtils ColorExtractor.

Lemma semantic_hint_first_declaration_witness :
  let css := "--primary: #F00; --color-bg-dark : #1a1a2e" in
  ascii_text css = true
  /\ exists hint,
       _extract_semantic_vars css = Ok hint
       /\ forall role keywords,
            In (role, keywords) role_keywords ->
            forall v,
              Dict.get hint role = Some v
              <-> exists digits,
                    first_declaration keywords css ("#" ++ digits)
                    /\ ((String.length digits = 3%nat
                         /\ v = "#" ++ PyStr.double_chars (PyStr.lower digits))
                        \/ (String.length digits = 6%nat
                            /\ v = "#" ++ PyStr.lower digits)).
Proof.
  intros css.
  assert (Hascii : ascii_text css = true) by reflexivity.
  split; [exact Hascii|].
  exact (semantic_hint_first_declaration css Hascii).
Defined.

Lemma semantic_override_unconditional_witness :
  hint_values_nonempty [("background", "#000000")]
  /\ Dict.get
       (override_semantic Pow.pow_2_4 [("background", "#000000")] default_palette)
       "theme" = Some "dark"
  /\ Dict.get
       (override_semantic Pow.pow_2_4 [("background", "#000000")] default_palette)
       "text" = Some "#ffffff".
Proof.
  assert (Hwf : hint_values_nonempty [("background", "#000000")]).
  { intros k v Hget. cbn [Dict.get] in Hget.
    destruct (String.eqb "background" k); [|discriminate Hget].
    injection Hget as <-. reflexivity. }
  split; [exact Hwf|].
  destruct (semantic_override_unconditional Pow.pow_2_4
              [("background", "#000000")] default_palette Hwf) as [_ H].
  destruct (H "#000000" eq_refl) as [Hdark _].
  apply Hdark. vm_compute. reflexivity.
Defined.

Lemma primary_selection_witness :
  let colors := ["#1a1a2e"; "#e94560"; "#ffffff"] in
  let counts := [("#1a1a2e", 5); ("#e94560", 3); ("#ffffff", 10)] in
  colors <> []
  /\ exists bg primary palette,
       choose_background Pow.pow_2_4 colors counts = Ok bg
       /\ _classify_colors Pow.pow_2_4 colors counts = Ok palette
       /\ Dict.get palette "background" = Some bg
       /\ Dict.get palette "primary" = Some primary
       /\ (forall c,
              chromatic bg c = true
              <-> (let '(r, g, b) := hex_to_rgb c in
                   10 < max3 r g b - min3 r g b)
                  /\ 50 * 50 < color_distance_sq c bg)
       /\ let chromatic_colors := filter (chromatic bg) colors in
          let non_bg := filter (fun c => negb (String.eqb c bg)) colors in
          (chromatic_colors <> [] ->
           first_max (count counts) chromatic_colors primary)
          /\ (chromatic_colors = [] -> non_bg <> [] ->
              first_max (count counts) non_bg primary)
          /\ ((forall c, In c colors -> c = bg) -> primary = "#333333").
Proof.
  intros colors counts.
  assert (Hne : colors <> []) by discriminate.
  split; [exact Hne|].
  exact (primary_selection Pow.pow_2_4 colors counts Hne).
Defined.

End Witnesses.

(** ** Colours and their channels *)

Section ColourRoundTrips.

Import ColorUtils ColorExtractor.

Lemma all_chars_list_complete (c : ascii) : In c all_chars_list.
Proof.
  unfold all_chars_list. rewrite <- (ascii_nat_embedding c).
  apply in_map, in_seq. pose proof (nat_ascii_bounded c). lia.
Qed.

(** A byte is written as the two lower-case digits that read back as it. *)
Lemma format_02x_byte (z : Z) :
  0 <= z <= 255 ->
  exists c1 c2,
    PyInt.format_02x z = String c1 (String c2 "")
    /\ lower_hexdigit c1 = true /\ lower_hexdigit c2 = true
    /\ hexdigit c1 = true /\ hexdigit c2 = true
    /\ channel c1 c2 = z.
Proof.
  intros Hz.
  assert (Hall : List.forallb
            (fun n =>
               match PyInt.format_02x (Z.of_nat n) with
               | String c1 (String c2 "") =>
                   (lower_hexdigit c1 && lower_hexdigit c2
                    && hexdigit c1 && hexdigit c2
                    && (channel c1 c2 =? Z.of_nat n))%bool
               | _ => false
               end)
            (seq 0 256) = true) by (vm_compute; reflexivity).
  rewrite forallb_forall in Hall.
  specialize (Hall (Z.to_nat z)). rewrite Z2Nat.id in Hall by lia.
  assert (Hin : In (Z.to_nat z) (seq 0 256)) by (apply in_seq; lia).
  specialize (Hall Hin).
  destruct (PyInt.format_02x z) as [|c1 [|c2 [|]]]; try discriminate.
  exists c1, c2.
  repeat (apply andb_prop in Hall as [Hall ?]).
  apply Z.eqb_eq in H. auto 10.
Qed.

(** Two lower-case hex digits are the way their value is written. *)
Lemma format_02x_channel (c1 c2 : ascii) :
  lower_hexdigit c1 = true -> lower_hexdigit c2 = true ->
  PyInt.format_02x (channel c1 c2) = String c1 (String c2 "")
  /\ hexdigit c1 = true /\ hexdigit c2 = true.
Proof.
  intros H1 H2.
  assert (Hall : List.forallb
            (fun c1 => List.forallb
               (fun c2 =>
                  implb (lower_hexdigit c1 && lower_hexdigit c2)
                    (String.eqb (PyInt.format_02x (channel c1 c2))
                                (String c1 (String c2 ""))
                     && hexdigit c1 && hexdigit c2))
               all_chars_list) all_chars_list = true)
    by (vm_compute; reflexivity).
  rewrite forallb_forall in Hall.
  specialize (Hall c1 (all_chars_list_complete c1)).
  rewrite forallb_forall in Hall.
  specialize (Hall c2 (all_chars_list_complete c2)).
  rewrite H1, H2 in Hall. cbn [andb implb] in Hall.
  repeat (apply andb_prop in Hall as [Hall ?]).
  apply String.eqb_eq in Hall. auto.
Qed.

Lemma lstrip_hash_digits (s : string) :
  PyStr.forallb hexdigit s = true -> PyStr.lstrip (Ascii.eqb "#") s = s.
Proof.
  destruct s as [|c t]; [reflexivity|].
  cbn [PyStr.forallb]. intros H. apply andb_prop in H as [H _].
  unfold PyStr.lstrip; fold PyStr.lstrip.
  destruct (Ascii.eqb "#" c) eqn:E; [|reflexivity].
  apply Ascii.eqb_eq in E. subst c. discriminate H.
Qed.

Lemma lstrip_hash_cons (s : string) :
  PyStr.lstrip (Ascii.eqb "#") (String "#" s) = PyStr.lstrip (Ascii.eqb "#") s.
Proof. reflexivity. Qed.

(** X1. A colour written by [rgb_to_hex] from three bytes is read back by
    [hex_to_rgb] as the same three bytes. *)
Theorem rgb_hex_round_trip (r g b : Z) :
  0 <= r <= 255 -> 0 <= g <= 255 -> 0 <= b <= 255 ->
  hex_to_rgb (rgb_to_hex r g b) = (r, g, b).
Proof.
  intros Hr Hg Hb.
  destruct (format_02x_byte r Hr) as (r1 & r2 & Er & _ & _ & Hr1 & Hr2 & Vr).
  destruct (format_02x_byte g Hg) as (g1 & g2 & Eg & _ & _ & Hg1 & Hg2 & Vg).
  destruct (format_02x_byte b Hb) as (b1 & b2 & Eb & _ & _ & Hb1 & Hb2 & Vb).
  unfold rgb_to_hex. rewrite Er, Eg, Eb. cbn [append].
  assert (Hd : PyStr.forallb hexdigit
            (String r1 (String r2 (String g1 (String g2 (String b1 (String b2 ""))))))
          = true).
  { cbn [PyStr.forallb]. rewrite Hr1, Hr2, Hg1, Hg2, Hb1, Hb2. reflexivity. }
  assert (Hs : PyStr.lstrip (Ascii.eqb "#")
            (String "#" (String r1 (String r2 (String g1 (String g2 (String b1 (String b2 "")))))))
          = String r1 (String r2 (String g1 (String g2 (String b1 (String b2 "")))))).
  { rewrite lstrip_hash_cons. apply lstrip_hash_digits, Hd. }
  rewrite (hex_to_rgb_six r1 r2 g1 g2 b1 b2 _ Hs) by (rewrite Hs; exact Hd).
  rewrite Vr, Vg, Vb. reflexivity.
Qed.

(** A canonical colour has three bytes as channels, and they are written
    back as the colour. *)
Lemma canonical_hex_channels (h : string) :
  canonical_hex h = true ->
  let '(r, g, b) := hex_to_rgb h in
  rgb_to_hex r g b = h
  /\ 0 <= r <= 255 /\ 0 <= g <= 255 /\ 0 <= b <= 255.
Proof.
  intros Hc.
  destruct h as [|c0 h]; [discriminate|].
  unfold canonical_hex in Hc.
  destruct c0 as [[] [] [] [] [] [] [] []]; try discriminate Hc.
  apply andb_prop in Hc as [Hl Hd].
  destruct h as [|c1 [|c2 [|c3 [|c4 [|c5 [|c6 [|]]]]]]]; try discriminate Hl.
  cbn [PyStr.forallb] in Hd.
  repeat (apply andb_prop in Hd as [? Hd]).
  destruct (format_02x_channel c1 c2) as (E1 & ? & ?); auto.
  destruct (format_02x_channel c3 c4) as (E2 & ? & ?); auto.
  destruct (format_02x_channel c5 c6) as (E3 & ? & ?); auto.
  assert (Hd' : PyStr.forallb hexdigit
            (String c1 (String c2 (String c3 (String c4 (String c5 (String c6 ""))))))
          = true).
  { cbn [PyStr.forallb].
    repeat match goal with H : hexdigit _ = true |- _ => rewrite H; clear H end.
    reflexivity. }
  assert (Hs : PyStr.lstrip (Ascii.eqb "#")
            (String "#" (String c1 (String c2 (String c3 (String c4 (String c5 (String c6 "")))))))
          = String c1 (String c2 (String c3 (String c4 (String c5 (String c6 "")))))).
  { rewrite lstrip_hash_cons. apply lstrip_hash_digits, Hd'. }
  change (Ascii false false false false false true false false) with "#"%char. 
  rewrite (hex_to_rgb_six c1 c2 c3 c4 c5 c6 _ Hs) by (rewrite Hs; exact Hd').
  unfold rgb_to_hex. rewrite E1, E2, E3.
  split; [reflexivity|].
  cbn [PyStr.forallb] in Hd'.
  repeat (apply andb_prop in Hd' as [? Hd']).
  repeat split; apply channel_range; auto.
Qed.

(** X2. A canonical colour, [#] and six lower-case hexadecimal digits, is
    written back as itself from the channels [hex_to_rgb] reads in it. *)
Theorem hex_rgb_round_trip (h : string) :
  canonical_hex h = true ->
  let '(r, g, b) := hex_to_rgb h in rgb_to_hex r g b = h.
Proof.
  intros Hc. pose proof (canonical_hex_channels h Hc) as H.
  destruct (hex_to_rgb h) as [[r g] b]. apply H.
Qed.

Lemma for_all_chars (p : ascii -> bool) :
  List.forallb p all_chars_list = true -> forall c, p c = true.
Proof.
  intros H c. rewrite forallb_forall in H.
  apply H, all_chars_list_complete.
Qed.

(** Letter case does not change the value of a digit. *)
Lemma hex_val_lower (c : ascii) : hex_val (PyStr.lower_char c) = hex_val c.
Proof.
  apply Z.eqb_eq. revert c.
  apply (for_all_chars (fun c => hex_val (PyStr.lower_char c) =? hex_val c)).
  vm_compute. reflexivity.
Qed.

Lemma lower_hexdigit_back (c : ascii) :
  lower_hexdigit (PyStr.lower_char c) = true -> hexdigit c = true.
Proof.
  intros H.
  pose proof (for_all_chars
    (fun c => implb (lower_hexdigit (PyStr.lower_char c)) (hexdigit c))) as A.
  specialize (A ltac:(vm_compute; reflexivity) c). cbv beta in A.
  rewrite H in A. exact A.
Qed.

Lemma lower_char_hash (c : ascii) :
  Ascii.eqb "#" (PyStr.lower_char c) = Ascii.eqb "#" c.
Proof.
  apply eqb_prop. revert c.
  apply (for_all_chars
    (fun c => Bool.eqb (Ascii.eqb "#" (PyStr.lower_char c)) (Ascii.eqb "#" c))).
  vm_compute. reflexivity.
Qed.

Lemma lower_lstrip_hash (s : string) :
  PyStr.lstrip (Ascii.eqb "#") (PyStr.lower s)
  = PyStr.lower (PyStr.lstrip (Ascii.eqb "#") s).
Proof.
  induction s as [|c t IH]; [reflexivity|].
  cbn [PyStr.lower PyStr.lstrip]. rewrite lower_char_hash.
  destruct (Ascii.eqb "#" c); [exact IH | reflexivity].
Qed.

Lemma forallb_lower_back (s : string) :
  PyStr.forallb lower_hexdigit (PyStr.lower s) = true ->
  PyStr.forallb hexdigit s = true.
Proof.
  induction s as [|c t IH]; [reflexivity|].
  cbn [PyStr.lower PyStr.forallb]. intros H.
  apply andb_prop in H as [H1 H2].
  rewrite (lower_hexdigit_back _ H1), (IH H2). reflexivity.
Qed.

Lemma channel_lower (a b : ascii) :
  channel (PyStr.lower_char a) (PyStr.lower_char b) = channel a b.
Proof. unfold channel. now rewrite !hex_val_lower. Qed.

Lemma forallb_double_back (p : ascii -> bool) (s : string) :
  PyStr.forallb p (PyStr.double_chars s) = true -> PyStr.forallb p s = true.
Proof.
  induction s as [|c t IH]; [reflexivity|].
  cbn [PyStr.double_chars PyStr.forallb]. intros H.
  apply andb_prop in H as [H1 H]. apply andb_prop in H as [_ H].
  rewrite H1, (IH H). reflexivity.
Qed.

(** X3. When [normalize_color] accepts a string of the hex branch, the
    colour it returns has the channels that [hex_to_rgb] reads in the string
    itself, the white space at its ends apart: neither the letter case nor
    the doubling of three digits changes them. *)
Theorem normalize_preserves_color (s h : string) :
  PyStr.startswith (PyStr.lower (PyStr.strip s)) "#" = true ->
  normalize_color s = Ok (Some h) ->
  hex_to_rgb h = hex_to_rgb (PyStr.strip s).
Proof.
  unfold normalize_color. intros ->.
  rewrite lower_lstrip_hash.
  set (y := PyStr.lstrip (Ascii.eqb "#") (PyStr.strip s)).
  rewrite lower_length.
  destruct (Nat.eqb (String.length y) 3) eqn:E3.
  - destruct y as [|c1 [|c2 [|c3 [|]]]] eqn:Ey; try discriminate E3.
    cbn [PyStr.lower PyStr.double_chars String.length Nat.eqb PyStr.forallb andb].
    match goal with
    | |- context [if ?f then _ else _] => destruct f eqn:Hd
    end; [|discriminate].
    intros [= <-].
    repeat (apply andb_prop in Hd as [? Hd]).
    assert (H1' := lower_hexdigit_back _ H).
    assert (H2' := lower_hexdigit_back _ H1).
    assert (H3' := lower_hexdigit_back _ H3).
    destruct (lower_hexdigit_fixed _ H) as (_ & _ & _ & L1).
    destruct (lower_hexdigit_fixed _ H1) as (_ & _ & _ & L2).
    destruct (lower_hexdigit_fixed _ H3) as (_ & _ & _ & L3).
    rewrite (hex_to_rgb_three c1 c2 c3 (PyStr.strip s)).
    + rewrite (hex_to_rgb_six (PyStr.lower_char c1) (PyStr.lower_char c1)
                 (PyStr.lower_char c2) (PyStr.lower_char c2)
                 (PyStr.lower_char c3) (PyStr.lower_char c3)).
      * rewrite !channel_lower. reflexivity.
      * rewrite lstrip_hash_cons. apply lstrip_hash_digits.
        cbn [PyStr.forallb]. now rewrite L1, L2, L3.
      * rewrite lstrip_hash_cons, lstrip_hash_digits;
          cbn [PyStr.forallb]; now rewrite L1, L2, L3.
    + exact Ey.
    + fold y. rewrite Ey. cbn [PyStr.forallb]. now rewrite H1', H2', H3'.
  - rewrite lower_length.
    destruct (Nat.eqb (String.length y) 6) eqn:E6; [|discriminate].
    cbn [andb].
    destruct (PyStr.forallb (char_in "0123456789abcdef") (PyStr.lower y)) eqn:Hd;
      [|discriminate].
    intros [= <-].
    assert (Hy := forallb_lower_back _ Hd).
    destruct y as [|c1 [|c2 [|c3 [|c4 [|c5 [|c6 [|]]]]]]] eqn:Ey;
      try discriminate E6.
    cbn [PyStr.lower append].
    cbn [PyStr.lower PyStr.forallb] in Hd.
    repeat (apply andb_prop in Hd as [? Hd]).
    repeat match goal with
           | Hc : char_in _ (PyStr.lower_char ?c) = true |- _ =>
               let L := fresh "L" in
               destruct (lower_hexdigit_fixed _ Hc) as (_ & _ & _ & L); clear Hc
           end.
    rewrite (hex_to_rgb_six c1 c2 c3 c4 c5 c6 (PyStr.strip s)).
    + rewrite (hex_to_rgb_six (PyStr.lower_char c1) (PyStr.lower_char c2)
                 (PyStr.lower_char c3) (PyStr.lower_char c4)
                 (PyStr.lower_char c5) (PyStr.lower_char c6)).
      * rewrite !channel_lower. reflexivity.
      * rewrite lstrip_hash_cons. apply lstrip_hash_digits.
        cbn [PyStr.forallb].
        repeat match goal with Hc : hexdigit _ = true |- _ => rewrite Hc; clear Hc end.
        reflexivity.
      * rewrite lstrip_hash_cons, lstrip_hash_digits;
          cbn [PyStr.forallb];
          repeat match goal with Hc : hexdigit _ = true |- _ => rewrite Hc; clear Hc end;
          reflexivity.
    + exact Ey.
    + fold y. rewrite Ey. exact Hy.
Qed.

(** Whatever two characters are read as a hexadecimal number, the number
    lies between -15 and 255. *)
Lemma int_pair_range (c1 c2 : ascii) (v : Z) :
  PyInt.int (String c1 (String c2 "")) 16 = Some v -> -15 <= v <= 255.
Proof.
  assert (Hall : List.forallb
            (fun c1 => List.forallb
               (fun c2 =>
                  match PyInt.int (String c1 (String c2 "")) 16 with
                  | Some v => ((-15 <=? v) && (v <=? 255))%bool
                  | None => true
                  end)
               all_chars_list) all_chars_list = true)
    by (vm_compute; reflexivity).
  rewrite forallb_forall in Hall.
  specialize (Hall c1 (all_chars_list_complete c1)).
  rewrite forallb_forall in Hall.
  specialize (Hall c2 (all_chars_list_complete c2)).
  intros E. rewrite E in Hall. lia.
Qed.

Lemma hex_to_rgb_channels (s : string) (r g b : Z) :
  hex_to_rgb s = (r, g, b) ->
  -15 <= r <= 255 /\ -15 <= g <= 255 /\ -15 <= b <= 255.
Proof.
  unfold hex_to_rgb.
  set (h6 := if Nat.eqb _ 3 then _ else _).
  destruct (Nat.eqb (String.length h6) 6) eqn:E6; cbn [negb];
    [|intros [= <- <- <-]; lia].
  destruct h6 as [|c1 [|c2 [|c3 [|c4 [|c5 [|c6 [|]]]]]]]; try discriminate E6.
  change (PyStr.slice 0 2 _) with (String c1 (String c2 "")).
  change (PyStr.slice 2 4 _) with (String c3 (String c4 "")).
  change (PyStr.slice 4 6 _) with (String c5 (String c6 "")).
  destruct (PyInt.int (String c1 (String c2 "")) 16) as [r'|] eqn:Er;
    [|intros [= <- <- <-]; lia].
  destruct (PyInt.int (String c3 (String c4 "")) 16) as [g'|] eqn:Eg;
    [|intros [= <- <- <-]; lia].
  destruct (PyInt.int (String c5 (String c6 "")) 16) as [b'|] eqn:Eb;
    [|intros [= <- <- <-]; lia].
  intros [= <- <- <-].
  pose proof (int_pair_range _ _ _ Er).
  pose proof (int_pair_range _ _ _ Eg).
  pose proof (int_pair_range _ _ _ Eb).
  lia.
Qed.

(** X4. Whatever the string, every channel [hex_to_rgb] returns lies
    between -15 and 255. *)
Theorem hex_to_rgb_range (s : string) :
  let '(r, g, b) := hex_to_rgb s in
  -15 <= r <= 255 /\ -15 <= g <= 255 /\ -15 <= b <= 255.
Proof.
  destruct (hex_to_rgb s) as [[r g] b] eqn:E.
  exact (hex_to_rgb_channels s r g b E).
Qed.

End ColourRoundTrips.

(** ** Luminance and contrast *)

Section LuminanceBounds.

Import ColorUtils ColorExtractor.

Local Open Scope Q_scope.

Lemma Qle_bool_false (a b : Q) : Qle_bool a b = false -> b < a.
Proof.
  intros H. apply Qnot_le_lt. intros Hle.
  apply Qle_bool_iff in Hle. congruence.
Qed.

Lemma channel_fraction (z : Z) (lo hi : Z) :
  (lo <= z <= hi)%Z ->
  inject_Z lo / 255 <= inject_Z z / 255 <= inject_Z hi / 255.
Proof.
  intros [H1 H2]. unfold Qdiv.
  split; apply Qmult_le_compat_r; try (rewrite <- Zle_Qle; assumption);
    discriminate.
Qed.

Variable pow24 : Q -> Q.

(** The linear value of a channel that is not below -15. *)
Lemma gamma_lower (z : Z) :
  (forall x, 0 < x -> 0 <= pow24 x) ->
  (-15 <= z <= 255)%Z ->
  - (5 # 1000) <= gamma pow24 (inject_Z z / 255).
Proof.
  intros Hpow Hz. unfold gamma.
  pose proof (channel_fraction z (-15) 255 Hz) as [Hlo Hhi].
  set (c := inject_Z z / 255) in *.
  destruct (Qle_bool c 0.03928) eqn:E.
  - unfold Qdiv in *. change (inject_Z (-15) * / 255) with (-15 # 255) in Hlo.
    change (/ 12.92) with (100 # 1292). lra.
  - apply Qle_bool_false in E.
    assert (0 <= pow24 ((c + 0.055) / 1.055)); [|lra].
    apply Hpow. unfold Qdiv. change (/ 1.055) with (1000 # 1055). lra.
Qed.

Lemma gamma_unit (z : Z) :
  (forall x, 0 < x <= 1 -> 0 <= pow24 x <= 1) ->
  (0 <= z <= 255)%Z ->
  0 <= gamma pow24 (inject_Z z / 255) <= 1.
Proof.
  intros Hpow Hz. unfold gamma.
  pose proof (channel_fraction z 0 255 Hz) as [Hlo Hhi].
  set (c := inject_Z z / 255) in *.
  change (inject_Z 0 / 255) with (0 # 255) in Hlo.
  change (inject_Z 255 / 255) with (255 # 255) in Hhi.
  destruct (Qle_bool c 0.03928) eqn:E.
  - apply Qle_bool_iff in E.
    unfold Qdiv. change (/ 12.92) with (100 # 1292). lra.
  - apply Qle_bool_false in E.
    apply Hpow. unfold Qdiv. change (/ 1.055) with (1000 # 1055). lra.
Qed.

Lemma luminance_lower (s : string) :
  (forall x, 0 < x -> 0 <= pow24 x) ->
  - (5 # 1000) <= luminance pow24 s.
Proof.
  intros Hpow. unfold luminance.
  destruct (hex_to_rgb s) as [[r g] b] eqn:E.
  destruct (hex_to_rgb_channels s r g b E) as (Hr & Hg & Hb).
  pose proof (gamma_lower r Hpow Hr).
  pose proof (gamma_lower g Hpow Hg).
  pose proof (gamma_lower b Hpow Hb).
  cbv zeta. lra.
Qed.

End LuminanceBounds.

Section PowEvaluation.

Lemma root5_bits_inv (i : nat) (n d r : Z) :
  0 <= r -> r ^ 5 * d <= n ->
  0 <= Pow.root5_bits i n d r /\ Pow.root5_bits i n d r ^ 5 * d <= n.
Proof.
  revert r. induction i as [|j IH]; intros r Hr Hn; [now split|].
  cbn [Pow.root5_bits].
  destruct ((r + 2 ^ Z.of_nat j) ^ 5 * d <=? n) eqn:E.
  - apply IH; [|lia].
    assert (0 <= 2 ^ Z.of_nat j) by (apply Z.pow_nonneg; lia). lia.
  - apply IH; assumption.
Qed.

Local Open Scope Q_scope.

(** The evaluation of [x ** 2.4] is never negative, and at most 1 on
    numbers that are at most 1. *)
Lemma pow_2_4_nonneg (x : Q) : 0 <= Pow.pow_2_4 x.
Proof.
  unfold Pow.pow_2_4.
  destruct (Qnum x <=? 0)%Z eqn:E; [discriminate|].
  apply Z.leb_gt in E.
  match goal with
  | |- 0 <= Qmake (Pow.root5_bits ?i ?n ?d 0) _ =>
      destruct (root5_bits_inv i n d 0) as [H _]
  end.
  - lia.
  - change (0 ^ 5)%Z with 0%Z. rewrite Z.mul_0_l.
    apply Z.mul_nonneg_nonneg; [apply Z.pow_nonneg; lia|].
    apply Z.pow_nonneg. apply Z.pow_nonneg. lia.
  - unfold Qle. cbn [Qnum Qden]. lia.
Qed.

Lemma pow_2_4_unit (x : Q) : 0 < x <= 1 -> 0 <= Pow.pow_2_4 x <= 1.
Proof.
  intros [Hpos Hle]. split; [apply pow_2_4_nonneg|].
  unfold Pow.pow_2_4.
  destruct x as [a b]. unfold Qlt, Qle in Hpos, Hle. cbn [Qnum Qden] in *.
  destruct (a <=? 0)%Z eqn:E; [apply Z.leb_le in E; lia|].
  set (scale := (2 ^ Z.of_nat Pow.precision)%Z).
  assert (Hs : (0 < scale)%Z) by (apply Z.pow_pos_nonneg; lia).
  match goal with
  | |- Qmake (Pow.root5_bits ?i ?n ?d 0) _ <= 1 =>
      destruct (root5_bits_inv i n d 0) as [H0 H5]; [lia| |];
      set (R := Pow.root5_bits i n d 0) in *
  end.
  - change (0 ^ 5)%Z with 0%Z. rewrite Z.mul_0_l.
    apply Z.mul_nonneg_nonneg; apply Z.pow_nonneg; lia.
  - unfold Qle. cbn [Qnum Qden]. rewrite Z2Pos.id by assumption.
    assert (Hb : (0 < Z.pos b ^ 12)%Z) by (apply Z.pow_pos_nonneg; lia).
    assert (Ha : (a ^ 12 <= Z.pos b ^ 12)%Z) by (apply Z.pow_le_mono_l; lia).
    assert (H55 : (R ^ 5 <= scale ^ 5)%Z) by nia.
    assert ((R <= scale)%Z); [|lia].
    destruct (Z_le_gt_dec R scale) as [|Hgt]; [assumption|].
    assert ((scale ^ 5 < R ^ 5)%Z) by (apply Z.pow_lt_mono_l; lia). lia.
Qed.

End PowEvaluation.

Section LuminanceScale.

Import ColorUtils ColorExtractor.

Local Open Scope Q_scope.

Variable pow24 : Q -> Q.

(** The luminance of a colour whose channels are bytes. *)
Lemma luminance_of_bytes (s : string) (r g b : Z) :
  (forall x, 0 < x <= 1 -> 0 <= pow24 x <= 1) ->
  hex_to_rgb s = (r, g, b) ->
  (0 <= r <= 255)%Z -> (0 <= g <= 255)%Z -> (0 <= b <= 255)%Z ->
  0 <= luminance pow24 s <= 1.
Proof.
  intros Hpow E Hr Hg Hb. unfold luminance. rewrite E.
  pose proof (gamma_unit pow24 r Hpow Hr).
  pose proof (gamma_unit pow24 g Hpow Hg).
  pose proof (gamma_unit pow24 b Hpow Hb).
  cbv zeta. lra.
Qed.

(** The channels of a canonical colour are bytes. *)
Lemma canonical_hex_bytes (h : string) :
  canonical_hex h = true ->
  exists r g b,
    hex_to_rgb h = (r, g, b)
    /\ (0 <= r <= 255)%Z /\ (0 <= g <= 255)%Z /\ (0 <= b <= 255)%Z.
Proof.
  intros Hc. pose proof (canonical_hex_channels h Hc) as H.
  destruct (hex_to_rgb h) as [[r g] b]. exists r, g, b. tauto.
Qed.

(** X5. With a power function that maps the numbers above 0 and up to 1
    to numbers from 0 to 1, the luminance of a canonical colour lies
    between 0 and 1. *)
Theorem luminance_unit_interval (h : string) :
  (forall x, 0 < x <= 1 -> 0 <= pow24 x <= 1) ->
  canonical_hex h = true ->
  0 <= luminance pow24 h <= 1.
Proof.
  intros Hpow Hc.
  destruct (canonical_hex_bytes h Hc) as (r & g & b & E & Hr & Hg & Hb).
  exact (luminance_of_bytes h r g b Hpow E Hr Hg Hb).
Qed.

Lemma max2_min2 (a b : Q) :
  min2 a b <= max2 a b
  /\ (min2 a b == a \/ min2 a b == b)
  /\ max2 a b == max2 b a /\ min2 a b == min2 b a.
Proof.
  unfold max2, min2.
  destruct (Qltb a b) eqn:E1; destruct (Qltb b a) eqn:E2;
    try apply Qltb_lt in E1; try apply Qltb_lt in E2;
    try apply Qltb_ge in E1; try apply Qltb_ge in E2;
    repeat split; try lra; try (left; lra); try (right; lra).
Qed.

(** X6. With a power function that is not negative on positive numbers,
    [contrast_ratio] never divides by zero, whatever two strings it is
    given; the ratio is at least 1, and the same for both orders of the
    two colours. *)
Theorem contrast_ratio_at_least_one (color1 color2 : string) :
  (forall x, 0 < x -> 0 <= pow24 x) ->
  exists q q',
    contrast_ratio pow24 color1 color2 = Ok q
    /\ contrast_ratio pow24 color2 color1 = Ok q'
    /\ q == q' /\ 1 <= q.
Proof.
  intros Hpow. unfold contrast_ratio, truediv_float.
  pose proof (luminance_lower pow24 color1 Hpow) as H1.
  pose proof (luminance_lower pow24 color2 Hpow) as H2.
  set (l1 := luminance pow24 color1) in *.
  set (l2 := luminance pow24 color2) in *.
  destruct (max2_min2 l1 l2) as (Hle & Hmin & Hmax & Hmin').
  assert (Hd : 0 < min2 l1 l2 + 0.05) by (destruct Hmin; lra).
  assert (Hd' : 0 < min2 l2 l1 + 0.05) by lra.
  cbv zeta.
  destruct (Qeq_bool (min2 l1 l2 + 0.05) 0) eqn:E.
  { apply Qeq_bool_iff in E. lra. }
  destruct (Qeq_bool (min2 l2 l1 + 0.05) 0) eqn:E'.
  { apply Qeq_bool_iff in E'. lra. }
  eexists; eexists. split; [reflexivity|]. split; [reflexivity|]. split.
  - rewrite Hmax, Hmin'. reflexivity.
  - apply Qle_shift_div_l; [assumption|]. lra.
Qed.

(** X7. With a power function that maps the numbers above 0 and up to 1
    to numbers from 0 to 1, the contrast ratio of two canonical colours lies
    between 1 and 21. *)
Theorem contrast_ratio_scale (h1 h2 : string) :
  (forall x, 0 < x <= 1 -> 0 <= pow24 x <= 1) ->
  canonical_hex h1 = true -> canonical_hex h2 = true ->
  exists q, contrast_ratio pow24 h1 h2 = Ok q /\ 1 <= q <= 21.
Proof.
  intros Hpow Hc1 Hc2. unfold contrast_ratio, truediv_float.
  destruct (canonical_hex_bytes h1 Hc1) as (r1 & g1 & b1 & E1 & Hr1 & Hg1 & Hb1).
  destruct (canonical_hex_bytes h2 Hc2) as (r2 & g2 & b2 & E2 & Hr2 & Hg2 & Hb2).
  pose proof (luminance_of_bytes h1 r1 g1 b1 Hpow E1 Hr1 Hg1 Hb1) as H1.
  pose proof (luminance_of_bytes h2 r2 g2 b2 Hpow E2 Hr2 Hg2 Hb2) as H2.
  set (l1 := luminance pow24 h1) in *.
  set (l2 := luminance pow24 h2) in *.
  destruct (max2_min2 l1 l2) as (Hle & Hmin & _ & _).
  assert (Hmax : max2 l1 l2 <= 1).
  { unfold max2. destruct (Qltb l1 l2); lra. }
  assert (Hd : 0.05 <= min2 l1 l2 + 0.05) by (destruct Hmin; lra).
  cbv zeta.
  destruct (Qeq_bool (min2 l1 l2 + 0.05) 0) eqn:E.
  { apply Qeq_bool_iff in E. lra. }
  eexists. split; [reflexivity|]. split.
  - apply Qle_shift_div_l; lra.
  - apply Qle_shift_div_r; lra.
Qed.

End LuminanceScale.

(** ** The palette of the classifier *)

Section Palette.

Import ColorUtils ColorExtractor.

Variable pow24 : Q -> Q.

(** The classifier's palette, by its parts. *)
Lemma classify_colors_parts (colors : list string) (counts : Dict.dict Z) :
  colors <> [] ->
  exists bg p a,
    choose_background pow24 colors counts = Ok bg
    /\ choose_primary colors counts bg = Ok p
    /\ choose_accent colors bg p = Ok a
    /\ _classify_colors pow24 colors counts
       = Ok [ ("primary", p); ("accent", a); ("background", bg);
              ("text", if dark_theme pow24 colors counts
                       then "#ffffff" else "#000000");
              ("theme", if dark_theme pow24 colors counts
                        then "dark" else "light") ].
Proof.
  intros Hne.
  destruct (choose_background_total pow24 colors counts Hne) as [bg Hbg].
  destruct (choose_primary_total colors counts bg) as [p Hp].
  destruct (choose_accent_total colors bg p) as [a Ha].
  exists bg, p, a. repeat (split; [assumption|]).
  unfold _classify_colors.
  apply nonempty_true in Hne. rewrite Hne. cbn [negb].
  rewrite Hbg. cbn [bind]. rewrite Hp. cbn [bind]. rewrite Ha. reflexivity.
Qed.

Lemma override_text_follows_theme (hint classified : Dict.dict string) :
  text_follows_theme classified ->
  text_follows_theme (override_semantic pow24 hint classified).
Proof.
  intros Hc. unfold override_semantic.
  set (c1 := match supplied hint "primary" with
             | Some v => Dict.set classified "primary" v
             | None => classified end).
  set (c2 := match supplied hint "accent" with
             | Some v => Dict.set c1 "accent" v
             | None => c1 end).
  destruct (supplied hint "background") as [v|].
  - cbv zeta. unfold text_follows_theme.
    destruct (Qltb (luminance pow24 v) 0.5); [left | right];
      (split;
       [rewrite dict_get_set_other by discriminate; apply dict_get_set_same
       | apply dict_get_set_same]).
  - assert (H1 : text_follows_theme c1).
    { unfold c1. destruct (supplied hint "primary"); [|assumption].
      unfold text_follows_theme.
      rewrite !dict_get_set_other by discriminate. exact Hc. }
    unfold c2. destruct (supplied hint "accent"); [|assumption].
    unfold text_follows_theme.
    rewrite !dict_get_set_other by discriminate. exact H1.
Qed.

(** X8. For every corpus, table of counts and semantic hint the
    classifier returns a palette whose text colour goes with its theme,
    [#ffffff] with dark and [#000000] with light, and the override by the
    hint keeps it so. *)
Theorem palette_text_follows_theme
    (colors : list string) (counts : Dict.dict Z) (hint : Dict.dict string) :
  exists classified,
    _classify_colors pow24 colors counts = Ok classified
    /\ text_follows_theme classified
    /\ text_follows_theme (override_semantic pow24 hint classified).
Proof.
  assert (H : exists classified,
             _classify_colors pow24 colors counts = Ok classified
             /\ text_follows_theme classified).
  { destruct colors as [|c colors].
    - eexists. split; [reflexivity|]. right. split; reflexivity.
    - destruct (classify_colors_parts (c :: colors) counts)
        as (bg & p & a & _ & _ & _ & E); [discriminate|].
      eexists. split; [exact E|].
      destruct (dark_theme pow24 (c :: colors) counts);
        [left | right]; split; reflexivity. }
  destruct H as (classified & E & Hc).
  exists classified. split; [exact E|]. split; [exact Hc|].
  now apply override_text_follows_theme.
Qed.

Lemma max_in {K : Type} (ltb : K -> K -> bool) (key : string -> result K)
    (l : list string) (r : string) :
  PyList.max ltb key l = Ok r -> In r l.
Proof.
  destruct l as [|x l]; [discriminate|].
  unfold PyList.max. destruct (key x) as [kx|]; [|discriminate]. cbn [bind].
  revert x kx. induction l as [|y l IH]; intros x kx.
  - cbn. intros [= ->]. now left.
  - cbn [PyList.max_from]. destruct (key y) as [ky|]; [|discriminate].
    cbn [bind]. destruct (ltb kx ky); intros H; apply IH in H.
    + right. exact H.
    + destruct H as [<-|H]; [now left | right; now right].
Qed.

Lemma min_in {K : Type} (ltb : K -> K -> bool) (key : string -> result K)
    (l : list string) (r : string) :
  PyList.min ltb key l = Ok r -> In r l.
Proof.
  destruct l as [|x l]; [discriminate|].
  unfold PyList.min. destruct (key x) as [kx|]; [|discriminate]. cbn [bind].
  revert x kx. induction l as [|y l IH]; intros x kx.
  - cbn. intros [= ->]. now left.
  - cbn [PyList.min_from]. destruct (key y) as [ky|]; [|discriminate].
    cbn [bind]. destruct (ltb ky kx); intros H; apply IH in H.
    + right. exact H.
    + destruct H as [<-|H]; [now left | right; now right].
Qed.

Lemma insert_in {K : Type} (ltb : K -> K -> bool) (key : string -> K)
    (x : string) (l : list string) (s : string) :
  In s (PyList.insert ltb key x l) -> s = x \/ In s l.
Proof.
  induction l as [|y l IH]; cbn [PyList.insert].
  - intros [<-|[]]. now left.
  - destruct (ltb (key y) (key x)).
    + intros [<-|H]; [right; now left|].
      destruct (IH H) as [->|?]; [now left | right; now right].
    + intros [<-|H]; [now left | now right].
Qed.

Lemma sorted_in {K : Type} (ltb : K -> K -> bool) (key : string -> K)
    (l : list string) (s : string) :
  In s (PyList.sorted ltb key l) -> In s l.
Proof.
  induction l as [|x l IH]; cbn [PyList.sorted]; [auto|].
  intros H. apply insert_in in H as [->|H]; [now left | right; auto].
Qed.

Lemma index_in (l : list string) (i : Z) (x : string) :
  PyList.index l i = Ok x -> In x l.
Proof.
  unfold PyList.index.
  destruct (_ && _)%bool; [|discriminate].
  destruct (nth_error _ _) eqn:E; [|discriminate].
  intros [= <-]. now apply nth_error_In in E.
Qed.

Lemma choose_primary_member (colors : list string) (counts : Dict.dict Z)
    (bg p : string) :
  choose_primary colors counts bg = Ok p ->
  (In p colors /\ p <> bg)
  \/ (p = "#333333" /\ forall c, In c colors -> c = bg).
Proof.
  unfold choose_primary.
  destruct (PyList.nonempty (filter (chromatic bg) colors)) eqn:E1.
  - intros H. apply max_in in H. apply filter_In in H as [Hin Hch].
    left. split; [assumption|]. intros ->. now rewrite chromatic_self in Hch.
  - destruct (PyList.nonempty
                (filter (fun c => negb (String.eqb c bg)) colors)) eqn:E2.
    + intros H. apply max_in in H. apply filter_In in H as [Hin Hne].
      left. split; [assumption|]. intros ->.
      now rewrite String.eqb_refl in Hne.
    + intros [= <-]. right. split; [reflexivity|].
      apply nonempty_false in E2. intros c Hc.
      destruct (String.eqb c bg) eqn:E; [now apply String.eqb_eq|].
      assert (Hin : In c (filter (fun c => negb (String.eqb c bg)) colors)).
      { apply filter_In. split; [assumption|]. now rewrite E. }
      rewrite E2 in Hin. destruct Hin.
Qed.

Lemma choose_background_member (colors : list string) (counts : Dict.dict Z)
    (bg : string) :
  choose_background pow24 colors counts = Ok bg -> In bg colors.
Proof.
  unfold choose_background.
  destruct (dark_theme pow24 colors counts
            && PyList.nonempty (filter (very_dark pow24) colors))%bool.
  - intros H. apply min_in in H. now apply filter_In in H.
  - destruct (PyList.nonempty (filter (very_light pow24) colors)).
    + intros H. apply max_in in H. now apply filter_In in H.
    + destruct (dark_theme pow24 colors counts); intros H;
        apply index_in in H; now apply sorted_in in H.
Qed.

Lemma choose_accent_member (colors : list string) (bg p a : string) :
  choose_accent colors bg p = Ok a ->
  a = p
  \/ (In a colors /\ a <> p /\ chromatic bg a = true
      /\ color_distance_gt a p 30 = true).
Proof.
  unfold choose_accent.
  destruct (PyList.nonempty _).
  - intros H. apply max_in in H. apply filter_In in H as [H1 H2].
    apply filter_In in H1 as [H0 H1]. apply andb_prop in H2 as [H2 H3].
    right. repeat split; auto. intros ->.
    now rewrite String.eqb_refl in H2.
  - intros [= <-]. now left.
Qed.

(** X9. For a corpus that is not empty the classifier takes its colours
    from the corpus: the background is a colour of the corpus; the primary
    colour is one too, or [#333333] when every colour is the background; the
    accent is a colour of the corpus or the primary colour. *)
Theorem roles_from_corpus (colors : list string) (counts : Dict.dict Z) :
  colors <> [] ->
  exists palette bg p a,
    _classify_colors pow24 colors counts = Ok palette
    /\ Dict.get palette "background" = Some bg
    /\ Dict.get palette "primary" = Some p
    /\ Dict.get palette "accent" = Some a
    /\ In bg colors
    /\ (In p colors \/ (p = "#333333" /\ forall c, In c colors -> c = bg))
    /\ (In a colors \/ a = p).
Proof.
  intros Hne.
  destruct (classify_colors_parts colors counts Hne)
    as (bg & p & a & Hbg & Hp & Ha & E).
  eexists. exists bg, p, a. split; [exact E|].
  repeat (split; [reflexivity|]).
  split; [eapply choose_background_member; eassumption|]. split.
  - destruct (choose_primary_member _ _ _ _ Hp) as [[? _]|?]; auto.
  - destruct (choose_accent_member _ _ _ _ Ha) as [?|[? _]]; auto.
Qed.

(** X10. For a corpus that is not empty the primary colour is the
    background only when the corpus holds no colour but [#333333]. *)
Theorem primary_differs_from_background
    (colors : list string) (counts : Dict.dict Z) :
  colors <> [] ->
  exists palette bg p,
    _classify_colors pow24 colors counts = Ok palette
    /\ Dict.get palette "background" = Some bg
    /\ Dict.get palette "primary" = Some p
    /\ (p = bg -> forall c, In c colors -> c = "#333333").
Proof.
  intros Hne.
  destruct (classify_colors_parts colors counts Hne)
    as (bg & p & a & Hbg & Hp & Ha & E).
  eexists. exists bg, p. split; [exact E|].
  repeat (split; [reflexivity|]).
  intros Heq c Hc.
  destruct (choose_primary_member _ _ _ _ Hp) as [[_ Hd]|[E3 Hall]];
    [contradiction|].
  rewrite (Hall c Hc), <- Heq. exact E3.
Qed.

End Palette.

(** ** The accent, and the theme with the background *)

Section AccentAndTheme.

Import ColorUtils ColorExtractor.

Variable pow24 : Q -> Q.

Lemma saturation_value (c : string) : saturation c = Ok (saturation_of c).
Proof.
  unfold saturation, saturation_of, truediv.
  destruct (hex_to_rgb c) as [[r g] b]. cbv zeta.
  destruct (max3 r g b =? 0); reflexivity.
Qed.

Lemma max_from_ext {A K : Type} (ltb : K -> K -> bool)
    (key1 key2 : A -> result K) (l : list A) :
  (forall x, key1 x = key2 x) ->
  forall best kbest,
    PyList.max_from ltb key1 best kbest l = PyList.max_from ltb key2 best kbest l.
Proof.
  intros Hk. induction l as [|x l IH]; intros best kbest; [reflexivity|].
  cbn [PyList.max_from]. rewrite Hk.
  destruct (key2 x) as [kx|]; [|reflexivity]. cbn [bind].
  destruct (ltb kbest kx); apply IH.
Qed.

Lemma max_ext {A K : Type} (ltb : K -> K -> bool)
    (key1 key2 : A -> result K) (l : list A) :
  (forall x, key1 x = key2 x) ->
  PyList.max ltb key1 l = PyList.max ltb key2 l.
Proof.
  intros Hk. destruct l as [|x l]; [reflexivity|].
  unfold PyList.max. rewrite Hk.
  destruct (key2 x); [|reflexivity]. cbn [bind].
  now apply max_from_ext.
Qed.

(** X11. For a corpus that is not empty, the accent candidates being the
    chromatic colours that differ from the primary colour and lie more than
    30 away from it: the accent is the candidate of the highest saturation,
    the first of them in corpus order on a tie; with no candidate it is the
    primary colour. *)
Theorem accent_selection (colors : list string) (counts : Dict.dict Z) :
  colors <> [] ->
  exists palette bg p a,
    _classify_colors pow24 colors counts = Ok palette
    /\ Dict.get palette "background" = Some bg
    /\ Dict.get palette "primary" = Some p
    /\ Dict.get palette "accent" = Some a
    /\ let accent_candidates :=
         filter (fun c => negb (String.eqb c p) && color_distance_gt c p 30)%bool
                (filter (chromatic bg) colors) in
       (accent_candidates = [] -> a = p)
       /\ (accent_candidates <> [] ->
           exists l1 l2,
             accent_candidates = (l1 ++ a :: l2)%list
             /\ (forall x, In x l1 -> (saturation_of x < saturation_of a)%Q)
             /\ (forall x, In x l2 -> (saturation_of x <= saturation_of a)%Q)).
Proof.
  intros Hne.
  destruct (classify_colors_parts pow24 colors counts Hne)
    as (bg & p & a & Hbg & Hp & Ha & E).
  eexists. exists bg, p, a. split; [exact E|].
  repeat (split; [reflexivity|]).
  cbv zeta. unfold choose_accent in Ha.
  set (cands := filter _ (filter (chromatic bg) colors)) in *.
  split.
  - intros E0. rewrite E0 in Ha. cbn in Ha. congruence.
  - intros Hc. apply nonempty_true in Hc. rewrite Hc in Ha.
    rewrite (max_ext Qltb saturation (fun c => Ok (saturation_of c)))
      in Ha by apply saturation_value.
    destruct (max_spec Qltb saturation_of cands a Ha) as (l1 & l2 & El & H1 & H2).
    exists l1, l2. split; [exact El|]. split.
    + intros x Hx. apply Qltb_lt. auto.
    + intros x Hx. apply Qltb_ge. auto.
Qed.

Lemma sum_from (l : list Z) (acc : Z) :
  fold_left Z.add l acc = acc + fold_left Z.add l 0.
Proof.
  revert acc. induction l as [|x l IH]; intros acc; cbn [fold_left]; [lia|].
  rewrite (IH (acc + x)), (IH (0 + x)). lia.
Qed.

Lemma sum_nonneg (f : string -> Z) (l : list string) :
  (forall c, 0 <= f c) -> 0 <= PyList.sum (map f l).
Proof.
  intros Hf. unfold PyList.sum.
  induction l as [|x l IH]; cbn [map fold_left]; [lia|].
  rewrite sum_from. specialize (Hf x). lia.
Qed.

(** X12. For a corpus that is not empty and counts that are not
    negative: when the theme is dark the background is a very dark colour
    (luminance below 0.1); when the theme is light the background is a very
    light colour (luminance above 0.9), or the corpus has neither a very
    dark nor a very light colour. *)
Theorem theme_and_background (colors : list string) (counts : Dict.dict Z) :
  colors <> [] ->
  (forall c, 0 <= count counts c) ->
  exists palette bg,
    _classify_colors pow24 colors counts = Ok palette
    /\ Dict.get palette "background" = Some bg
    /\ (Dict.get palette "theme" = Some "dark" -> very_dark pow24 bg = true)
    /\ (Dict.get palette "theme" = Some "light" ->
        very_light pow24 bg = true
        \/ (filter (very_dark pow24) colors = []
            /\ filter (very_light pow24) colors = [])).
Proof.
  intros Hne Hcounts.
  destruct (classify_colors_parts pow24 colors counts Hne)
    as (bg & p & a & Hbg & Hp & Ha & E).
  eexists. exists bg. split; [exact E|]. split; [reflexivity|].
  cbn [Dict.get String.eqb Ascii.eqb Bool.eqb].
  unfold choose_background in Hbg.
  destruct (dark_theme pow24 colors counts) eqn:Edark.
  - split; [intros _ | discriminate].
    assert (Hd : PyList.nonempty (filter (very_dark pow24) colors) = true).
    { unfold dark_theme in Edark.
      destruct (PyList.nonempty (filter (very_dark pow24) colors)) eqn:End;
        [reflexivity|].
      apply nonempty_false in End. rewrite End in Edark.
      cbn [map andb] in Edark. rewrite sum_nil, orb_false_r in Edark.
      apply Z.ltb_lt in Edark.
      pose proof (sum_nonneg (count counts)
                    (filter (very_light pow24) colors) Hcounts). lia. }
    rewrite Hd in Hbg. cbn [andb] in Hbg.
    apply min_in in Hbg. now apply filter_In in Hbg.
  - split; [discriminate | intros _].
    cbn [andb] in Hbg.
    destruct (PyList.nonempty (filter (very_light pow24) colors)) eqn:Enl.
    + left. apply max_in in Hbg. now apply filter_In in Hbg.
    + right. apply nonempty_false in Enl. split; [|exact Enl].
      unfold dark_theme in Edark. rewrite Enl in Edark.
      cbn [PyList.nonempty negb] in Edark. rewrite andb_true_r in Edark.
      apply orb_false_elim in Edark as [_ Edark].
      now apply nonempty_false in Edark.
Qed.

End AccentAndTheme.

(** ** Counting the colours, and the result of the extraction *)

Section Counting.

Import ColorUtils ColorExtractor.

Lemma dict_get_none {V : Type} (d : Dict.dict V) (k : string) :
  Dict.get d k = None <-> ~ In k (Dict.keys d).
Proof.
  unfold Dict.keys.
  induction d as [|[k' v] d IH]; cbn [Dict.get map fst In].
  - split; [intros _ [] | reflexivity].
  - destruct (String.eqb k' k) eqn:E.
    + apply String.eqb_eq in E. subst k'. split; [discriminate|].
      intros H. exfalso. apply H. now left.
    + apply String.eqb_neq in E. rewrite IH. tauto.
Qed.

Lemma dict_keys_set {V : Type} (d : Dict.dict V) (k : string) (v : V) :
  Dict.keys (Dict.set d k v)
  = if in_dec string_dec k (Dict.keys d) then Dict.keys d
    else (Dict.keys d ++ [k])%list.
Proof.
  induction d as [|[k' v'] d IH]; [reflexivity|].
  cbn [Dict.set]. destruct (String.eqb k' k) eqn:E.
  - apply String.eqb_eq in E. subst k'.
    destruct (in_dec string_dec k (Dict.keys ((k, v') :: d))) as [|n];
      [reflexivity|].
    exfalso. apply n. now left.
  - apply String.eqb_neq in E.
    change (Dict.keys ((k', v') :: Dict.set d k v))
      with (k' :: Dict.keys (Dict.set d k v)).
    rewrite IH.
    change (Dict.keys ((k', v') :: d)) with (k' :: Dict.keys d).
    destruct (in_dec string_dec k (Dict.keys d)) as [i|n];
      destruct (in_dec string_dec k (k' :: Dict.keys d)) as [i'|n'];
      try reflexivity.
    + exfalso. apply n'. now right.
    + destruct i' as [->|]; contradiction.
Qed.

Lemma counter_step_keys (d : Dict.dict Z) (c : string) (v : Z) :
  NoDup (Dict.keys d) ->
  NoDup (Dict.keys (Dict.set d c v))
  /\ forall x, In x (Dict.keys (Dict.set d c v)) <-> In x (Dict.keys d) \/ x = c.
Proof.
  intros Hnd. rewrite dict_keys_set.
  destruct (in_dec string_dec c (Dict.keys d)) as [i|n].
  - split; [assumption|]. intros x. split; [auto|]. intros [?| ->]; auto.
  - split.
    + apply NoDup_app; [assumption | repeat constructor; intros [] | ].
      intros x Hx [<-|[]]. contradiction.
    + intros x. rewrite in_app_iff. cbn [In]. intuition.
Qed.

Lemma counter_from (l : list string) (d : Dict.dict Z) :
  NoDup (Dict.keys d) ->
  let d' := fold_left (fun d c => Dict.set d c (Dict.get_default d c 0 + 1)) l d in
  NoDup (Dict.keys d')
  /\ (forall c, In c (Dict.keys d') <-> In c (Dict.keys d) \/ In c l)
  /\ (forall c, count d' c = count d c + Z.of_nat (count_occ string_dec l c)).
Proof.
  revert d. induction l as [|x l IH]; intros d Hnd; cbn [fold_left].
  - cbv zeta. split; [assumption|]. split.
    + intros c. cbn [In]. tauto.
    + intros c. cbn [count_occ]. lia.
  - destruct (counter_step_keys d x (Dict.get_default d x 0 + 1) Hnd)
      as [Hnd' Hk].
    destruct (IH _ Hnd') as (H1 & H2 & H3).
    cbv zeta. split; [exact H1|]. split.
    + intros c. rewrite H2, Hk. cbn [In]. intuition.
    + intros c. rewrite H3. unfold count, Dict.get_default.
      cbn [count_occ].
      destruct (string_dec x c) as [->|n].
      * rewrite dict_get_set_same. lia.
      * rewrite dict_get_set_other by congruence. lia.
Qed.

(** X13. What [extract_from_url] makes of the collected colours: the
    list of unique colours has no colour twice and holds exactly the
    collected colours, and the count of a colour is the number of times it
    was collected. *)
Theorem counter_counts_occurrences (colors : list string) :
  let color_counts := Counter colors in
  let unique_colors := Dict.keys color_counts in
  NoDup unique_colors
  /\ (forall c, In c unique_colors <-> In c colors)
  /\ (forall c, count color_counts c = Z.of_nat (count_occ string_dec colors c)).
Proof.
  destruct (counter_from colors []) as (H1 & H2 & H3); [constructor|].
  cbv zeta. unfold Counter. split; [exact H1|]. split.
  - intros c. rewrite (H2 c). cbn [Dict.keys map In]. tauto.
  - intros c. rewrite (H3 c). reflexivity.
Qed.

Variable pow24 : Q -> Q.

Lemma classify_colors_keys (colors : list string) (counts : Dict.dict Z)
    (classified : Dict.dict string) :
  _classify_colors pow24 colors counts = Ok classified ->
  exists p a bg t th,
    classified = [ ("primary", p); ("accent", a); ("background", bg);
                   ("text", t); ("theme", th) ].
Proof.
  destruct colors as [|c colors].
  - intros [= <-]. repeat eexists.
  - destruct (classify_colors_parts pow24 (c :: colors) counts)
      as (bg & p & a & _ & _ & _ & E); [discriminate|].
    rewrite E. intros [= <-]. repeat eexists.
Qed.

Lemma override_semantic_keys (hint : Dict.dict string) (p a bg t th : string) :
  exists p' a' bg' t' th',
    override_semantic pow24 hint
      [ ("primary", p); ("accent", a); ("background", bg);
        ("text", t); ("theme", th) ]
    = [ ("primary", p'); ("accent", a'); ("background", bg');
        ("text", t'); ("theme", th') ].
Proof.
  unfold override_semantic.
  destruct (supplied hint "primary"), (supplied hint "accent"),
    (supplied hint "background"); repeat eexists.
Qed.

(** X14. When [extract_from_url] returns for a page that was fetched,
    its result has the keys colors, color_counts, semantic_vars_found,
    primary, accent, background, text and theme, in this order, and none
    besides; the list of colours has no colour twice, and a colour is in it
    exactly when its count is positive. *)
Theorem extraction_result_shape (soup : page) (d : Dict.dict value) :
  extract_from_url pow24 (Fetched soup) = Ok d ->
  Dict.keys d = [ "colors"; "color_counts"; "semantic_vars_found";
                  "primary"; "accent"; "background"; "text"; "theme" ]
  /\ exists unique_colors color_counts,
       Dict.get d "colors" = Some (VList unique_colors)
       /\ Dict.get d "color_counts" = Some (VCounts color_counts)
       /\ NoDup unique_colors
       /\ forall c, In c unique_colors <-> 0 < count color_counts c.
Proof.
  unfold extract_from_url.
  destruct (_extract_semantic_vars (all_css soup)) as [hint|]; [|discriminate].
  cbn [bind].
  destruct (_extract_colors (all_css soup)) as [colors|]; [|discriminate].
  cbn [bind].
  destruct (_get_meta_theme_color soup) as [theme_color|]; [|discriminate].
  cbn [bind]. cbv zeta.
  set (colors0 := match theme_color with
                  | Some t => if truthy t then (colors ++ [t])%list else colors
                  | None => colors end).
  destruct (_classify_colors pow24 (Dict.keys (Counter colors0)) (Counter colors0))
    as [classified|] eqn:E; [|discriminate].
  cbn [bind].
  destruct (classify_colors_keys _ _ _ E) as (p & a & bg & t & th & ->).
  destruct (override_semantic_keys hint p a bg t th)
    as (p' & a' & bg' & t' & th' & ->).
  intros [= <-]. split; [reflexivity|].
  exists (Dict.keys (Counter colors0)), (Counter colors0).
  split; [reflexivity|]. split; [reflexivity|].
  destruct (counter_from colors0 []) as (H1 & H2 & H3); [constructor|].
  split; [exact H1|].
  intros c. unfold Counter. rewrite (H2 c), (H3 c).
  cbn [Dict.keys map In]. change (count [] c) with 0.
  rewrite (count_occ_In string_dec). split; [intros [[]|H] | intros H; right]; lia.
Qed.

End Counting.

(** ** The cache of rendered images *)

Section ImageCache.

Import App.

Variable V : Type.

Local Open Scope nat_scope.
Local Open Scope list_scope.

Lemma dict_get_app (d e : Dict.dict V) (k : string) :
  Dict.get (d ++ e) k
  = match Dict.get d k with Some v => Some v | None => Dict.get e k end.
Proof.
  induction d as [|[k' v'] d IH]; [reflexivity|].
  cbn [app Dict.get]. destruct (String.eqb k' k); [reflexivity | exact IH].
Qed.

Lemma get_remove_other (d : cache V) (k k' : string) :
  k' <> k -> Dict.get (remove V d k) k' = Dict.get d k'.
Proof.
  intros Hne. induction d as [|[k0 v0] d IH]; [reflexivity|].
  cbn [remove Dict.get]. destruct (String.eqb k0 k) eqn:E.
  - apply String.eqb_eq in E. subst k0.
    destruct (String.eqb k k') eqn:E'; [|reflexivity].
    apply String.eqb_eq in E'. congruence.
  - cbn [Dict.get]. destruct (String.eqb k0 k'); [reflexivity | exact IH].
Qed.

Lemma keys_remove (d : cache V) (k x : string) :
  In x (Dict.keys (remove V d k)) -> In x (Dict.keys d).
Proof.
  unfold Dict.keys.
  induction d as [|[k0 v0] d IH]; [auto|].
  cbn [remove]. destruct (String.eqb k0 k); cbn [map fst In]; tauto.
Qed.

Lemma nodup_remove (d : cache V) (k : string) :
  NoDup (Dict.keys d) ->
  NoDup (Dict.keys (remove V d k)) /\ Dict.get (remove V d k) k = None.
Proof.
  induction d as [|[k0 v0] d IH]; intros Hnd.
  - split; [constructor | reflexivity].
  - change (Dict.keys ((k0, v0) :: d)) with (k0 :: Dict.keys d) in Hnd.
    apply NoDup_cons_iff in Hnd as [Hnotin Hnd].
    cbn [remove]. destruct (String.eqb k0 k) eqn:E.
    + apply String.eqb_eq in E. subst k0.
      split; [assumption|]. now apply dict_get_none.
    + destruct (IH Hnd) as [IH1 IH2]. split.
      * change (NoDup (k0 :: Dict.keys (remove V d k))).
        constructor; [|assumption].
        intros Hin. apply Hnotin. eapply keys_remove; eassumption.
      * cbn [Dict.get]. rewrite E. exact IH2.
Qed.

Lemma length_remove (d : cache V) (k : string) (v : V) :
  Dict.get d k = Some v -> S (List.length (remove V d k)) = List.length d.
Proof.
  induction d as [|[k0 v0] d IH]; [discriminate|].
  cbn [Dict.get remove]. destruct (String.eqb k0 k).
  - reflexivity.
  - intros H. cbn [List.length]. now rewrite (IH H).
Qed.

Lemma remove_absent (d : cache V) (k : string) :
  Dict.get d k = None -> remove V d k = d.
Proof.
  induction d as [|[k0 v0] d IH]; [reflexivity|].
  cbn [Dict.get remove]. destruct (String.eqb k0 k); [discriminate|].
  intros H. now rewrite (IH H).
Qed.

Lemma remove_app_absent (d e : cache V) (k : string) :
  Dict.get d k = None -> remove V (d ++ e) k = (d ++ remove V e k)%list.
Proof.
  induction d as [|[k0 v0] d IH]; [reflexivity|].
  cbn [Dict.get app remove]. destruct (String.eqb k0 k); [discriminate|].
  intros H. now rewrite (IH H).
Qed.

Lemma length_set (d : cache V) (k : string) (v : V) :
  List.length (Dict.set d k v)
  = match Dict.get d k with
    | Some _ => List.length d
    | None => S (List.length d)
    end.
Proof.
  induction d as [|[k0 v0] d IH]; [reflexivity|].
  cbn [Dict.set Dict.get]. destruct (String.eqb k0 k); [reflexivity|].
  cbn [List.length]. rewrite IH. now destruct (Dict.get d k).
Qed.

Lemma set_absent (d : cache V) (k : string) (v : V) :
  Dict.get d k = None -> Dict.set d k v = (d ++ [(k, v)])%list.
Proof.
  induction d as [|[k0 v0] d IH]; [reflexivity|].
  cbn [Dict.get Dict.set app]. destruct (String.eqb k0 k); [discriminate|].
  intros H. now rewrite (IH H).
Qed.

Lemma nodup_set (d : cache V) (k : string) (v : V) :
  NoDup (Dict.keys d) -> NoDup (Dict.keys (Dict.set d k v)).
Proof.
  intros Hnd. rewrite dict_keys_set.
  destruct (in_dec string_dec k (Dict.keys d)) as [|n]; [assumption|].
  apply NoDup_app; [assumption | repeat constructor; intros [] | ].
  intros x Hx [<-|[]]. contradiction.
Qed.

(** The loop of [_set_cached] leaves the newest entries. *)
Lemma evict_skipn (d : cache V) :
  evict V d = Some (skipn (List.length d - _CACHE_MAX_SIZE) d).
Proof.
  induction d as [|x d IH]; [reflexivity|].
  unfold evict; fold (evict V). cbn [popitem_first].
  destruct (Nat.ltb _CACHE_MAX_SIZE (List.length (x :: d))) eqn:E.
  - apply Nat.ltb_lt in E. cbn [List.length] in E |- *.
    rewrite IH. f_equal.
    replace (S (List.length d) - _CACHE_MAX_SIZE)
      with (S (List.length d - _CACHE_MAX_SIZE)) by lia.
    reflexivity.
  - apply Nat.ltb_ge in E.
    replace (List.length (x :: d) - _CACHE_MAX_SIZE) with 0 by lia.
    reflexivity.
Qed.

(** What [_set_cached] computes: the entry goes last, and the oldest
    entries beyond the fiftieth are dropped. *)
Lemma set_cached_eq (d : cache V) (key : string) (value : V) :
  _set_cached V d key value
  = Some (skipn (List.length (remove V (Dict.set d key value) key) - 49)
                (remove V (Dict.set d key value) key)
          ++ [(key, value)])%list.
Proof.
  unfold _set_cached, move_to_end. rewrite dict_get_set_same.
  rewrite evict_skipn. f_equal.
  set (r := remove V (Dict.set d key value) key).
  rewrite length_app. cbn [List.length]. unfold _CACHE_MAX_SIZE.
  rewrite skipn_app.
  replace (List.length r + 1 - 50) with (List.length r - 49) by lia.
  replace (List.length r - 49 - List.length r) with 0 by lia.
  reflexivity.
Qed.

(** X15. [_set_cached] never fails and leaves at most 50 entries in the
    cache, whatever the cache held: as many as before, one more for a new
    key, cut down to 50. *)
Theorem set_cached_bounded (d : cache V) (key : string) (value : V) :
  exists d',
    _set_cached V d key value = Some d'
    /\ List.length d' <= _CACHE_MAX_SIZE
    /\ List.length d'
       = Nat.min _CACHE_MAX_SIZE
           (match Dict.get d key with
            | Some _ => List.length d
            | None => S (List.length d)
            end).
Proof.
  eexists. split; [apply set_cached_eq|].
  pose proof (length_remove (Dict.set d key value) key value
                (dict_get_set_same d key value)) as Hr.
  pose proof (length_set d key value) as Hs.
  rewrite length_app, length_skipn. cbn [List.length].
  unfold _CACHE_MAX_SIZE.
  destruct (Dict.get d key); lia.
Qed.

Lemma get_skipn_none (d : cache V) (n : nat) (k : string) :
  Dict.get d k = None -> Dict.get (skipn n d) k = None.
Proof.
  intros H. apply dict_get_none. apply dict_get_none in H.
  intros Hin. apply H. unfold Dict.keys in *.
  apply in_map_iff in Hin as (x & Hx & Hin).
  apply in_map_iff. exists x. split; [assumption|].
  rewrite <- (firstn_skipn n d). apply in_or_app. now right.
Qed.

(** A key that is last, and nowhere else, is found, and stays where it
    is. *)
Lemma get_cached_last (d : cache V) (k : string) (v : V) :
  Dict.get d k = None ->
  _get_cached V (d ++ [(k, v)]) k = Some (Some v, d ++ [(k, v)]).
Proof.
  intros H. unfold _get_cached, move_to_end.
  assert (E : Dict.get (d ++ [(k, v)]) k = Some v).
  { rewrite dict_get_app, H. cbn [Dict.get]. now rewrite String.eqb_refl. }
  rewrite E, remove_app_absent by assumption.
  cbn [remove]. rewrite String.eqb_refl, app_nil_r, E. reflexivity.
Qed.

(** X16. In a cache without duplicate keys, the value stored by
    [_set_cached] under a key is what [_get_cached] returns for the key next,
    and that lookup leaves the cache as it is. *)
Theorem get_after_set (d : cache V) (key : string) (value : V) :
  NoDup (Dict.keys d) ->
  exists d',
    _set_cached V d key value = Some d'
    /\ _get_cached V d' key = Some (Some value, d').
Proof.
  intros Hnd. eexists. split; [apply set_cached_eq|].
  apply get_cached_last, get_skipn_none.
  apply nodup_remove, nodup_set, Hnd.
Qed.

(** X17. For a cache of at most 50 entries without duplicate keys:
    when there is room, or the key is present already, [_set_cached] keeps
    the value of every other key; when the cache is full and the key is new,
    it drops the oldest entry, exactly that one, and puts the new entry
    last. *)
Theorem set_cached_evicts_oldest (d : cache V) (key : string) (value : V) :
  NoDup (Dict.keys d) ->
  List.length d <= _CACHE_MAX_SIZE ->
  exists d',
    _set_cached V d key value = Some d'
    /\ (List.length d < _CACHE_MAX_SIZE \/ Dict.get d key <> None ->
        forall k, k <> key -> Dict.get d' k = Dict.get d k)
    /\ (List.length d = _CACHE_MAX_SIZE -> Dict.get d key = None ->
        d' = tl d ++ [(key, value)]).
Proof.
  intros Hnd Hlen. eexists. split; [apply set_cached_eq|].
  pose proof (length_remove (Dict.set d key value) key value
                (dict_get_set_same d key value)) as Hr.
  pose proof (length_set d key value) as Hs.
  unfold _CACHE_MAX_SIZE in *. split.
  - intros Hroom k Hk.
    replace (List.length (remove V (Dict.set d key value) key) - 49) with 0.
    + cbn [skipn]. rewrite dict_get_app, get_remove_other by assumption.
      rewrite dict_get_set_other by assumption.
      destruct (Dict.get d k); [reflexivity|].
      cbn [Dict.get]. destruct (String.eqb key k) eqn:E; [|reflexivity].
      apply String.eqb_eq in E. congruence.
    + destruct (Dict.get d key); [lia|].
      destruct Hroom as [?|Hn]; [lia | now contradiction Hn].
  - intros Hfull Habs.
    rewrite set_absent by assumption.
    rewrite remove_app_absent by assumption.
    cbn [remove]. rewrite String.eqb_refl, app_nil_r.
    rewrite Hfull. change (50 - 49) with 1.
    destruct d as [|x d]; [discriminate Hfull | reflexivity].
Qed.

(** X18. In a cache without duplicate keys [_get_cached] returns the
    value stored under the key, or nothing when there is none, and keeps
    what the cache holds: every key has the value it had, the number of
    entries is the same, no key is twice in it, and a lookup that finds
    nothing leaves the cache unchanged. *)
Theorem get_cached_keeps_contents (d : cache V) (key : string) :
  NoDup (Dict.keys d) ->
  exists d',
    _get_cached V d key = Some (Dict.get d key, d')
    /\ (forall k, Dict.get d' k = Dict.get d k)
    /\ List.length d' = List.length d
    /\ NoDup (Dict.keys d')
    /\ (Dict.get d key = None -> d' = d).
Proof.
  intros Hnd. unfold _get_cached, move_to_end.
  destruct (Dict.get d key) as [v|] eqn:E.
  - destruct (nodup_remove d key Hnd) as [Hnd' Habs].
    assert (E' : Dict.get (remove V d key ++ [(key, v)]) key = Some v).
    { rewrite dict_get_app, Habs. cbn [Dict.get]. now rewrite String.eqb_refl. }
    rewrite E'. eexists. split; [reflexivity|]. split; [|split; [|split]].
    + intros k. destruct (String.eqb key k) eqn:Ek.
      * apply String.eqb_eq in Ek. subst k. now rewrite E', E.
      * apply String.eqb_neq in Ek.
        rewrite dict_get_app, get_remove_other by congruence.
        destruct (Dict.get d k); [reflexivity|].
        cbn [Dict.get]. apply String.eqb_neq in Ek. now rewrite Ek.
    + rewrite length_app. cbn [List.length].
      pose proof (length_remove d key v E). lia.
    + unfold Dict.keys. rewrite map_app. cbn [map fst].
      apply NoDup_app; [exact Hnd' | repeat constructor; intros [] | ].
      intros x Hx [<-|[]]. apply dict_get_none in Habs. contradiction.
    + discriminate.
  - exists d. repeat split; auto.
Qed.

Lemma set_app_present (d e : cache V) (k : string) (v w : V) :
  Dict.get d k = Some w -> Dict.set (d ++ e) k v = Dict.set d k v ++ e.
Proof.
  induction d as [|[k0 v0] d IH]; [discriminate|].
  cbn [Dict.get app Dict.set]. destruct (String.eqb k0 k); [reflexivity|].
  intros H. cbn [app]. now rewrite (IH H).
Qed.

Lemma remove_app_present (d e : cache V) (k : string) (w : V) :
  Dict.get d k = Some w -> remove V (d ++ e) k = remove V d k ++ e.
Proof.
  induction d as [|[k0 v0] d IH]; [discriminate|].
  cbn [Dict.get app remove]. destruct (String.eqb k0 k); [reflexivity|].
  intros H. cbn [app]. now rewrite (IH H).
Qed.

Lemma get_skipn_last (r0 e : cache V) (k : string) (v : V) (n : nat) :
  Dict.get r0 k = None -> n <= List.length r0 ->
  Dict.get (skipn n (r0 ++ [(k, v)]) ++ e) k = Some v.
Proof.
  intros Habs Hn. rewrite skipn_app.
  replace (n - List.length r0) with 0 by lia. cbn [skipn].
  rewrite !dict_get_app, get_skipn_none by assumption.
  cbn [Dict.get]. now rewrite String.eqb_refl.
Qed.

(** X19. In a cache without duplicate keys, a key that [_get_cached] has
    just found is still there, with its value, after [_set_cached] stores
    another key, however full the cache is. *)
Theorem read_key_survives_insertion
    (d : cache V) (key : string) (v : V) (key2 : string) (value2 : V) :
  NoDup (Dict.keys d) ->
  Dict.get d key = Some v ->
  key2 <> key ->
  exists d1 d2,
    _get_cached V d key = Some (Some v, d1)
    /\ _set_cached V d1 key2 value2 = Some d2
    /\ Dict.get d2 key = Some v.
Proof.
  intros Hnd E Ek.
  unfold _get_cached, move_to_end. rewrite E.
  destruct (nodup_remove d key Hnd) as [Hnd' Habs].
  pose proof (length_remove d key v E) as Hl.
  set (d0 := remove V d key) in *.
  assert (E' : Dict.get (d0 ++ [(key, v)]) key = Some v).
  { rewrite dict_get_app, Habs. cbn [Dict.get]. now rewrite String.eqb_refl. }
  rewrite E'. eexists. eexists. split; [reflexivity|].
  split; [apply set_cached_eq|].
  unfold _CACHE_MAX_SIZE in *.
  destruct (Dict.get d0 key2) as [w|] eqn:E2.
  - rewrite (set_app_present d0 _ key2 value2 w E2).
    rewrite (remove_app_present _ _ key2 value2 (dict_get_set_same d0 key2 value2)).
    pose proof (length_remove (Dict.set d0 key2 value2) key2 value2
                  (dict_get_set_same d0 key2 value2)) as Hr.
    pose proof (length_set d0 key2 value2) as Hs. rewrite E2 in Hs.
    apply get_skipn_last.
    + rewrite get_remove_other, dict_get_set_other by congruence. exact Habs.
    + rewrite length_app. cbn [List.length]. lia.
  - assert (E3 : Dict.get (d0 ++ [(key, v)]) key2 = None).
    { rewrite dict_get_app, E2. cbn [Dict.get].
      destruct (String.eqb key key2) eqn:E3; [|reflexivity].
      apply String.eqb_eq in E3. congruence. }
    rewrite (set_absent _ key2 value2 E3).
    rewrite (remove_app_absent _ _ key2 E3).
    cbn [remove]. rewrite String.eqb_refl, app_nil_r.
    apply get_skipn_last; [exact Habs|].
    rewrite length_app. cbn [List.length]. lia.
Qed.

End ImageCache.

(** ** A colour as three numbers for CSS *)

Section CssChannels.

Import ColorUtils ColorExtractor HTMLGenerator.

Lemma int16_pair (c1 c2 : ascii) :
  hexdigit c1 = true -> hexdigit c2 = true ->
  int16 (String c1 (String c2 "")) = Ok (channel c1 c2).
Proof.
  intros H1 H2. unfold int16.
  destruct (int_two_hexdigits c1 c2 H1 H2) as [-> _]. reflexivity.
Qed.

(** X20. For a colour of three or six hexadecimal digits, with or
    without [#] in front, [_hex_to_rgb_str] returns the three channels that
    [hex_to_rgb] reads, in decimal and separated by a comma and a space;
    each channel lies between 0 and 255. *)
Theorem hex_to_rgb_str_agrees (hex_color : string) :
  let digits := PyStr.lstrip (Ascii.eqb "#") hex_color in
  PyStr.forallb hexdigit digits = true ->
  String.length digits = 3%nat \/ String.length digits = 6%nat ->
  let '(r, g, b) := hex_to_rgb hex_color in
  _hex_to_rgb_str hex_color
  = Ok (PyInt.str r ++ ", " ++ PyInt.str g ++ ", " ++ PyInt.str b)
  /\ 0 <= r <= 255 /\ 0 <= g <= 255 /\ 0 <= b <= 255.
Proof.
  intros digits Hd Hlen. unfold _hex_to_rgb_str. fold digits.
  destruct Hlen as [H3|H6].
  - destruct digits as [|c1 [|c2 [|c3 [|]]]] eqn:E; try discriminate H3.
    rewrite (hex_to_rgb_three c1 c2 c3 hex_color E)
      by (fold digits; rewrite E; exact Hd).
    cbn [PyStr.forallb] in Hd.
    apply andb_prop in Hd as [Hc1 Hd]. apply andb_prop in Hd as [Hc2 Hd].
    apply andb_prop in Hd as [Hc3 _].
    cbn [String.length Nat.eqb PyStr.double_chars].
    change (PyStr.slice 0 2 _) with (String c1 (String c1 "")).
    change (PyStr.slice 2 4 _) with (String c2 (String c2 "")).
    change (PyStr.slice 4 6 _) with (String c3 (String c3 "")).
    rewrite !int16_pair by assumption. cbn [bind].
    split; [reflexivity|]. repeat split; apply channel_range; assumption.
  - destruct digits as [|c1 [|c2 [|c3 [|c4 [|c5 [|c6 [|]]]]]]] eqn:E;
      try discriminate H6.
    rewrite (hex_to_rgb_six c1 c2 c3 c4 c5 c6 hex_color E)
      by (fold digits; rewrite E; exact Hd).
    cbn [PyStr.forallb] in Hd.
    repeat (apply andb_prop in Hd as [? Hd]).
    cbn [String.length Nat.eqb].
    change (PyStr.slice 0 2 _) with (String c1 (String c2 "")).
    change (PyStr.slice 2 4 _) with (String c3 (String c4 "")).
    change (PyStr.slice 4 6 _) with (String c5 (String c6 "")).
    rewrite !int16_pair by assumption. cbn [bind].
    split; [reflexivity|]. repeat split; apply channel_range; assumption.
Qed.

(** X21. On a string that has, the [#] in front apart, fewer than five
    characters and not three, [_hex_to_rgb_str] raises [ValueError], where
    [hex_to_rgb] returns black. *)
Theorem hex_to_rgb_str_short_input (hex_color : string) :
  let digits := PyStr.lstrip (Ascii.eqb "#") hex_color in
  (String.length digits < 5)%nat ->
  String.length digits <> 3%nat ->
  _hex_to_rgb_str hex_color = Raise ValueError
  /\ hex_to_rgb hex_color = (0, 0, 0).
Proof.
  intros digits Hlt H3. split.
  - unfold _hex_to_rgb_str. fold digits.
    destruct digits as [|c1 [|c2 [|c3 [|c4 [|c5 ?]]]]];
      cbn [String.length] in *; try lia; cbn [Nat.eqb];
      change (PyStr.slice 4 6 _) with "";
      change (int16 "") with (@Raise Z ValueError).
    + reflexivity.
    + change (PyStr.slice 0 2 _) with (String c1 "").
      change (PyStr.slice 2 4 _) with "".
      change (int16 "") with (@Raise Z ValueError).
      unfold int16. destruct (PyInt.int _ 16); reflexivity.
    + change (PyStr.slice 0 2 _) with (String c1 (String c2 "")).
      change (PyStr.slice 2 4 _) with "".
      change (int16 "") with (@Raise Z ValueError).
      unfold int16. destruct (PyInt.int _ 16); reflexivity.
    + change (PyStr.slice 0 2 _) with (String c1 (String c2 "")).
      change (PyStr.slice 2 4 _) with (String c3 (String c4 "")).
      unfold int16.
      destruct (PyInt.int (String c1 _) 16); [|reflexivity].
      destruct (PyInt.int (String c3 _) 16); reflexivity.
  - apply hex_to_rgb_bad_length; fold digits; lia.
Qed.

End CssChannels.

(** ** The name of a domain *)

Section DomainName.

Import BrandExtractor.

Lemma split_char_cons (sep : ascii) (s : string) :
  exists w ws, PyStr.split_char sep s = w :: ws.
Proof.
  induction s as [|c t IH]; cbn [PyStr.split_char]; [eauto|].
  destruct (Ascii.eqb c sep); [eauto|].
  destruct IH as (w & ws & ->). eauto.
Qed.

Lemma split_char_first_label (s : string) :
  exists ws, PyStr.split_char "." s = first_label s :: ws.
Proof.
  induction s as [|c t IH]; cbn [PyStr.split_char first_label]; [eauto|].
  destruct (Ascii.eqb c "."); [eauto|].
  destruct IH as (ws & ->). eauto.
Qed.

Lemma lower_upper_char (c : ascii) :
  PyStr.lower_char (PyStr.upper_char c) = PyStr.lower_char c.
Proof.
  apply Ascii.eqb_eq. revert c.
  apply (for_all_chars
    (fun c => Ascii.eqb (PyStr.lower_char (PyStr.upper_char c)) (PyStr.lower_char c))).
  vm_compute. reflexivity.
Qed.

Lemma upper_char_not_lower (c : ascii) : PyStr.islower (PyStr.upper_char c) = false.
Proof.
  apply negb_true_iff. revert c.
  apply (for_all_chars (fun c => negb (PyStr.islower (PyStr.upper_char c)))).
  vm_compute. reflexivity.
Qed.

Lemma lower_lower (s : string) : PyStr.lower (PyStr.lower s) = PyStr.lower s.
Proof.
  induction s as [|c t IH]; [reflexivity|].
  cbn [PyStr.lower]. now rewrite lower_char_idem, IH.
Qed.

Lemma lower_capitalize (s : string) :
  PyStr.lower (PyStr.capitalize s) = PyStr.lower s.
Proof.
  destruct s as [|c t]; [reflexivity|].
  cbn [PyStr.capitalize PyStr.lower]. now rewrite lower_upper_char, lower_lower.
Qed.

Lemma lower_join_capitalize (ws : list string) :
  PyStr.lower (PyStr.join " " (map PyStr.capitalize ws))
  = PyStr.lower (PyStr.join " " ws).
Proof.
  induction ws as [|w ws IH]; [reflexivity|].
  destruct ws as [|w' ws].
  - cbn [map PyStr.join]. apply lower_capitalize.
  - change (PyStr.join " " (map PyStr.capitalize (w :: w' :: ws)))
      with (PyStr.capitalize w ++ " " ++ PyStr.join " " (map PyStr.capitalize (w' :: ws))).
    change (PyStr.join " " (w :: w' :: ws))
      with (w ++ " " ++ PyStr.join " " (w' :: ws)).
    rewrite !lower_append, IH, lower_capitalize. reflexivity.
Qed.

Lemma join_split_hyphens (s : string) :
  PyStr.join " " (PyStr.split_char "-" s) = hyphens_to_spaces s.
Proof.
  induction s as [|c t IH]; [reflexivity|].
  cbn [PyStr.split_char hyphens_to_spaces].
  destruct (split_char_cons "-" t) as (w & ws & E). rewrite E in *.
  destruct (Ascii.eqb c "-").
  - change (PyStr.join " " ("" :: w :: ws)) with ("" ++ " " ++ PyStr.join " " (w :: ws)).
    rewrite IH. reflexivity.
  - rewrite <- IH. destruct ws; reflexivity.
Qed.

Lemma hyphens_absent (s : string) :
  PyStr.existsb (Ascii.eqb "-") s = false -> hyphens_to_spaces s = s.
Proof.
  induction s as [|c t IH]; [reflexivity|].
  cbn [PyStr.existsb hyphens_to_spaces]. intros H.
  apply orb_false_elim in H as [H1 H2].
  rewrite Ascii.eqb_sym in H1. rewrite H1, (IH H2). reflexivity.
Qed.

Lemma slice_first (c : ascii) (t : string) :
  PyStr.slice 0 1 (String c t) = String c "".
Proof. unfold PyStr.slice. cbn [Nat.sub substring]. now destruct t. Qed.

Lemma capitalized_first (c : ascii) (t : string) :
  no_lowercase (PyStr.slice 0 1 (String (PyStr.upper_char c) t)) = true.
Proof.
  rewrite slice_first. unfold no_lowercase. cbn [PyStr.forallb].
  now rewrite upper_char_not_lower.
Qed.

Lemma join_capitalize_first (ws : list string) (w : string) :
  no_lowercase
    (PyStr.slice 0 1 (PyStr.join " " (map PyStr.capitalize (w :: ws)))) = true.
Proof.
  destruct w as [|c t].
  - destruct ws as [|w' ws]; [reflexivity|].
    change (PyStr.join " " (map PyStr.capitalize ("" :: w' :: ws)))
      with (String " " (PyStr.join " " (map PyStr.capitalize (w' :: ws)))).
    now rewrite slice_first.
  - destruct ws as [|w' ws].
    + apply capitalized_first.
    + change (PyStr.join " " (map PyStr.capitalize (String c t :: w' :: ws)))
        with (String (PyStr.upper_char c)
                (PyStr.lower t ++ " "
                 ++ PyStr.join " " (map PyStr.capitalize (w' :: ws)))).
      apply capitalized_first.
Qed.

(** X22. [_domain_to_name] never fails.  The name it returns is, letter
    case apart, the part of the domain in front of the first full stop with
    a space for every hyphen; it has as many characters as that part, and
    it does not start with a lower-case letter. *)
Theorem domain_to_name_label (domain : string) :
  exists name,
    _domain_to_name domain = Ok name
    /\ PyStr.lower name = PyStr.lower (hyphens_to_spaces (first_label domain))
    /\ String.length name = String.length (first_label domain)
    /\ no_lowercase (PyStr.slice 0 1 name) = true.
Proof.
  unfold _domain_to_name.
  destruct (split_char_first_label domain) as (ws & ->).
  rewrite index_first. cbn [bind].
  set (label := first_label domain).
  assert (Hlen : forall name,
            PyStr.lower name = PyStr.lower (hyphens_to_spaces label) ->
            String.length name = String.length label).
  { intros name H. rewrite <- (lower_length name), H, lower_length.
    clear. induction label as [|c t IH]; [reflexivity|].
    cbn [hyphens_to_spaces String.length]. now rewrite IH. }
  destruct (PyStr.existsb (Ascii.eqb "-") label) eqn:Eh.
  - eexists. split; [reflexivity|].
    assert (H : PyStr.lower (PyStr.join " " (map PyStr.capitalize (PyStr.split_char "-" label)))
                = PyStr.lower (hyphens_to_spaces label))
      by (now rewrite lower_join_capitalize, join_split_hyphens).
    split; [exact H|]. split; [exact (Hlen _ H)|].
    destruct (split_char_cons "-" label) as (w & ws' & ->).
    apply join_capitalize_first.
  - rewrite (hyphens_absent _ Eh) in *.
    destruct (PyStr.existsb PyStr.isupper (PyStr.tail label)) eqn:Eu.
    + destruct label as [|c t] eqn:El; [discriminate Eu|].
      cbn [PyStr.first bind PyStr.tail].
      eexists. split; [reflexivity|].
      assert (H : PyStr.lower (String (PyStr.upper_char c) t)
                  = PyStr.lower (String c t))
        by (cbn [PyStr.lower]; now rewrite lower_upper_char).
      split; [exact H|]. split; [reflexivity|].
      apply capitalized_first.
    + eexists. split; [reflexivity|].
      split; [apply lower_capitalize|].
      split; [apply Hlen, lower_capitalize|].
      destruct label as [|c t]; [reflexivity|].
      cbn [PyStr.capitalize]. apply capitalized_first.
Qed.

End DomainName.

(** ** The initials of a brand *)

Section Initials.

Import Models.

Lemma split_words_nonempty (s w : string) : In w (PyStr.split s) -> w <> "".
Proof.
  revert w. induction s as [|c t IH]; intros w; cbn [PyStr.split]; [intros []|].
  destruct (PyStr.isspace c); [apply IH|].
  destruct t as [|d t'].
  - intros [<-|[]]. discriminate.
  - destruct (PyStr.isspace d).
    + intros [<-|H]; [discriminate | now apply IH].
    + destruct (PyStr.split (String d t')) as [|w0 ws].
      * intros [<-|[]]. discriminate.
      * intros [<-|H]; [discriminate|]. apply IH. now right.
Qed.

Lemma rep_from_rest (p : ascii -> bool) (lo : nat) (hi : option nat)
    (s : string) (n : nat) (gs : list (nat * string)) (pv : option ascii)
    (cu : Re.cursor) :
  In cu (Re.rep_from p lo hi n gs pv s) ->
  (String.length (Re.rest cu) <= String.length s)%nat.
Proof.
  revert n pv. induction s as [|c t IH]; intros n pv; cbn [Re.rep_from].
  - destruct (Nat.leb lo n); [|intros []]. intros [<-|[]]. cbn. lia.
  - assert (Hhere : In cu (if Nat.leb lo n then [Re.Cursor gs pv (String c t)] else [])
                    -> (String.length (Re.rest cu) <= String.length (String c t))%nat).
    { destruct (Nat.leb lo n); [|intros []]. intros [<-|[]]. cbn. lia. }
    destruct (p c && Re.below n hi)%bool; [|exact Hhere].
    intros H. apply in_app_or in H as [H|H]; [|now apply Hhere].
    apply IH in H. cbn [String.length]. lia.
Qed.

Lemma camel_match_nonempty (pv : option ascii) (s : string) (m : Re.match_obj) :
  Re.match_here false CAMEL_PATTERN pv s = Some m -> Re.m_text m <> "".
Proof.
  unfold Re.match_here, CAMEL_PATTERN, Re.star.
  cbn [Re.run Re.rest Re.groups Re.prev].
  destruct s as [|x t]; [discriminate|].
  destruct (PyStr.isupper x); [|discriminate].
  cbn [flat_map]. rewrite app_nil_r. cbn [Re.rest Re.groups Re.prev].
  destruct (Re.rep_from PyStr.islower 0 None 0 [] (Some x) t) as [|cu l] eqn:E;
    [discriminate|].
  intros [= <-]. cbn [Re.m_text].
  assert (Hin : In cu (Re.rep_from PyStr.islower 0 None 0 [] (Some x) t))
    by (rewrite E; now left).
  apply rep_from_rest in Hin.
  unfold PyStr.take_until. cbn [String.length].
  destruct (S (String.length t) - String.length (Re.rest cu))%nat eqn:En; [lia|].
  cbn [substring]. discriminate.
Qed.

Lemma matches_from_here (icase : bool) (r : Re.regex) (s : string)
    (k : nat) (pv : option ascii) (m : Re.match_obj) :
  In m (Re.matches_from icase r k pv s) ->
  exists pv' s', Re.match_here icase r pv' s' = Some m.
Proof.
  revert k pv. induction s as [|c t IH]; intros k pv.
  - cbn [Re.matches_from]. destruct k; [|intros []].
    destruct (Re.match_here icase r pv "") eqn:E; [|intros []].
    intros [<-|[]]. eauto.
  - cbn [Re.matches_from]. destruct k; [|apply IH].
    destruct (Re.match_here icase r pv (String c t)) eqn:E; [|apply IH].
    intros [<-|H]; [eauto | eapply IH; eassumption].
Qed.

Lemma camel_words_nonempty (s w : string) :
  In w (Re.findall false CAMEL_PATTERN s) -> w <> "".
Proof.
  unfold Re.findall.
  change (Re.count_groups CAMEL_PATTERN) with O. cbv iota.
  intros H. apply in_map_iff in H as (m & <- & Hm).
  apply matches_from_here in Hm as (pv & s' & Hm).
  eapply camel_match_nonempty; eassumption.
Qed.

Lemma upper_no_lowercase (s : string) : no_lowercase (PyStr.upper s) = true.
Proof.
  unfold no_lowercase. induction s as [|c t IH]; [reflexivity|].
  cbn [PyStr.upper PyStr.forallb]. now rewrite upper_char_not_lower, IH.
Qed.

Lemma upper_length (s : string) : String.length (PyStr.upper s) = String.length s.
Proof. induction s as [|c t IH]; [reflexivity|]. cbn. now rewrite IH. Qed.

Lemma first_letters_shape (words : list string) :
  (forall w, In w words -> w <> "") ->
  (2 <= List.length words)%nat ->
  exists r, first_letters words = Ok r
            /\ String.length r = 2%nat /\ no_lowercase r = true.
Proof.
  intros Hne Hlen. unfold first_letters.
  destruct words as [|w0 words]; [cbn in Hlen; lia|].
  rewrite index_first. cbn [bind].
  destruct w0 as [|c0 t0]; [exfalso; apply (Hne ""); [now left | reflexivity]|].
  cbn [PyStr.first bind].
  destruct (index_last_total (String c0 t0 :: words)) as [w1 Hw1]; [discriminate|].
  rewrite Hw1. cbn [bind].
  destruct w1 as [|c1 t1].
  { exfalso. apply (Hne ""); [|reflexivity]. eapply index_in; eassumption. }
  cbn [PyStr.first bind]. eexists. split; [reflexivity|].
  split; [reflexivity | apply upper_no_lowercase].
Qed.

(** X23. The initials of a brand never fail, whatever the name: they are
    one or two characters, none of them a lower-case letter. *)
Theorem initials_shape (name : string) :
  exists r,
    initials name = Ok r
    /\ (String.length r = 1%nat \/ String.length r = 2%nat)
    /\ no_lowercase r = true.
Proof.
  unfold initials.
  set (clean_name := PyStr.filter _ name).
  destruct (2 <=? List.length (PyStr.split clean_name))%nat eqn:E1.
  - apply Nat.leb_le in E1.
    destruct (first_letters_shape (PyStr.split clean_name)) as (r & -> & H2 & H3);
      [apply split_words_nonempty | assumption | eauto].
  - destruct (2 <=? List.length (Re.findall false CAMEL_PATTERN clean_name))%nat
      eqn:E2.
    + apply Nat.leb_le in E2.
      destruct (first_letters_shape (Re.findall false CAMEL_PATTERN clean_name))
        as (r & -> & H2 & H3);
        [apply camel_words_nonempty | assumption | eauto].
    + destruct (2 <=? String.length clean_name)%nat eqn:E3.
      * apply Nat.leb_le in E3. eexists. split; [reflexivity|].
        split; [|apply upper_no_lowercase].
        right. rewrite upper_length.
        destruct clean_name as [|c1 [|c2 t]]; cbn in E3; try lia.
        unfold PyStr.slice. cbn [Nat.sub substring String.length].
        now destruct t.
      * apply Nat.leb_gt in E3.
        destruct clean_name as [|c1 [|c2 t]]; cbn in E3; try lia.
        -- eexists. split; [reflexivity|]. split; [now right | reflexivity].
        -- cbn [PyStr.upper]. eexists. split; [reflexivity|].
           split; [now left|].
           unfold no_lowercase. cbn [PyStr.forallb].
           now rewrite upper_char_not_lower.
Qed.

End Initials.

(** ** The notation [rgb(r, g, b)] *)

Section RgbNotation.

Import ColorUtils ColorExtractor.

Lemma reaches_cat (icase : bool) (r1 r2 : Re.regex)
    (gs gs1 gs2 : list (nat * string)) (t t1 t2 : string) :
  reaches icase r1 gs t gs1 t1 ->
  reaches icase r2 gs1 t1 gs2 t2 ->
  reaches icase (Re.Cat r1 r2) gs t gs2 t2.
Proof.
  intros H1 H2 pv. destruct (H1 pv) as [pv1 E1]. destruct (H2 pv1) as [pv2 E2].
  exists pv2. unfold first_way in *. cbn [Re.run].
  destruct (Re.run icase r1 _) as [|c1 l1]; [discriminate|].
  injection E1 as ->. cbn [flat_map].
  destruct (Re.run icase r2 _) as [|c2 l2]; [discriminate|].
  injection E2 as ->. reflexivity.
Qed.

Lemma reaches_char (c : ascii) (gs : list (nat * string)) (t : string) :
  reaches false (Re.Lit c) gs (String c t) gs t.
Proof.
  intros pv. exists (Some c). unfold first_way. cbn [Re.run Re.rest Re.groups].
  unfold Re.lit_matches. now rewrite Ascii.eqb_refl.
Qed.

Lemma reaches_lit (s : string) (gs : list (nat * string)) (t : string) :
  reaches false (Re.lit s) gs (s ++ t) gs t.
Proof.
  induction s as [|c s IH]; cbn [Re.lit append].
  - intros pv. exists pv. reflexivity.
  - eapply reaches_cat; [apply reaches_char | exact IH].
Qed.

Lemma reaches_opt_other (c x : ascii) (gs : list (nat * string)) (t : string) :
  Ascii.eqb c x = false ->
  reaches false (Re.Opt (Re.Lit c)) gs (String x t) gs (String x t).
Proof.
  intros H pv. exists pv. unfold first_way. cbn [Re.run Re.rest].
  unfold Re.lit_matches. rewrite H. reflexivity.
Qed.

Lemma rep_from_head (p : ascii -> bool) (lo : nat) (D X : string) (n : nat)
    (gs : list (nat * string)) (pv : option ascii) :
  PyStr.forallb p D = true -> starts_without p X = true ->
  (lo <= n + String.length D)%nat ->
  exists pv' tl, Re.rep_from p lo None n gs pv (D ++ X) = Re.Cursor gs pv' X :: tl.
Proof.
  intros HD HX. revert n pv. induction D as [|d D IH]; intros n pv Hlo.
  - cbn [append String.length] in *.
    apply Nat.leb_le in Hlo.
    destruct X as [|c t]; cbn [Re.rep_from]; rewrite ?Nat.add_0_r in Hlo;
      rewrite Hlo; [eauto|].
    cbn [starts_without] in HX. apply negb_true_iff in HX. rewrite HX.
    cbn [andb]. eauto.
  - cbn [PyStr.forallb] in HD. apply andb_prop in HD as [Hd HD].
    cbn [append Re.rep_from]. rewrite Hd. cbn [Re.below andb].
    destruct (IH HD (S n) (Some d)) as (pv' & tl & ->);
      [cbn [String.length] in Hlo; lia|].
    cbn [app]. eauto.
Qed.

Lemma reaches_star (icase : bool) (p : ascii -> bool) (D X : string)
    (gs : list (nat * string)) :
  PyStr.forallb p D = true -> starts_without p X = true ->
  reaches icase (Re.star p) gs (D ++ X) gs X.
Proof.
  intros HD HX pv. unfold first_way, Re.star. cbn [Re.run Re.groups Re.prev Re.rest].
  destruct (rep_from_head p 0 D X 0 gs pv HD HX) as (pv' & tl & ->); [lia|].
  exists pv'. reflexivity.
Qed.

Lemma reaches_group_plus (icase : bool) (k : nat) (p : ascii -> bool)
    (D X : string) (gs : list (nat * string)) :
  PyStr.forallb p D = true -> D <> "" -> starts_without p X = true ->
  reaches icase (Re.Group k (Re.plus p)) gs (D ++ X) ((k, D) :: gs) X.
Proof.
  intros HD Hne HX pv. unfold first_way, Re.plus.
  cbn [Re.run Re.groups Re.prev Re.rest].
  destruct (rep_from_head p 1 D X 0 gs pv HD HX) as (pv' & tl & ->).
  { destruct D; [contradiction | cbn; lia]. }
  cbn [map hd_error Re.groups Re.prev Re.rest].
  rewrite take_until_append. exists pv'. reflexivity.
Qed.

Lemma digit_not_space (c : ascii) : digit c = true -> space c = false.
Proof.
  intros H.
  pose proof (for_all_chars (fun c => implb (digit c) (negb (space c)))) as A.
  specialize (A ltac:(vm_compute; reflexivity) c). cbv beta in A.
  rewrite H in A. now apply negb_true_iff.
Qed.

Lemma digits_start (D X : string) :
  PyStr.forallb digit D = true -> D <> "" -> starts_without space (D ++ X) = true.
Proof.
  destruct D as [|d D]; [contradiction|]. cbn [PyStr.forallb append starts_without].
  intros H _. apply andb_prop in H as [H _].
  now rewrite (digit_not_space _ H).
Qed.

(** How [rgb_pattern] first matches a text in the usual notation. *)
Lemma rgb_pattern_reaches (R G B Y : string) :
  PyStr.forallb digit R = true -> R <> "" ->
  PyStr.forallb digit G = true -> G <> "" ->
  PyStr.forallb digit B = true -> B <> "" ->
  starts_without digit Y = true ->
  reaches false rgb_pattern []
    ("rgb(" ++ R ++ ", " ++ G ++ ", " ++ B ++ Y)
    [(3%nat, B); (2%nat, G); (1%nat, R)] Y.
Proof.
  intros HR HR' HG HG' HB HB' HY.
  set (tB := B ++ Y).
  set (tG := G ++ String "," (" " ++ tB)).
  set (tR := R ++ String "," (" " ++ tG)).
  change ("rgb(" ++ R ++ ", " ++ G ++ ", " ++ B ++ Y)
    with ("rgb" ++ String "(" ("" ++ tR)).
  unfold rgb_pattern. cbn [Re.seq].
  eapply reaches_cat; [exact (reaches_lit "rgb" [] (String "(" ("" ++ tR)))|].
  eapply reaches_cat; [apply reaches_opt_other; reflexivity|].
  eapply reaches_cat; [apply (reaches_star false space ""); reflexivity|].
  eapply reaches_cat; [apply reaches_char|].
  eapply reaches_cat;
    [apply (reaches_star false space "");
     [reflexivity | now apply digits_start]|].
  cbn [append]. unfold tR.
  eapply reaches_cat;
    [apply reaches_group_plus; [assumption | assumption | reflexivity]|].
  eapply reaches_cat;
    [apply (reaches_star false space ""); reflexivity|].
  cbn [append].
  eapply reaches_cat; [apply reaches_char|].
  eapply reaches_cat;
    [apply (reaches_star false space " ");
     [reflexivity | now apply digits_start]|].
  unfold tG.
  eapply reaches_cat;
    [apply reaches_group_plus; [assumption | assumption | reflexivity]|].
  eapply reaches_cat;
    [apply (reaches_star false space ""); reflexivity|].
  cbn [append].
  eapply reaches_cat; [apply reaches_char|].
  eapply reaches_cat;
    [apply (reaches_star false space " ");
     [reflexivity | now apply digits_start]|].
  unfold tB.
  apply reaches_group_plus; assumption.
Qed.

(** A byte is written in decimal as digits that read back as it. *)
Lemma str_byte (z : Z) :
  0 <= z <= 255 ->
  PyStr.forallb digit (PyInt.str z) = true
  /\ PyInt.str z <> ""
  /\ PyInt.int (PyInt.str z) 10 = Some z
  /\ PyStr.lower (PyInt.str z) = PyInt.str z.
Proof.
  intros Hz.
  assert (Hall : List.forallb
            (fun n =>
               let s := PyInt.str (Z.of_nat n) in
               (PyStr.forallb digit s
                && negb (String.eqb s "")
                && match PyInt.int s 10 with
                   | Some v => v =? Z.of_nat n
                   | None => false
                   end
                && String.eqb (PyStr.lower s) s)%bool)
            (seq 0 256) = true) by (vm_compute; reflexivity).
  rewrite forallb_forall in Hall.
  specialize (Hall (Z.to_nat z)). rewrite Z2Nat.id in Hall by lia.
  assert (Hin : In (Z.to_nat z) (seq 0 256)) by (apply in_seq; lia).
  specialize (Hall Hin). cbv zeta in Hall.
  repeat (apply andb_prop in Hall as [Hall ?]).
  split; [assumption|]. split.
  - intros E. rewrite E in H1. discriminate.
  - split.
    + destruct (PyInt.int (PyInt.str z) 10); [|discriminate].
      apply Z.eqb_eq in H0. now subst.
    + now apply String.eqb_eq.
Qed.

Lemma rstrip_append (p : ascii -> bool) (a b : string) :
  b <> "" /\ PyStr.rstrip p b = b ->
  a ++ b <> "" /\ PyStr.rstrip p (a ++ b) = a ++ b.
Proof.
  intros [Hne Hb]. induction a as [|x a [IH1 IH2]]; [now split|].
  split; [discriminate|].
  cbn [append PyStr.rstrip]. rewrite IH2.
  destruct (a ++ b); [contradiction | reflexivity].
Qed.

(** X24. Three bytes written in the notation [rgb(r, g, b)], in decimal,
    normalize to the colour [rgb_to_hex] writes for them. *)
Theorem normalize_rgb_notation (r g b : Z) :
  0 <= r <= 255 -> 0 <= g <= 255 -> 0 <= b <= 255 ->
  normalize_color
    ("rgb(" ++ PyInt.str r ++ ", " ++ PyInt.str g ++ ", " ++ PyInt.str b ++ ")")
  = Ok (Some (rgb_to_hex r g b)).
Proof.
  intros Hr Hg Hb.
  destruct (str_byte r Hr) as (R1 & R2 & R3 & R4).
  destruct (str_byte g Hg) as (G1 & G2 & G3 & G4).
  destruct (str_byte b Hb) as (B1 & B2 & B3 & B4).
  set (R := PyInt.str r) in *. set (G := PyInt.str g) in *.
  set (B := PyInt.str b) in *.
  set (s := "rgb(" ++ R ++ ", " ++ G ++ ", " ++ B ++ ")").
  assert (Hstrip : PyStr.strip s = s).
  { unfold PyStr.strip. unfold s at 1. cbn [append].
    rewrite lstrip_first by reflexivity.
    apply (rstrip_append PyStr.isspace "rgb(").
    apply (rstrip_append PyStr.isspace R).
    apply (rstrip_append PyStr.isspace ", ").
    apply (rstrip_append PyStr.isspace G).
    apply (rstrip_append PyStr.isspace ", ").
    apply (rstrip_append PyStr.isspace B).
    split; [discriminate | reflexivity]. }
  assert (Hlower : PyStr.lower s = s).
  { unfold s. rewrite !lower_append, R4, G4, B4. reflexivity. }
  unfold normalize_color. rewrite Hstrip, Hlower.
  change (PyStr.startswith s "#") with false.
  change (PyStr.startswith s "rgb") with true. cbv iota.
  unfold parse_rgb_string, Re.search.
  destruct (rgb_pattern_reaches R G B ")" R1 R2 G1 G2 B1 B2 eq_refl None)
    as [pv' E].
  fold s in E. unfold first_way in E.
  destruct s as [|c0 s0] eqn:Es.
  - discriminate Es.
  - rewrite <- Es in *.
    assert (Hm : Re.match_here false rgb_pattern None s
                 = Some (Re.Match (PyStr.take_until s 1)
                           [(3%nat, B); (2%nat, G); (1%nat, R)] ")")).
    { unfold Re.match_here.
      destruct (Re.run false rgb_pattern _) as [|cu l]; [discriminate|].
      injection E as ->. reflexivity. }
    assert (Hs : Re.search_from false rgb_pattern None s
                 = Re.match_here false rgb_pattern None s).
    { rewrite Es. cbn [Re.search_from]. rewrite <- Es. now rewrite Hm. }
    rewrite Hs, Hm. unfold int_group. cbn [Re.m_groups Re.lookup_group Nat.eqb].
    rewrite R3, G3, B3. reflexivity.
Qed.

End RgbNotation.

(** ** Saturation *)

Section Measures.

Import ColorUtils ColorExtractor.

(** X25. The saturation of a canonical colour is computed without a
    division by zero and lies between 0 and 1. *)
Theorem saturation_unit_interval (h : string) :
  canonical_hex h = true ->
  exists q, saturation h = Ok q /\ (0 <= q <= 1)%Q.
Proof.
  intros Hc. exists (saturation_of h). split; [apply saturation_value|].
  unfold saturation_of.
  pose proof (canonical_hex_channels h Hc) as H.
  destruct (hex_to_rgb h) as [[r g] b]. destruct H as (_ & Hr & Hg & Hb).
  cbv zeta. destruct (max3 r g b =? 0) eqn:E.
  - split; discriminate.
  - apply Z.eqb_neq in E.
    assert (Hmax : 0 < max3 r g b) by (unfold max3 in *; lia).
    assert (Hmin : 0 <= min3 r g b <= max3 r g b) by (unfold max3, min3; lia).
    assert (Hq : (0 < inject_Z (max3 r g b))%Q)
      by (change 0%Q with (inject_Z 0); now rewrite <- Zlt_Qlt).
    split.
    + apply Qle_shift_div_l; [assumption|]. rewrite Qmult_0_l.
      change 0%Q with (inject_Z 0). rewrite <- Zle_Qle. lia.
    + apply Qle_shift_div_r; [assumption|]. rewrite Qmult_1_l.
      rewrite <- Zle_Qle. lia.
Qed.

End Measures.

(** ** Instances of the properties with hypotheses *)

Section MoreWitnesses.

Import ColorUtils ColorExtractor.

Lemma rgb_hex_round_trip_witness :
  0 <= 255 <= 255 /\ 0 <= 0 <= 255 /\ 0 <= 128 <= 255
  /\ hex_to_rgb (rgb_to_hex 255 0 128) = (255, 0, 128).
Proof.
  assert (H1 : 0 <= 255 <= 255) by lia.
  assert (H2 : 0 <= 0 <= 255) by lia.
  assert (H3 : 0 <= 128 <= 255) by lia.
  repeat (split; [assumption|]).
  exact (rgb_hex_round_trip 255 0 128 H1 H2 H3).
Defined.

Lemma hex_rgb_round_trip_witness :
  canonical_hex "#1a2b3c" = true
  /\ let '(r, g, b) := hex_to_rgb "#1a2b3c" in rgb_to_hex r g b = "#1a2b3c".
Proof.
  split; [reflexivity|]. exact (hex_rgb_round_trip "#1a2b3c" eq_refl).
Defined.

Lemma normalize_preserves_color_witness :
  PyStr.startswith (PyStr.lower (PyStr.strip " #FfA ")) "#" = true
  /\ normalize_color " #FfA " = Ok (Some "#ffffaa")
  /\ hex_to_rgb "#ffffaa" = hex_to_rgb (PyStr.strip " #FfA ").
Proof.
  split; [reflexivity|]. split; [reflexivity|].
  exact (normalize_preserves_color " #FfA " "#ffffaa" eq_refl eq_refl).
Defined.

Lemma luminance_unit_interval_witness :
  (forall x, (0 < x <= 1)%Q -> (0 <= Pow.pow_2_4 x <= 1)%Q)
  /\ canonical_hex "#808080" = true
  /\ (0 <= luminance Pow.pow_2_4 "#808080" <= 1)%Q.
Proof.
  split; [exact pow_2_4_unit|]. split; [reflexivity|].
  exact (luminance_unit_interval Pow.pow_2_4 "#808080" pow_2_4_unit eq_refl).
Defined.

Lemma contrast_ratio_at_least_one_witness :
  (forall x, (0 < x)%Q -> (0 <= Pow.pow_2_4 x)%Q)
  /\ exists q q',
       contrast_ratio Pow.pow_2_4 "#1a1a2e" "#ffffff" = Ok q
       /\ contrast_ratio Pow.pow_2_4 "#ffffff" "#1a1a2e" = Ok q'
       /\ (q == q')%Q /\ (1 <= q)%Q.
Proof.
  assert (H : forall x, (0 < x)%Q -> (0 <= Pow.pow_2_4 x)%Q)
    by (intros x _; apply pow_2_4_nonneg).
  split; [exact H|].
  exact (contrast_ratio_at_least_one Pow.pow_2_4 "#1a1a2e" "#ffffff" H).
Defined.

Lemma contrast_ratio_scale_witness :
  (forall x, (0 < x <= 1)%Q -> (0 <= Pow.pow_2_4 x <= 1)%Q)
  /\ canonical_hex "#000000" = true /\ canonical_hex "#ffffff" = true
  /\ exists q,
       contrast_ratio Pow.pow_2_4 "#000000" "#ffffff" = Ok q
       /\ (1 <= q <= 21)%Q.
Proof.
  split; [exact pow_2_4_unit|]. split; [reflexivity|]. split; [reflexivity|].
  exact (contrast_ratio_scale Pow.pow_2_4 "#000000" "#ffffff"
           pow_2_4_unit eq_refl eq_refl).
Defined.

Lemma roles_from_corpus_witness :
  let colors := ["#1a1a2e"; "#e94560"; "#ffffff"] in
  let counts := Counter ["#1a1a2e"; "#e94560"; "#ffffff"; "#ffffff"] in
  colors <> []
  /\ exists palette bg p a,
       _classify_colors Pow.pow_2_4 colors counts = Ok palette
       /\ Dict.get palette "background" = Some bg
       /\ Dict.get palette "primary" = Some p
       /\ Dict.get palette "accent" = Some a
       /\ In bg colors
       /\ (In p colors \/ (p = "#333333" /\ forall c, In c colors -> c = bg))
       /\ (In a colors \/ a = p).
Proof.
  intros colors counts.
  assert (Hne : colors <> []) by discriminate.
  split; [exact Hne|].
  exact (roles_from_corpus Pow.pow_2_4 colors counts Hne).
Defined.

Lemma primary_differs_from_background_witness :
  let colors := ["#1a1a2e"; "#e94560"; "#ffffff"] in
  let counts := Counter ["#1a1a2e"; "#e94560"; "#ffffff"; "#ffffff"] in
  colors <> []
  /\ exists palette bg p,
       _classify_colors Pow.pow_2_4 colors counts = Ok palette
       /\ Dict.get palette "background" = Some bg
       /\ Dict.get palette "primary" = Some p
       /\ (p = bg -> forall c, In c colors -> c = "#333333").
Proof.
  intros colors counts.
  assert (Hne : colors <> []) by discriminate.
  split; [exact Hne|].
  exact (primary_differs_from_background Pow.pow_2_4 colors counts Hne).
Defined.

Lemma accent_selection_witness :
  let colors := ["#1a1a2e"; "#e94560"; "#0f3460"; "#ffffff"] in
  let counts := Counter ["#1a1a2e"; "#e94560"; "#0f3460"; "#ffffff"; "#ffffff"] in
  colors <> []
  /\ exists palette bg p a,
       _classify_colors Pow.pow_2_4 colors counts = Ok palette
       /\ Dict.get palette "background" = Some bg
       /\ Dict.get palette "primary" = Some p
       /\ Dict.get palette "accent" = Some a
       /\ let accent_candidates :=
            filter (fun c => negb (String.eqb c p) && color_distance_gt c p 30)%bool
                   (filter (chromatic bg) colors) in
          (accent_candidates = [] -> a = p)
          /\ (accent_candidates <> [] ->
              exists l1 l2,
                accent_candidates = (l1 ++ a :: l2)%list
                /\ (forall x, In x l1 -> (saturation_of x < saturation_of a)%Q)
                /\ (forall x, In x l2 -> (saturation_of x <= saturation_of a)%Q)).
Proof.
  intros colors counts.
  assert (Hne : colors <> []) by discriminate.
  split; [exact Hne|].
  exact (accent_selection Pow.pow_2_4 colors counts Hne).
Defined.

Lemma theme_and_background_witness :
  let colors := ["#101010"; "#e94560"; "#ffffff"] in
  let counts := [("#101010", 3); ("#e94560", 1); ("#ffffff", 1)] in
  colors <> []
  /\ (forall c, 0 <= count counts c)
  /\ exists palette bg,
       _classify_colors Pow.pow_2_4 colors counts = Ok palette
       /\ Dict.get palette "background" = Some bg
       /\ (Dict.get palette "theme" = Some "dark" ->
           very_dark Pow.pow_2_4 bg = true)
       /\ (Dict.get palette "theme" = Some "light" ->
           very_light Pow.pow_2_4 bg = true
           \/ (filter (very_dark Pow.pow_2_4) colors = []
               /\ filter (very_light Pow.pow_2_4) colors = [])).
Proof.
  intros colors counts.
  assert (Hne : colors <> []) by discriminate.
  assert (Hc : forall c, 0 <= count counts c).
  { intros c. unfold count, Dict.get_default, counts. cbn [Dict.get].
    destruct (String.eqb "#101010" c); [lia|].
    destruct (String.eqb "#e94560" c); [lia|].
    destruct (String.eqb "#ffffff" c); lia. }
  split; [exact Hne|]. split; [exact Hc|].
  exact (theme_and_background Pow.pow_2_4 colors counts Hne Hc).
Defined.

Lemma extraction_result_shape_witness :
  let soup := Page "a { color: #FFF; background: #1a1a2e } b { color: #fff }" None in
  exists d,
    extract_from_url Pow.pow_2_4 (Fetched soup) = Ok d
    /\ Dict.keys d = [ "colors"; "color_counts"; "semantic_vars_found";
                       "primary"; "accent"; "background"; "text"; "theme" ]
    /\ exists unique_colors color_counts,
         Dict.get d "colors" = Some (VList unique_colors)
         /\ Dict.get d "color_counts" = Some (VCounts color_counts)
         /\ NoDup unique_colors
         /\ forall c, In c unique_colors <-> 0 < count color_counts c.
Proof.
  intros soup.
  destruct (extract_from_url Pow.pow_2_4 (Fetched soup)) as [d|e] eqn:E;
    [|vm_compute in E; discriminate E].
  exists d. split; [reflexivity|].
  exact (extraction_result_shape Pow.pow_2_4 soup d E).
Defined.

Lemma saturation_unit_interval_witness :
  canonical_hex "#e94560" = true
  /\ exists q, saturation "#e94560" = Ok q /\ (0 <= q <= 1)%Q.
Proof.
  split; [reflexivity|]. exact (saturation_unit_interval "#e94560" eq_refl).
Defined.

Lemma normalize_rgb_notation_witness :
  0 <= 255 <= 255 /\ 0 <= 128 <= 255 /\ 0 <= 0 <= 255
  /\ normalize_color
       ("rgb(" ++ PyInt.str 255 ++ ", " ++ PyInt.str 128 ++ ", " ++ PyInt.str 0 ++ ")")
     = Ok (Some (rgb_to_hex 255 128 0)).
Proof.
  assert (H1 : 0 <= 255 <= 255) by lia.
  assert (H2 : 0 <= 128 <= 255) by lia.
  assert (H3 : 0 <= 0 <= 255) by lia.
  repeat (split; [assumption|]).
  exact (normalize_rgb_notation 255 128 0 H1 H2 H3).
Defined.

End MoreWitnesses.

Section CacheWitnesses.

Import App.

Lemma two_keys_distinct : NoDup (Dict.keys [("a", 1); ("b", 2)]).
Proof.
  cbn. repeat constructor; cbn; intuition discriminate.
Qed.

Lemma get_after_set_witness :
  NoDup (Dict.keys [("a", 1); ("b", 2)])
  /\ exists d',
       _set_cached Z [("a", 1); ("b", 2)] "a" 3 = Some d'
       /\ _get_cached Z d' "a" = Some (Some 3, d').
Proof.
  split; [exact two_keys_distinct|].
  exact (get_after_set Z [("a", 1); ("b", 2)] "a" 3 two_keys_distinct).
Defined.

Lemma set_cached_evicts_oldest_witness :
  let d := [("a", 1); ("b", 2)] in
  NoDup (Dict.keys d)
  /\ (List.length d <= _CACHE_MAX_SIZE)%nat
  /\ exists d',
       _set_cached Z d "c" 3 = Some d'
       /\ ((List.length d < _CACHE_MAX_SIZE)%nat \/ Dict.get d "c" <> None ->
           forall k, k <> "c" -> Dict.get d' k = Dict.get d k)
       /\ (List.length d = _CACHE_MAX_SIZE -> Dict.get d "c" = None ->
           d' = (tl d ++ [("c", 3)])%list).
Proof.
  intros d.
  assert (Hlen : (List.length d <= _CACHE_MAX_SIZE)%nat)
    by (unfold _CACHE_MAX_SIZE; cbn; lia).
  split; [exact two_keys_distinct|]. split; [exact Hlen|].
  exact (set_cached_evicts_oldest Z d "c" 3 two_keys_distinct Hlen).
Defined.

Lemma get_cached_keeps_contents_witness :
  let d := [("a", 1); ("b", 2)] in
  NoDup (Dict.keys d)
  /\ exists d',
       _get_cached Z d "a" = Some (Dict.get d "a", d')
       /\ (forall k, Dict.get d' k = Dict.get d k)
       /\ List.length d' = List.length d
       /\ NoDup (Dict.keys d')
       /\ (Dict.get d "a" = None -> d' = d).
Proof.
  intros d. split; [exact two_keys_distinct|].
  exact (get_cached_keeps_contents Z d "a" two_keys_distinct).
Defined.

Lemma read_key_survives_insertion_witness :
  let d := [("a", 1); ("b", 2)] in
  NoDup (Dict.keys d)
  /\ Dict.get d "a" = Some 1
  /\ "c" <> "a"
  /\ exists d1 d2,
       _get_cached Z d "a" = Some (Some 1, d1)
       /\ _set_cached Z d1 "c" 3 = Some d2
       /\ Dict.get d2 "a" = Some 1.
Proof.
  intros d.
  assert (Hne : "c" <> "a") by discriminate.
  split; [exact two_keys_distinct|]. split; [reflexivity|]. split; [exact Hne|].
  exact (read_key_survives_insertion Z d "a" 1 "c" 3 two_keys_distinct eq_refl Hne).
Defined.

End CacheWitnesses.

Section CssWitnesses.

Import ColorUtils ColorExtractor HTMLGenerator.

Lemma hex_to_rgb_str_agrees_witness :
  PyStr.forallb hexdigit (PyStr.lstrip (Ascii.eqb "#") "#fA0") = true
  /\ (String.length (PyStr.lstrip (Ascii.eqb "#") "#fA0") = 3%nat
      \/ String.length (PyStr.lstrip (Ascii.eqb "#") "#fA0") = 6%nat)
  /\ let '(r, g, b) := hex_to_rgb "#fA0" in
     _hex_to_rgb_str "#fA0"
     = Ok (PyInt.str r ++ ", " ++ PyInt.str g ++ ", " ++ PyInt.str b)
     /\ 0 <= r <= 255 /\ 0 <= g <= 255 /\ 0 <= b <= 255.
Proof.
  split; [reflexivity|]. split; [left; reflexivity|].
  exact (hex_to_rgb_str_agrees "#fA0" eq_refl (or_introl eq_refl)).
Defined.

Lemma hex_to_rgb_str_short_input_witness :
  (String.length (PyStr.lstrip (Ascii.eqb "#") "#12") < 5)%nat
  /\ String.length (PyStr.lstrip (Ascii.eqb "#") "#12") <> 3%nat
  /\ _hex_to_rgb_str "#12" = Raise ValueError
  /\ hex_to_rgb "#12" = (0, 0, 0).
Proof.
  assert (H1 : (String.length (PyStr.lstrip (Ascii.eqb "#") "#12") < 5)%nat)
    by (cbn; lia).
  assert (H2 : String.length (PyStr.lstrip (Ascii.eqb "#") "#12") <> 3%nat)
    by (cbn; lia).
  split; [exact H1|]. split; [exact H2|].
  exact (hex_to_rgb_str_short_input "#12" H1 H2).
Defined.

End CssWitnesses.
